(** * happiestbaby-api: the authenticated request pipeline, the device
      registry and the journal client, as a shallow embedding.

    The Python sources are [happiestbaby_api/request.py] (Transport),
    [happiestbaby_api/api.py] (Credential Manager, Request Gateway, Device
    Registry) and [happiestbaby_api/journal.py] (Journal Client).

    Conventions of the embedding.
    - A coroutine is a function in the state-and-exception monad [M]: it
      takes the state, returns a result ([Ok v], or [Raise e] for a Python
      exception) and the state it leaves behind.  A mutation made before an
      exception is raised stays, as in Python.
    - The network and the clock are the environment [World]: the n-th HTTP
      exchange is answered by [net w n], every exchange and every sleep
      advances the clock, and every exchange and sleep is logged in [trace].
    - Python values that come out of JSON are [Json] terms; [JNull] is
      [None].  A Python [float] is a binary64 number, Rocq's primitive
      [float].  Timestamps are whole seconds ([Z]).  Adding to the clock an
      amount that came from the network raises [OverflowError] outside the
      years 1 to 9999, as CPython's [datetime] does; the clock itself reads
      a time more than [DEFAULT_DEVICE_UPDATE_INTERVAL] inside that range, so
      that the two sums of [update_device_info] are not modelled as able to
      overflow.
    - A string is a sequence of characters with codes below 256.  The texts
      of the built-in exceptions are those of CPython 3.11. *)

From Stdlib Require Import ZArith List String Ascii Bool Lia QArith Qround Qabs Lqa.
From Stdlib Require Import DecimalString.
From Stdlib Require PrimFloat FloatOps SpecFloat.
Import ListNotations.

Open Scope string_scope.
Open Scope Z_scope.
Open Scope list_scope.

(** ** Exceptions *)

(** [JSONDecodeError]'s fields read by [request_json]. *)
Record DecodeError := {
  dec_msg : string;
  dec_lineno : Z;
  dec_colno : Z;
  dec_pos : Z;
  dec_doc : string
}.

(** The exception classes the sources raise or catch.  [RequestError],
    [AuthenticationError] and [InvalidCredentialsError] come from
    [errors.py]; [ClientResponseError] is aiohttp's subclass of
    [ClientError] ([ClientError] below stands for every other
    [ClientError]). *)
Inductive Exn :=
| RequestError (message : string)
| AuthenticationError (message : string)
| InvalidCredentialsError (message : string)
| ClientResponseError (status : Z) (message : string)
| ClientError (message : string)
| ValueError (message : string)
| JSONDecodeError (err : DecodeError)
| CancelledError
| TypeError (message : string)
| AttributeError (message : string)
| KeyError (key : string)               (* [repr] of the key *)
| OverflowError (message : string).

(** ** The monad of coroutines *)

Inductive Res (A : Type) :=
| Ok (value : A)
| Raise (exn : Exn).
Arguments Ok {A} value.
Arguments Raise {A} exn.

Definition M (S A : Type) : Type := S -> Res A * S.

Definition ret {S A} (a : A) : M S A := fun s => (Ok a, s).

Definition bind {S A B} (m : M S A) (k : A -> M S B) : M S B :=
  fun s => match m s with
           | (Ok a, s') => k a s'
           | (Raise e, s') => (Raise e, s')
           end.

Definition raise {S A} (e : Exn) : M S A := fun s => (Raise e, s).

(** [try: m except e: h e]; a handler re-raises what it does not catch. *)
Definition try_except {S A} (m : M S A) (h : Exn -> M S A) : M S A :=
  fun s => match m s with
           | (Ok a, s') => (Ok a, s')
           | (Raise e, s') => h e s'
           end.

Definition get {S} : M S S := fun s => (Ok s, s).
Definition gets {S A} (f : S -> A) : M S A := fun s => (Ok (f s), s).
Definition modify {S} (f : S -> S) : M S unit := fun s => (Ok tt, f s).

(** Run a coroutine of a component on the part of the state it owns. *)
Definition zoom {S T A} (proj : S -> T) (upd : T -> S -> S) (m : M T A) : M S A :=
  fun s => let (r, t) := m (proj s) in (r, upd t s).

Declare Scope coroutine_scope.
Delimit Scope coroutine_scope with coroutine.
Notation "x <- m ;; k" := (bind m (fun x => k))
  (at level 100, m at next level, right associativity) : coroutine_scope.
Notation "m ;; k" := (bind m (fun _ => k))
  (at level 100, right associativity) : coroutine_scope.
Notation "' pat <- m ;; k" := (bind m (fun x => match x with pat => k end))
  (at level 100, pat pattern, m at next level, right associativity) : coroutine_scope.
Open Scope coroutine_scope.

(** A computation that touches no state: it returns or raises. *)
Definition lift {S A} (r : Res A) : M S A := fun s => (r, s).

(** [for x in xs: body x], where [continue] is the body's normal end. *)
Fixpoint for_each {S A} (xs : list A) (body : A -> M S unit) : M S unit :=
  match xs with
  | [] => ret tt
  | x :: xs' => body x ;; for_each xs' body
  end.

(** [str(n)] of an integer *)
Definition string_of_Z (n : Z) : string := NilZero.string_of_int (Z.to_int n).

(** ** Python floats *)

(** The integer nearest to [q], a tie going to the even one. *)
Definition round_half_even (q : Q) : Z :=
  let f := Qfloor q in
  match Qcompare (q - inject_Z f) (1 # 2) with
  | Lt => f
  | Gt => f + 1
  | Eq => if Z.even f then f else f + 1
  end.

(** Truncation towards zero. *)
Definition Qtruncate (q : Q) : Z := Z.quot (Qnum q) (Z.pos (Qden q)).

Set Warnings "-inexact-float".

(** A Python [float] is a binary64 number: the primitive [float], whose
    multiplication and division are the IEEE-754 ones.  A decimal literal
    denotes the nearest binary64 number, here as in Python. *)
Module Binary64.
Import PrimFloat FloatOps SpecFloat.

(** The rational number a finite float is; [None] for NaN and the
    infinities. *)
Definition exact (x : float) : option Q :=
  match Prim2SF x with
  | S754_zero _ => Some 0%Q
  | S754_finite s m e =>
      let v := match e with
               | Z0 => inject_Z (Zpos m)
               | Zpos p => inject_Z (Z.shiftl (Zpos m) (Zpos p))
               | Zneg p => Qmake (Zpos m) (Pos.shiftl 1 (Npos p))
               end in
      Some (if s then Qopp v else v)
  | _ => None
  end.

(** The float nearest to [n / d], a tie going to the even mantissa; an
    infinity when [n / d] is beyond the largest float. *)
Definition nearest (n : Z) (d : positive) : float :=
  match n with
  | Z0 => zero
  | Zpos p => SF2Prim (SFdiv prec emax (S754_finite false p 0) (S754_finite false d 0))
  | Zneg p => SF2Prim (SFdiv prec emax (S754_finite true p 0) (S754_finite false d 0))
  end.

(** [int(x)] of a float. *)
Definition py_int (x : float) : Res Z :=
  match exact x with
  | Some q => Ok (Qtruncate q)
  | None =>
      if is_nan x then Raise (ValueError "cannot convert float NaN to integer")
      else Raise (OverflowError "cannot convert float infinity to integer")
  end.

(** [x / 2] *)
Definition halve (x : float) : float := (x / 2)%float.

(** [round(x, 2)] of a float: the exact value of [x] is rounded to the
    nearest number with two decimals, a tie going to the even last digit,
    and the float nearest to that number is returned; a zero keeps the sign
    of [x], NaN and the infinities round to themselves. *)
Definition py_round2 (x : float) : float :=
  match exact x with
  | None => x
  | Some q =>
      match round_half_even (q * 100) with
      | Z0 => if get_sign x then neg_zero else zero
      | n => nearest n 100
      end
  end.

End Binary64.

(** ** Python texts *)

Definition quote_char : ascii := ascii_of_nat 39.
Definition double_quote_char : ascii := ascii_of_nat 34.
Definition backslash_char : ascii := ascii_of_nat 92.

Definition single (c : ascii) : string := String c EmptyString.

(** [sep.join(parts)] *)
Fixpoint join (sep : string) (parts : list string) : string :=
  match parts with
  | [] => ""
  | [p] => p
  | p :: rest => (p ++ sep ++ join sep rest)%string
  end.

Fixpoint repeat_string (n : nat) (s : string) : string :=
  match n with O => "" | S n' => (s ++ repeat_string n' s)%string end.

Fixpoint string_mem (c : ascii) (s : string) : bool :=
  match s with
  | EmptyString => false
  | String c' s' => Ascii.eqb c c' || string_mem c s'
  end.

Definition hex_digit (n : nat) : ascii :=
  nth n (list_ascii_of_string "0123456789abcdef") "0"%char.

(** [str.isprintable] on a character with code below 256. *)
Definition printable (c : ascii) : bool :=
  let n := nat_of_ascii c in
  ((32 <=? n) && (n <=? 126) || (161 <=? n) && negb (n =? 173))%nat.

(** One character of [repr(s)], inside the quotes [quote]. *)
Definition repr_char (quote c : ascii) : string :=
  let n := nat_of_ascii c in
  if Ascii.eqb c backslash_char then String backslash_char (single backslash_char)
  else if Ascii.eqb c quote then String backslash_char (single quote)
  else if (n =? 9)%nat then String backslash_char "t"
  else if (n =? 10)%nat then String backslash_char "n"
  else if (n =? 13)%nat then String backslash_char "r"
  else if printable c then single c
  else String backslash_char
         (String "x" (String (hex_digit (n / 16)) (single (hex_digit (n mod 16))))).

Fixpoint repr_chars (quote : ascii) (s : string) : string :=
  match s with
  | EmptyString => ""
  | String c s' => (repr_char quote c ++ repr_chars quote s')%string
  end.

(** [repr(s)] of a string whose characters have codes below 256: single
    quotes, unless the string has a single quote and no double quote. *)
Definition str_repr (s : string) : string :=
  let quote := if string_mem quote_char s && negb (string_mem double_quote_char s)
               then double_quote_char else quote_char in
  String quote (repr_chars quote s ++ single quote)%string.

Module FloatText.

(** The largest [e] with [10^e <= q], for [q > 0]. *)
Fixpoint log10_up (fuel : nat) (q : Q) (e : Z) : Z :=
  match fuel with
  | O => e
  | S fuel' => if Qle_bool 10 q then log10_up fuel' (q / 10) (e + 1) else e
  end.

Fixpoint log10_down (fuel : nat) (q : Q) (e : Z) : Z :=
  match fuel with
  | O => e
  | S fuel' => if Qle_bool 1 q then e else log10_down fuel' (q * 10) (e - 1)
  end.

Definition floor_log10 (q : Q) : Z :=
  if Qle_bool 1 q then log10_up 400 q 0 else log10_down 400 q 0.

(** [m * 10^e] as a fraction. *)
Definition scaled (m : Z) (e : Z) : Z * positive :=
  match e with
  | Zneg p => (m, Pos.pow 10 p)
  | _ => (m * 10 ^ e, 1%positive)
  end.

Definition reads_as (x : PrimFloat.float) (m e : Z) : bool :=
  let '(n, d) := scaled m e in PrimFloat.eqb (Binary64.nearest n d) x.

(** The [p]-digit decimal nearest to [q] among those that read back as
    [x], as mantissa and exponent, if there is single. *)
Definition candidate (x : PrimFloat.float) (q : Q) (e10 : Z) (p : Z) : option (Z * Z) :=
  let e := e10 - p + 1 in
  let '(sn, sd) := scaled 1 e in
  let r := (q * (Zpos sd # 1) / (sn # 1))%Q in
  let lo := Qfloor r in
  let hi := lo + 1 in
  let lo_ok := reads_as x lo e in
  let hi_ok := reads_as x hi e in
  let lo_nearer :=
    match Qcompare (r - inject_Z lo) (1 # 2) with
    | Lt => true
    | Gt => false
    | Eq => Z.even lo
    end in
  if lo_ok && hi_ok then Some (if lo_nearer then lo else hi, e)
  else if lo_ok then Some (lo, e)
  else if hi_ok then Some (hi, e)
  else None.

Fixpoint shortest (fuel : nat) (x : PrimFloat.float) (q : Q) (e10 : Z) (p : Z) : Z * Z :=
  match fuel with
  | O => (0, 0)
  | S fuel' =>
      match candidate x q e10 p with
      | Some me => me
      | None => shortest fuel' x q e10 (p + 1)
      end
  end.

(** Trailing zeros go to the exponent. *)
Fixpoint strip_zeros (fuel : nat) (m e : Z) : Z * Z :=
  match fuel with
  | O => (m, e)
  | S fuel' => if (m mod 10 =? 0) && negb (m =? 0)
               then strip_zeros fuel' (m / 10) (e + 1) else (m, e)
  end.

Definition two_or_more_digits (n : Z) : string :=
  ((if (n <? 10)%Z then "0" else "") ++ string_of_Z n)%string.

(** [repr(x)] of a positive finite float of value [q]. *)
Definition positive_repr (x : PrimFloat.float) (q : Q) : string :=
  let '(m0, e0) := shortest 18 x q (floor_log10 q) 1 in
  let '(m, e) := strip_zeros 20 m0 e0 in
  let digits := string_of_Z m in
  let len := Z.of_nat (String.length digits) in
  let decpt := len + e in
  if (decpt <=? -4) || (16 <? decpt) then
    let first := match digits with String c _ => single c | _ => "" end in
    let rest := match digits with String _ r => r | _ => "" end in
    let exponent := decpt - 1 in
    (first ++ (if (String.length rest =? 0)%nat then "" else "." ++ rest)
     ++ "e" ++ (if (exponent <? 0)%Z then "-" else "+")
     ++ two_or_more_digits (Z.abs exponent))%string
  else if decpt <=? 0 then
    ("0." ++ repeat_string (Z.to_nat (- decpt)) "0" ++ digits)%string
  else if len <=? decpt then
    (digits ++ repeat_string (Z.to_nat (decpt - len)) "0" ++ ".0")%string
  else
    (substring 0 (Z.to_nat decpt) digits ++ "."
     ++ substring (Z.to_nat decpt) (Z.to_nat (len - decpt)) digits)%string.

(** [repr(x)] of a float: the shortest decimal that reads back as [x]. *)
Definition float_repr (x : PrimFloat.float) : string :=
  match Binary64.exact x with
  | None => if PrimFloat.is_nan x then "nan" else if PrimFloat.get_sign x then "-inf" else "inf"
  | Some q =>
      if PrimFloat.eqb x PrimFloat.zero then (if PrimFloat.get_sign x then "-0.0" else "0.0")
      else ((if PrimFloat.get_sign x then "-" else "") ++ positive_repr (PrimFloat.abs x) (Qabs.Qabs q))%string
  end.

End FloatText.

(** ** [int(s)] of a string *)

Definition is_space (c : ascii) : bool :=
  let n := nat_of_ascii c in
  ((9 <=? n) && (n <=? 13) || (n =? 32) || (n =? 133) || (n =? 160))%nat.

Definition digit_value (c : ascii) : option Z :=
  let n := nat_of_ascii c in
  if ((48 <=? n) && (n <=? 57))%nat then Some (Z.of_nat n - 48) else None.

Fixpoint lstrip (s : string) : string :=
  match s with
  | String c s' => if is_space c then lstrip s' else s
  | EmptyString => s
  end.

Fixpoint reverse_onto (s acc : string) : string :=
  match s with
  | EmptyString => acc
  | String c s' => reverse_onto s' (String c acc)
  end.

Definition strip (s : string) : string :=
  reverse_onto (lstrip (reverse_onto (lstrip s) "")) "".

(** The digits of a numeral, single underscores allowed between digits:
    the value and the number of digits.  [after_digit] tells whether the
    character before was a digit. *)
Fixpoint numeral (s : string) (after_digit : bool) (value : Z) (count : nat)
    : option (Z * nat) :=
  match s with
  | EmptyString => if after_digit then Some (value, count) else None
  | String c s' =>
      match digit_value c with
      | Some d => numeral s' true (10 * value + d) (S count)
      | None =>
          if Ascii.eqb c "_" && after_digit then numeral s' false value count
          else None
      end
  end.

Inductive IntText :=
| IntValue (n : Z)
| TooManyDigits (count : nat)
| NotAnInt.

Definition MAX_STR_DIGITS : nat := 4300.

Definition int_of_text (s : string) : IntText :=
  let body := strip s in
  let '(negative, digits) :=
    match body with
    | String "-" r => (true, r)
    | String "+" r => (false, r)
    | _ => (false, body)
    end in
  match numeral digits false 0 0 with
  | Some (v, count) =>
      if (MAX_STR_DIGITS <? count)%nat then TooManyDigits count
      else IntValue (if negative then - v else v)
  | None => NotAnInt
  end.

(** ** JSON values, as Python sees them *)

#[warnings="-register-all"]
Inductive Json :=
| JNull
| JBool (b : bool)
| JInt (n : Z)
| JFloat (x : PrimFloat.float)
| JStr (s : string)
| JList (items : list Json)
| JDict (fields : list (string * Json)).

(** A Python [dict] with string keys: an association list in insertion
    order, each key at most once. *)
Definition Dict := list (string * Json).

Fixpoint dict_find (d : Dict) (k : string) : option Json :=
  match d with
  | [] => None
  | (k', v) :: d' => if String.eqb k k' then Some v else dict_find d' k
  end.

(** [k in d] *)
Definition dict_mem (d : Dict) (k : string) : bool :=
  match dict_find d k with Some _ => true | None => false end.

(** [d.get(k, default)] *)
Definition dict_get_default (d : Dict) (k : string) (default : Json) : Json :=
  match dict_find d k with Some v => v | None => default end.

(** [d.get(k)] *)
Definition dict_get (d : Dict) (k : string) : Json := dict_get_default d k JNull.

(** [d[k] = v]: replaces the value in place, or appends a new key. *)
Fixpoint dict_set (d : Dict) (k : string) (v : Json) : Dict :=
  match d with
  | [] => [(k, v)]
  | (k', v') :: d' =>
      if String.eqb k k' then (k, v) :: d' else (k', v') :: dict_set d' k v
  end.

(** Python truth value: [bool(v)]. *)
Definition truthy (v : Json) : bool :=
  match v with
  | JNull => false
  | JBool b => b
  | JInt n => negb (n =? 0)
  | JFloat x => negb (PrimFloat.eqb x PrimFloat.zero)
  | JStr s => negb (String.eqb s "")
  | JList l => match l with [] => false | _ => true end
  | JDict d => match d with [] => false | _ => true end
  end.

(** [type(v).__name__] *)
Definition py_type_name (v : Json) : string :=
  match v with
  | JNull => "NoneType"
  | JBool _ => "bool"
  | JInt _ => "int"
  | JFloat _ => "float"
  | JStr _ => "str"
  | JList _ => "list"
  | JDict _ => "dict"
  end.

(** [repr(v)] *)
Fixpoint py_repr (v : Json) : string :=
  match v with
  | JNull => "None"
  | JBool true => "True"
  | JBool false => "False"
  | JInt n => string_of_Z n
  | JFloat x => FloatText.float_repr x
  | JStr s => str_repr s
  | JList l => ("[" ++ join ", " (map py_repr l) ++ "]")%string
  | JDict d =>
      ("{" ++ join ", "
                (map (fun kv => let '(k, x) := kv in (str_repr k ++ ": " ++ py_repr x)%string) d)
           ++ "}")%string
  end.

(** [str(v)], which an f-string uses. *)
Definition py_str (v : Json) : string :=
  match v with
  | JStr s => s
  | _ => py_repr v
  end.

Definition opt_json (o : option string) : Json :=
  match o with Some s => JStr s | None => JNull end.

(** ** The environment: network, clock and log *)

(** What [json.loads] makes of a text. *)
Inductive Decoded :=
| Parsed (j : Json)
| Undecodable (err : DecodeError).

(** The body of an HTTP response: its text ([resp.text()]) and what
    [json.loads] makes of it ([resp.json()]). *)
Record Body := {
  text : string;
  decoded : Decoded
}.

(** What the remote end does with one request. *)
Inductive Outcome :=
| Answered (status : Z) (reason : string) (body : Body)
| Failed (error : string).

Record Reply := {
  elapsed : nat;       (* seconds the exchange took *)
  outcome : Outcome
}.

(** The arguments of [websession.request]. *)
Record Request := {
  method : string;
  url : string;
  headers : option Dict;
  params : option Dict;
  data : option Json;     (* [json.dumps(j)], kept as [j] *)
  json : option Json;
  allow_redirects : bool
}.

Inductive Event :=
| Sent (rq : Request)
| Slept (seconds : Z).

Record World := {
  now : Z;                 (* [datetime.now(UTC)] *)
  utc_offset : Z;          (* [datetime.now()] is [now + utc_offset] *)
  served : nat;            (* exchanges so far *)
  net : nat -> Reply;      (* the reply to each exchange *)
  bg_done : nat -> bool;   (* scheduling of the background task, see [task_poll] *)
  trace : list Event       (* oldest first *)
}.

(** [aiohttp.ClientResponse]. *)
Record ClientResponse := {
  resp_status : Z;
  resp_reason : string;
  resp_body : Body
}.

(** [await asyncio.sleep(seconds)] *)
Definition sleep (seconds : Z) : M World unit :=
  modify (fun w => {| now := now w + seconds; utc_offset := utc_offset w;
                      served := served w; net := net w; bg_done := bg_done w;
                      trace := trace w ++ [Slept seconds] |}).

(** The state after one exchange. *)
Definition exchanged (rq : Request) (w : World) : World :=
  {| now := now w + Z.of_nat (elapsed (net w (served w)));
     utc_offset := utc_offset w; served := S (served w); net := net w;
     bg_done := bg_done w; trace := trace w ++ [Sent rq] |}.

(** One HTTP exchange: the request is logged, the environment's next reply
    is consumed.  With [raise_for_status] a status of 400 or more raises
    [ClientResponseError]. *)
Definition exchange (raise_for_status : bool) (rq : Request) : M World ClientResponse :=
  fun w =>
    (match outcome (net w (served w)) with
     | Answered st reason body =>
         if raise_for_status && (400 <=? st)
         then Raise (ClientResponseError st reason)
         else Ok {| resp_status := st; resp_reason := reason; resp_body := body |}
     | Failed msg => Raise (ClientError msg)
     end,
     exchanged rq w).

(** ** Transport: [request.py] *)

Module Transport.

Definition DEFAULT_REQUEST_RETRIES : nat := 5.

(** The [while attempt < DEFAULT_REQUEST_RETRIES] loop of [_send_request].
    [remaining] is [DEFAULT_REQUEST_RETRIES - attempt], so the loop test is
    [remaining <> 0]; [attempt] and [resp_exc] are the loop's variables. *)
Fixpoint _send_request_loop (remaining : nat) (attempt : nat)
    (resp_exc : option Exn) (rq : Request) : M World ClientResponse :=
  match remaining with
  | O =>
      match resp_exc with
      | Some e => raise e
      | None => raise (RequestError "All request attempts failed")
      end
  | S remaining' =>
      (if Nat.eqb attempt 0 then ret tt
       else sleep (Z.min (2 ^ Z.of_nat attempt) 5)) ;;
      let attempt := S attempt in
      r <- try_except
        (resp <- exchange true rq ;; ret (inl resp))
        (fun err =>
           match err with
           | ClientResponseError st _ =>
               if st =? 401 then raise err else ret (inr err)
           | ClientError _ => ret (inr err)
           | _ => raise err
           end) ;;
      match r with
      | inl resp => ret resp
      | inr err => _send_request_loop remaining' attempt (Some err) rq
      end
  end.

(** [SnooRequest._send_request] *)
Definition _send_request (rq : Request) : M World ClientResponse :=
  _send_request_loop DEFAULT_REQUEST_RETRIES 0 None rq.

(** [resp.json(content_type=None)], with [request_json]'s handler for
    [JSONDecodeError]. *)
Definition response_json (resp : ClientResponse) : M World Json :=
  match decoded (resp_body resp) with
  | Parsed j => ret j
  | Undecodable err =>
      raise (RequestError
        ("JSON Decoder error " ++ dec_msg err ++ " in response at line "
         ++ string_of_Z (dec_lineno err) ++ " column " ++ string_of_Z (dec_colno err)
         ++ ". Response received was:" ++ String (ascii_of_nat 10) (dec_doc err))%string)
  end.

(** [SnooRequest.request_json] *)
Definition request_json (rq : Request) : M World (ClientResponse * Json) :=
  resp <- _send_request rq ;;
  data <- response_json resp ;;
  ret (resp, data).

(** [SnooRequest.request_response] *)
Definition request_response (rq : Request) : M World (ClientResponse * Json) :=
  resp <- _send_request rq ;;
  ret (resp, JNull).

(** [REQUEST_METHODS.get(returns)], resolved to the method it names. *)
Definition REQUEST_METHODS (returns : string)
    : option (Request -> M World (ClientResponse * Json)) :=
  if String.eqb returns "json" then Some request_json
  else if String.eqb returns "response" then Some request_response
  else None.

End Transport.


(** ** Constants: [const.py] *)

Definition BASE_ENDPOINT := "https://api-us-east-1-prod.happiestbaby.com".
Definition COGNITO_ENDPOINT := "https://cognito-idp.us-east-1.amazonaws.com/".
Definition REFRESH_URI := "/us/v2/refresh".
Definition COGNITO_CLIENT_ID := "6kqofhc8hm394ielqdkvli0oea".
Definition DEVICES_URI := "/me/devices".
Definition ACCOUNT_URI := "/us/me".
Definition BABY_URI := "/us/v3/me/baby".
Definition SESSION_URI := "/analytics/sessions/last".
Definition BABIES_URI := "/us/me/v10/babies".
Definition ACCOUNT_V10_URI := "/us/me/v10/me".
Definition DEVICES_V11_URI := "/hds/me/v11/devices".
Definition JOURNALS_CREATE_URI := "/cs/me/v11/journals".

(** [DEVICE_CONFIGS_URI.format(serial_number=serial_number)] *)
Definition DEVICE_CONFIGS_URI (serial_number : string) : string :=
  ("/ds/devices/" ++ serial_number ++ "/configs")%string.

(** [JOURNALS_TRACKING_URI.format(baby_id=baby_id)] *)
Definition JOURNALS_TRACKING_URI (baby_id : string) : string :=
  ("/cs/me/v11/babies/" ++ baby_id ++ "/journals/tracking")%string.

(** [JOURNAL_TYPES] *)
Definition JOURNAL_TYPES_DIAPER := "diaper".
Definition JOURNAL_TYPES_BOTTLE_FEEDING := "bottlefeeding".
Definition JOURNAL_TYPES_BREAST_FEEDING := "breastfeeding".
Definition JOURNAL_TYPES_WEIGHT := "weight".
Definition JOURNAL_TYPES_HEIGHT := "height".
Definition JOURNAL_TYPES_HEAD := "head".
Definition DIAPER_TYPES := ["pee"; "poo"].
Definition FEEDING_TYPES := ["breastmilk"; "formula"].
Definition JOURNAL_TYPES_SOLID_FOOD := "solidfood".
Definition LAST_PUMPING_JOURNAL_URI := "/cs/me/v11/journals/last-pumping-journal".
Definition PUMPING_JOURNALS_TRACKING_URI := "/cs/me/v11/pumping-journals/tracking".

(** [SESSION_LAST_V10_URI.format(baby_id=baby_id)] *)
Definition SESSION_LAST_V10_URI (baby_id : string) : string :=
  ("/ss/me/v10/babies/" ++ baby_id ++ "/sessions/last")%string.

(** [SESSION_STATS_DAILY_URI.format(baby_id=baby_id)] *)
Definition SESSION_STATS_DAILY_URI (baby_id : string) : string :=
  ("/ss/v2/babies/" ++ baby_id ++ "/sessions/aggregated/daily")%string.

(** [SESSION_STATS_AVG_URI.format(baby_id=baby_id)] *)
Definition SESSION_STATS_AVG_URI (baby_id : string) : string :=
  ("/ss/v2/babies/" ++ baby_id ++ "/sessions/aggregated/avg")%string.

(** [SESSION_DAILY_V11_URI.format(baby_id=baby_id)] *)
Definition SESSION_DAILY_V11_URI (baby_id : string) : string :=
  ("/ss/me/v11/babies/" ++ baby_id ++ "/sessions/daily")%string.

(** [JOURNALS_GROUPED_TRACKING_URI.format(baby_id=baby_id)] *)
Definition JOURNALS_GROUPED_TRACKING_URI (baby_id : string) : string :=
  ("/cs/me/v11/babies/" ++ baby_id ++ "/journals/grouped-tracking")%string.

(** [LAST_JOURNALS_URI.format(baby_id=baby_id)] *)
Definition LAST_JOURNALS_URI (baby_id : string) : string :=
  ("/cs/me/v12/babies/" ++ baby_id ++ "/last-journals")%string.

(** ** Python datetimes *)

(** [datetime.min] and [datetime.max], in seconds from 1970-01-01. *)
Definition DATETIME_MIN : Z := -62135596800.
Definition DATETIME_MAX : Z := 253402300799.

(** The seconds that are a [datetime]. *)
Definition is_datetime (t : Z) : Prop := DATETIME_MIN <= t <= DATETIME_MAX.

(** [t + timedelta(seconds=n)] for an integer [n]: [timedelta] takes at
    most 999999999 days, and the sum has to be a [datetime]. *)
Definition py_add_seconds (t n : Z) : Res Z :=
  let days := n / 86400 in
  if (days <? - 2 ^ 31) || (2 ^ 31 - 1 <? days) then
    Raise (OverflowError "Python int too large to convert to C int")
  else if 999999999 <? Z.abs days then
    Raise (OverflowError ("days=" ++ string_of_Z days ++ "; must have magnitude <= 999999999"))
  else if (t + n <? DATETIME_MIN) || (DATETIME_MAX <? t + n) then
    Raise (OverflowError "date value out of range")
  else Ok (t + n).

(** ** Credential Manager and Request Gateway: [api.py] *)

Definition DEFAULT_DEVICE_UPDATE_INTERVAL : Z := 120.
Definition DEFAULT_TOKEN_REFRESH : Z := 1 * 60 * 60.

(** [_security_token]: bearer token, refresh token, expiry, last refresh. *)
Definition SecurityToken : Type := option string * Json * option Z * option Z.

Definition token_0 (t : SecurityToken) : option string := fst (fst (fst t)).
Definition token_1 (t : SecurityToken) : Json := snd (fst (fst t)).
Definition token_2 (t : SecurityToken) : option Z := snd (fst t).
Definition token_3 (t : SecurityToken) : option Z := snd t.

(** What the coroutine [_authenticate] has decided when it first suspends:
    the branch it took, with the values it read from [self] on the way to
    its network call. *)
Inductive AuthPath :=
| RefreshExchange (refresh_token : Json)
| FreshLogin (username password : option string).

(** An [asyncio.Task] running [_authenticate]: created and not yet started
    by the event loop, suspended on its network call, or done. *)
Inductive Task :=
| Scheduled
| Started (path : AuthPath)
| Finished (result : Res unit).

(** The attributes of [API] that [authenticate] and [request] read or
    write, with the environment.  [_lock] is not modelled: one coroutine at
    a time goes through [request]. *)
Record Gateway := {
  username : option string;              (* [__credentials["username"]] *)
  password : option string;              (* [__credentials["password"]] *)
  _authentication_task : option Task;
  _invalid_credentials : bool;
  _security_token : SecurityToken;
  world : World
}.

Definition set_username (u : option string) (g : Gateway) : Gateway :=
  {| username := u; password := password g;
     _authentication_task := _authentication_task g;
     _invalid_credentials := _invalid_credentials g;
     _security_token := _security_token g; world := world g |}.

Definition set_password (p : option string) (g : Gateway) : Gateway :=
  {| username := username g; password := p;
     _authentication_task := _authentication_task g;
     _invalid_credentials := _invalid_credentials g;
     _security_token := _security_token g; world := world g |}.

Definition set_authentication_task (t : option Task) (g : Gateway) : Gateway :=
  {| username := username g; password := password g;
     _authentication_task := t;
     _invalid_credentials := _invalid_credentials g;
     _security_token := _security_token g; world := world g |}.

Definition set_invalid_credentials (b : bool) (g : Gateway) : Gateway :=
  {| username := username g; password := password g;
     _authentication_task := _authentication_task g;
     _invalid_credentials := b;
     _security_token := _security_token g; world := world g |}.

Definition set_security_token (t : SecurityToken) (g : Gateway) : Gateway :=
  {| username := username g; password := password g;
     _authentication_task := _authentication_task g;
     _invalid_credentials := _invalid_credentials g;
     _security_token := t; world := world g |}.

Definition set_world (w : World) (g : Gateway) : Gateway :=
  {| username := username g; password := password g;
     _authentication_task := _authentication_task g;
     _invalid_credentials := _invalid_credentials g;
     _security_token := _security_token g; world := w |}.

(** A coroutine of the environment, run from the gateway. *)
Definition in_world {A} (m : M World A) : M Gateway A := zoom world set_world m.

Module Gate.
Import Transport.

(** [API.__init__] *)
Definition init (username password : option string) (w : World) : Gateway :=
  {| username := username; password := password;
     _authentication_task := None;
     _invalid_credentials := false;
     _security_token := (None, JNull, None, None);
     world := w |}.

(** [API.username], the setter *)
Definition username_setter (u : option string) : M Gateway unit :=
  modify (set_invalid_credentials false) ;;
  modify (set_username u).

(** [API.password], the setter *)
Definition password_setter (p : option string) : M Gateway unit :=
  modify (set_invalid_credentials false) ;;
  modify (set_password p).

(** A request with the defaults of [API.request]'s parameters. *)
Definition a_request (method url : string) : Request :=
  {| method := method; url := url; headers := None; params := None;
     data := None; json := None; allow_redirects := true |}.

Definition error_requesting (url : string) (err : Exn) : string :=
  match err with
  | ClientResponseError st message =>
      ("Error requesting data from " ++ url ++ ": " ++ string_of_Z st
       ++ " - " ++ message)%string
  | ClientError message =>
      ("Error requesting data from " ++ url ++ ": " ++ message)%string
  | _ => ""
  end.

(** [API.request] with [login_request=True]: the call goes straight to
    Transport, outside the lock and without a token. *)
Definition request_login (call_method : Request -> M World (ClientResponse * Json))
    (rq : Request) : M World (ClientResponse * Json) :=
  try_except (call_method rq)
    (fun err =>
       match err with
       | ClientResponseError _ _ => raise (RequestError (error_requesting (url rq) err))
       | ClientError _ => raise (RequestError (error_requesting (url rq) err))
       | _ => raise err
       end).

(** [json.loads(text)] *)
Definition json_loads (b : Body) : M World Json :=
  match decoded b with
  | Parsed j => ret j
  | Undecodable err => raise (JSONDecodeError err)
  end.

(** Is [sub] a substring of [s]? *)
Fixpoint substringb (sub s : string) : bool :=
  String.prefix sub s ||
  match s with
  | EmptyString => false
  | String _ s' => substringb sub s'
  end.

(** [k in v], for a string [k] *)
Definition py_contains (v : Json) (k : string) : Res bool :=
  match v with
  | JDict d => Ok (dict_mem d k)
  | JList l =>
      Ok (existsb (fun x => match x with JStr s => String.eqb s k | _ => false end) l)
  | JStr s => Ok (substringb k s)
  | _ => Raise (TypeError ("argument of type '" ++ py_type_name v ++ "' is not iterable"))
  end.

(** [v[k]], for a string [k] known to be in [v] when [v] is a dict *)
Definition py_getitem (v : Json) (k : string) : Res Json :=
  match v with
  | JDict d =>
      match dict_find d k with Some x => Ok x | None => Raise (KeyError (str_repr k)) end
  | JList _ => Raise (TypeError "list indices must be integers or slices, not str")
  | JStr _ => Raise (TypeError "string indices must be integers, not 'str'")
  | _ => Raise (TypeError ("'" ++ py_type_name v ++ "' object is not subscriptable"))
  end.

(** [v.get]: the dict behind [v], when it is one *)
Definition py_as_dict (v : Json) : Res Dict :=
  match v with
  | JDict d => Ok d
  | _ => Raise (AttributeError ("'" ++ py_type_name v ++ "' object has no attribute 'get'"))
  end.

(** [int(expires / 2)]: true division, then truncation towards zero.  Half
    an integer of magnitude up to 2^53 is a float, so the division is exact
    there; a larger integer is divided with rounding, and one beyond the
    floats raises. *)
Definition py_int_half (expires : Json) : Res Z :=
  match expires with
  | JInt n =>
      if Z.abs n <=? 2 ^ 53 then Ok (Z.quot n 2)
      else match Binary64.exact (Binary64.nearest n 2) with
           | Some q => Ok (Qtruncate q)
           | None => Raise (OverflowError "integer division result too large for a float")
           end
  | JBool _ => Ok 0
  | JFloat x => Binary64.py_int (Binary64.halve x)
  | _ => Raise (TypeError ("unsupported operand type(s) for /: '" ++ py_type_name expires
                           ++ "' and 'int'"))
  end.

(** [int(v)] *)
Definition py_int (v : Json) : Res Z :=
  match v with
  | JInt n => Ok n
  | JBool b => Ok (if b then 1 else 0)
  | JFloat x => Binary64.py_int x
  | JStr s =>
      match int_of_text s with
      | IntValue n => Ok n
      | TooManyDigits count =>
          Raise (ValueError
            ("Exceeds the limit (4300 digits) for integer string conversion: value has "
             ++ string_of_Z (Z.of_nat count)
             ++ " digits; use sys.set_int_max_str_digits() to increase the limit"))
      | NotAnInt =>
          Raise (ValueError ("invalid literal for int() with base 10: " ++ str_repr s))
      end
  | _ => Raise (TypeError
             ("int() argument must be a string, a bytes-like object or a real number, not '"
              ++ py_type_name v ++ "'"))
  end.

(** The [InitiateAuth] request of [_api_authenticate]. *)
Definition cognito_request (username password : option string) : Request :=
  {| method := "post"; url := COGNITO_ENDPOINT;
     headers := Some
       [("Content-Type", JStr "application/x-amz-json-1.1");
        ("X-Amz-Target", JStr "AWSCognitoIdentityProviderService.InitiateAuth");
        ("User-Agent", JStr "Happiest Baby/2.6.1 (com.happiestbaby.hbapp; build:114; iOS 18.5.0) Alamofire/5.9.1")];
     params := None; data := None;
     json := Some (JDict
       [("AuthParameters", JDict [("PASSWORD", opt_json password);
                                  ("USERNAME", opt_json username)]);
        ("AuthFlow", JStr "USER_PASSWORD_AUTH");
        ("ClientId", JStr COGNITO_CLIENT_ID)]);
     allow_redirects := true |}.

(** [API._api_authenticate], from the credentials it reads before its
    network call.  Returns [(token, refresh_token, expires_in)]. *)
Definition _api_authenticate (username password : option string)
    : M World (option string * Json * Json) :=
  try_except
    (resp <- exchange false (cognito_request username password) ;;
     if negb (resp_status resp =? 200) then
       raise (RequestError ("Cognito authentication failed: "
                            ++ string_of_Z (resp_status resp) ++ " - "
                            ++ text (resp_body resp))%string)
     else
       data <- json_loads (resp_body resp) ;;
       present <- lift (py_contains data "AuthenticationResult") ;;
       if negb present then
         raise (AuthenticationError "No AuthenticationResult in Cognito response")
       else
         auth_result <- lift (py_getitem data "AuthenticationResult") ;;
         auth_result <- lift (py_as_dict auth_result) ;;
         let id_token := dict_get auth_result "IdToken" in
         let refresh_token := dict_get auth_result "RefreshToken" in
         let expires_in := dict_get_default auth_result "ExpiresIn" (JInt DEFAULT_TOKEN_REFRESH) in
         let token_type := dict_get_default auth_result "TokenType" (JStr "Bearer") in
         if negb (truthy id_token) then
           raise (AuthenticationError "No ID token received from Cognito")
         else
           let token := (py_str token_type ++ " " ++ py_str id_token)%string in
           ret (Some token, refresh_token, expires_in))
    (fun err =>
       match err with
       | ClientResponseError st message =>
           raise (RequestError ("Error during Cognito authentication: "
                                ++ string_of_Z st ++ " - " ++ message)%string)
       | ClientError message =>
           raise (RequestError ("Network error during Cognito authentication: "
                                ++ message)%string)
       | _ => raise err
       end).

(** The request of [_refresh_token]. *)
Definition refresh_request (refresh_token : Json) : Request :=
  {| method := "post"; url := (BASE_ENDPOINT ++ REFRESH_URI)%string;
     headers := Some [("Accept", JStr "*/*");
                      ("Content-Type", JStr "application/json");
                      ("User-Agent", JStr "SNOO/2.4.0 (com.happiestbaby.snooapp;) Alamofire/5.3.0")];
     params := None;
     data := Some (JDict [("refresh_token", refresh_token)]);
     json := None;
     allow_redirects := true |}.

(** [API._refresh_token], from the refresh token it reads before its
    network call.  Returns [(token, refresh_token, expires)]. *)
Definition _refresh_token (refresh_token : Json) : M World (option string * Json * Z) :=
  '(resp, data) <- request_login request_json (refresh_request refresh_token) ;;
  data <- lift (py_as_dict data) ;;
  let token := (py_str (dict_get data "token_type") ++ " "
                ++ py_str (dict_get data "access_token"))%string in
  let refresh_token := dict_get data "refresh_token" in
  expires <- try_except
               (lift (py_int (dict_get_default data "expires_in" (JInt DEFAULT_TOKEN_REFRESH))))
               (fun err => match err with
                           | ValueError _ => ret (DEFAULT_TOKEN_REFRESH * 2)
                           | _ => raise err
                           end) ;;
  let expires := if expires <? DEFAULT_TOKEN_REFRESH * 2
                 then DEFAULT_TOKEN_REFRESH * 2 else expires in
  ret (Some token, refresh_token, expires).

(** [_authenticate] up to its first suspension: the test on the stored
    expiry picks the branch, and the branch reads what it sends. *)
Definition _authenticate_begin (g : Gateway) : AuthPath :=
  match token_2 (_security_token g) with
  | Some expiry =>
      if expiry <? now (world g)
      then RefreshExchange (token_1 (_security_token g))
      else FreshLogin (username g) (password g)
  | None => FreshLogin (username g) (password g)
  end.

(** [_authenticate] from its network call to its end.  After the refresh
    exchange the coroutine returns at once; after a fresh login it stores
    the new [_security_token]. *)
Definition _authenticate_resume (path : AuthPath) : M Gateway unit :=
  match path with
  | RefreshExchange refresh_token =>
      '(token, refresh_token, expires) <- in_world (_refresh_token refresh_token) ;;
      ret tt
  | FreshLogin username password =>
      '(token, refresh_token, expires) <- in_world (_api_authenticate username password) ;;
      match token with
      | None =>
          raise (AuthenticationError
            "Authentication response did not contain a security token yet one is expected.")
      | Some token =>
          half <- lift (py_int_half expires) ;;
          utc_now <- gets (fun g => now (world g)) ;;
          expiry <- lift (py_add_seconds utc_now half) ;;
          modify (fun g =>
            set_security_token
              (Some token, refresh_token,
               Some expiry,
               Some (now (world g) + utc_offset (world g))) g)
      end
  end.

(** [API._authenticate] *)
Definition _authenticate : M Gateway unit :=
  path <- gets _authenticate_begin ;;
  _authenticate_resume path.

(** Run the rest of the task's coroutine; the task keeps its outcome. *)
Definition task_finish (rest : M Gateway unit) : M Gateway unit :=
  fun g => let (r, g') := rest g in (r, set_authentication_task (Some (Finished r)) g').

(** [await self._authentication_task]: the task runs to its end if it has
    not yet, and its outcome is the outcome of the [await]. *)
Definition await_task : M Gateway unit :=
  task <- gets _authentication_task ;;
  match task with
  | None => raise (TypeError "object NoneType can't be used in 'await' expression")
  | Some Scheduled => task_finish _authenticate
  | Some (Started path) => task_finish (_authenticate_resume path)
  | Some (Finished r) => lift r
  end.

(** [API.authenticate].  Returns [self._authentication_task]. *)
Definition authenticate (wait : bool) : M Gateway (option Task) :=
  u <- gets username ;;
  p <- gets password ;;
  match u, p with
  | Some _, Some _ =>
      invalid <- gets _invalid_credentials ;;
      if invalid then
        raise (InvalidCredentialsError
          "Credentials are invalid, update username/password to re-try authentication.")
      else
        task <- gets _authentication_task ;;
        match task with
        | None => modify (set_authentication_task (Some Scheduled))
        | Some _ => ret tt
        end ;;
        (if wait then
           try_except await_task
             (fun err =>
                match err with
                | RequestError message | AuthenticationError message =>
                    modify (set_authentication_task None) ;;
                    raise (AuthenticationError message)
                | _ => raise err
                end) ;;
           modify (set_authentication_task None)
         else ret tt) ;;
        gets _authentication_task
  | _, _ =>
      raise (InvalidCredentialsError
        "No username/password, most likely due to previous failed authentication.")
  end.

(** The event loop, as the coroutine inside [request] meets it.  [request]
    suspends only in its calls to Transport and when it awaits the task.
    A task created since the last suspension starts when the caller next
    suspends ([task_start]); a started task whose own network call has
    completed by the time the caller resumes has run to its end
    ([task_poll]; [bg_done] says whether it has). *)
Definition task_start : M Gateway unit :=
  task <- gets _authentication_task ;;
  match task with
  | Some Scheduled =>
      path <- gets _authenticate_begin ;;
      modify (set_authentication_task (Some (Started path)))
  | _ => ret tt
  end.

Definition task_poll : M Gateway unit :=
  task <- gets _authentication_task ;;
  match task with
  | Some (Started path) =>
      done <- gets (fun g => bg_done (world g) (served (world g))) ;;
      if done
      then try_except (task_finish (_authenticate_resume path)) (fun _ => ret tt)
      else ret tt
  | _ => ret tt
  end.

(** [await call_method(...)] inside [request]. *)
Definition suspended {A} (call : M World A) : M Gateway A :=
  task_start ;;
  fun g => let (r, g1) := in_world call g in
           let (_, g2) := task_poll g1 in (r, g2).

(** The call's arguments, with its [headers] dict. *)
Definition with_headers (h : Dict) (rq : Request) : Request :=
  {| method := method rq; url := url rq; headers := Some h;
     params := params rq; data := data rq; json := json rq;
     allow_redirects := allow_redirects rq |}.

(** [if not headers: headers = {}] and
    [headers["Authorization"] = self._security_token[0]]: the arguments of
    both calls to Transport that [request] makes. *)
Definition authorized (token : option string) (rq : Request) : Request :=
  with_headers
    (dict_set (match headers rq with Some h => h | None => [] end)
              "Authorization" (opt_json token)) rq.

(** [self._security_token = (None, None, None, self._security_token[3])] *)
Definition clear_security_token : M Gateway unit :=
  modify (fun g => set_security_token
                     (None, JNull, None, token_3 (_security_token g)) g).

Definition reauthenticate_failed (err : Exn) : M Gateway unit :=
  match err with
  | AuthenticationError message =>
      raise (AuthenticationError
        ("Error trying to re-authenticate to snoo service: " ++ message)%string)
  | _ => raise err
  end.

(** [API.request] *)
Definition request (returns : string) (rq : Request) (login_request : bool)
    : M Gateway (ClientResponse * Json) :=
  match REQUEST_METHODS returns with
  | None => raise (RequestError ("Invalid return object requested: " ++ returns)%string)
  | Some call_method =>
    if login_request then in_world (request_login call_method rq)
    else
      (* the finished background task, if any, is collected *)
      task <- gets _authentication_task ;;
      match task with
      | None => ret tt
      | Some _ =>
          authentication_task <- authenticate false ;;
          match authentication_task with
          | Some (Finished result) =>
              modify (set_authentication_task None) ;;
              match result with
              | Ok _ => ret tt
              | Raise CancelledError => ret tt
              | Raise (RequestError _) | Raise (AuthenticationError _) => ret tt
              | Raise err => raise err
              end
          | _ => ret tt
          end
      end ;;
      (* does the token have to be refreshed? *)
      token <- gets _security_token ;;
      now <- gets (fun g => now (world g)) ;;
      (if match token_2 token with None => true | Some expiry => expiry <=? now end
       then
         match token_0 token with
         | None => try_except (authenticate true ;; ret tt) reauthenticate_failed
         | Some _ => authenticate false ;; ret tt
         end
       else ret tt) ;;
      token <- gets _security_token ;;
      let rq := authorized (token_0 token) rq in
      try_except
        (first <- try_except
                    (r <- suspended (call_method rq) ;; ret (Some r))
                    (fun err =>
                       match err with
                       | ClientResponseError st _ =>
                           if st =? 401 then
                             clear_security_token ;;
                             try_except (authenticate true ;; ret tt) reauthenticate_failed ;;
                             ret None
                           else raise err
                       | _ => raise err
                       end) ;;
         match first with
         | Some r => ret r
         | None =>
             (* re-authentication worked, the request is sent again *)
             suspended (call_method rq)
         end)
        (fun err =>
           match err with
           | ClientResponseError st _ =>
               if st =? 401 then
                 clear_security_token ;;
                 authenticate false ;;
                 raise (AuthenticationError (error_requesting (url rq) err))
               else raise (RequestError (error_requesting (url rq) err))
           | ClientError _ => raise (RequestError (error_requesting (url rq) err))
           | _ => raise err
           end)
  end.

End Gate.

(** ** Device Registry: [api.py] *)

(** Modelled from the spec: [SnooDevice] ([device.py] is not among the
    sources).  The spec's Device is keyed by its serial number and holds the
    vendor's device JSON, the baby and account it belongs to, its config
    blob, its last session blob and the timestamp of the refresh cycle that
    last touched it.  Its properties [name], [state] and [last_update] are
    read only to build a log line and are left out. *)
Record SnooDevice := {
  dev_account : Json;
  dev_baby : Json;
  device : Json;
  config : Json;
  session : Json;
  device_state_update : option Z
}.

Definition set_session (session_json : Json) (d : SnooDevice) : SnooDevice :=
  {| dev_account := dev_account d; dev_baby := dev_baby d; device := device d;
     config := config d; session := session_json;
     device_state_update := device_state_update d |}.

(** A hashable value that came out of JSON, as a key of a [dict]: two
    values are the same key when they are equal in Python.  A bool, an
    integer and a float are equal when their numbers are ([True == 1 ==
    1.0]), so a number is kept by its exact value; a string is equal to
    strings only.  [json.loads] gives the one object [nan] for every NaN, and
    an object is the same key as itself. *)
Inductive Key :=
| KNone
| KInt (n : Z)                        (* an integral number *)
| KRatio (num : Z) (den : positive)   (* another finite float, in lowest terms *)
| KInf (negative : bool)
| KNaN
| KStr (s : string).

Definition key_eqb (k k' : Key) : bool :=
  match k, k' with
  | KNone, KNone => true
  | KInt n, KInt n' => n =? n'
  | KRatio n d, KRatio n' d' => (n =? n') && (d =? d')%positive
  | KInf b, KInf b' => Bool.eqb b b'
  | KNaN, KNaN => true
  | KStr s, KStr s' => String.eqb s s'
  | _, _ => false
  end.

(** The key of a float. *)
Definition float_key (x : PrimFloat.float) : Key :=
  match Binary64.exact x with
  | Some q =>
      let r := Qred q in
      if (Qden r =? 1)%positive then KInt (Qnum r) else KRatio (Qnum r) (Qden r)
  | None => if PrimFloat.is_nan x then KNaN else KInf (PrimFloat.get_sign x)
  end.

(** [self.devices]: serial number to device, in insertion order. *)
Definition Devices := list (Key * SnooDevice).

Fixpoint devices_find (ds : Devices) (serial : Key) : option SnooDevice :=
  match ds with
  | [] => None
  | (k, d) :: ds' => if key_eqb serial k then Some d else devices_find ds' serial
  end.

(** [self.devices[serial] = d], or a mutation of the device stored there. *)
Fixpoint devices_set (ds : Devices) (serial : Key) (d : SnooDevice) : Devices :=
  match ds with
  | [] => [(serial, d)]
  | (k, d') :: ds' =>
      if key_eqb serial k then (k, d) :: ds' else (k, d') :: devices_set ds' serial d
  end.

Record API := {
  gateway : Gateway;
  account : Json;
  baby : Json;
  devices : Devices;
  last_state_update : option Z
}.

Definition set_gateway (g : Gateway) (a : API) : API :=
  {| gateway := g; account := account a; baby := baby a; devices := devices a;
     last_state_update := last_state_update a |}.

Definition set_account (j : Json) (a : API) : API :=
  {| gateway := gateway a; account := j; baby := baby a; devices := devices a;
     last_state_update := last_state_update a |}.

Definition set_baby (j : Json) (a : API) : API :=
  {| gateway := gateway a; account := account a; baby := j; devices := devices a;
     last_state_update := last_state_update a |}.

Definition set_devices (ds : Devices) (a : API) : API :=
  {| gateway := gateway a; account := account a; baby := baby a; devices := ds;
     last_state_update := last_state_update a |}.

Definition set_last_state_update (t : option Z) (a : API) : API :=
  {| gateway := gateway a; account := account a; baby := baby a;
     devices := devices a; last_state_update := t |}.

(** [await self.request(...)] from a method of [API]. *)
Definition in_gateway {A} (m : M Gateway A) : M API A := zoom gateway set_gateway m.

Definition utcnow : M API Z := gets (fun a => now (world (gateway a))).

(** A [datetime] is the number of seconds from 1970-01-01T00:00:00 to its
    wall-clock reading. *)
Definition datetime := Z.

(** The proleptic Gregorian date of a day number (days since 1970-01-01). *)
Definition civil_from_days (days : Z) : Z * Z * Z :=
  let z := days + 719468 in
  let era := z / 146097 in
  let doe := z - era * 146097 in
  let yoe := (doe - doe / 1460 + doe / 36524 - doe / 146096) / 365 in
  let doy := doe - (365 * yoe + yoe / 4 - yoe / 100) in
  let mp := (5 * doy + 2) / 153 in
  let d := doy - (153 * mp + 2) / 5 + 1 in
  let m := if mp <? 10 then mp + 3 else mp - 9 in
  let y := yoe + era * 400 in
  (if m <=? 2 then y + 1 else y, m, d).

(** Two decimal digits, zero-padded. *)
Definition two_digits (n : Z) : string :=
  ((if (n <? 10)%Z then "0" else "") ++ string_of_Z n)%string.

(** [t.strftime("%Y-%m-%dT%H:%M:%SZ")] *)
Definition strftime_seconds (t : datetime) : string :=
  let '(y, m, d) := civil_from_days (t / 86400) in
  let s := t mod 86400 in
  (string_of_Z y ++ "-" ++ two_digits m ++ "-" ++ two_digits d ++ "T"
   ++ two_digits (s / 3600)%Z ++ ":" ++ two_digits (s mod 3600 / 60)%Z ++ ":"
   ++ two_digits (s mod 60)%Z ++ "Z")%string.

(** [t.strftime("%Y-%m-%d %H:%M:%S.000")] *)
Definition strftime_space_millis (t : datetime) : string :=
  let '(y, m, d) := civil_from_days (t / 86400) in
  let s := t mod 86400 in
  (string_of_Z y ++ "-" ++ two_digits m ++ "-" ++ two_digits d ++ " "
   ++ two_digits (s / 3600)%Z ++ ":" ++ two_digits (s mod 3600 / 60)%Z ++ ":"
   ++ two_digits (s mod 60)%Z ++ ".000")%string.

(** Four decimal digits, zero-padded. *)
Definition four_digits (n : Z) : string :=
  ((if (n <? 1000)%Z then "0" else "") ++ (if (n <? 100)%Z then "0" else "")
   ++ (if (n <? 10)%Z then "0" else "") ++ string_of_Z n)%string.

(** [t.isoformat()], of a [datetime] of whole seconds without a time
    zone. *)
Definition isoformat (t : datetime) : string :=
  let '(y, m, d) := civil_from_days (t / 86400) in
  let s := t mod 86400 in
  (four_digits y ++ "-" ++ two_digits m ++ "-" ++ two_digits d ++ "T"
   ++ two_digits (s / 3600)%Z ++ ":" ++ two_digits (s mod 3600 / 60)%Z ++ ":"
   ++ two_digits (s mod 60)%Z)%string.

(** [s[:-3]] *)
Definition but_last_three (s : string) : string :=
  substring 0 (String.length s - 3) s.

(** [c.lower()] of a character with a code below 256. *)
Definition lower_char (c : ascii) : ascii :=
  let n := nat_of_ascii c in
  if ((65 <=? n) && (n <=? 90) || (192 <=? n) && (n <=? 222) && negb (n =? 215))%nat
  then ascii_of_nat (n + 32) else c.

(** [s.lower()] *)
Fixpoint py_lower (s : string) : string :=
  match s with
  | EmptyString => EmptyString
  | String c s' => String (lower_char c) (py_lower s')
  end.

Module Registry.
Import Gate.

(** [API.__init__] *)
Definition init (username password : option string) (w : World) : API :=
  {| gateway := Gate.init username password w;
     account := JNull; baby := JNull; devices := []; last_state_update := None |}.

(** [except Exception]: everything but [asyncio.CancelledError]. *)
Definition is_Exception (err : Exn) : bool :=
  match err with CancelledError => false | _ => true end.

(** [self.request(method="get", returns="json", url=...)], the body only. *)
Definition get_json (url : string) : M API Json :=
  '(_, resp) <- in_gateway (request "json" (a_request "get" url) false) ;;
  ret resp.

(** [self.account['givenName']], which the methods below evaluate for
    their first log line. *)
Definition account_givenName : M API Json :=
  account <- gets account ;;
  lift (match account with
        | JNull => Raise (TypeError "'NoneType' object is not subscriptable")
        | _ => py_getitem account "givenName"
        end).

(** [API.get_account] *)
Definition get_account : M API Json :=
  accounts_resp <- try_except (get_json (BASE_ENDPOINT ++ ACCOUNT_V10_URI)%string)
                     (fun e => if is_Exception e
                               then get_json (BASE_ENDPOINT ++ ACCOUNT_URI)%string
                               else raise e) ;;
  match accounts_resp with
  | JNull => ret JNull
  | _ =>
      d <- lift (py_as_dict accounts_resp) ;;
      match dict_get d "userId" with
      | JNull => ret JNull
      | _ => ret accounts_resp
      end
  end.

(** [API.get_babies_v10] *)
Definition get_babies_v10 : M API Json := get_json (BASE_ENDPOINT ++ BABIES_URI)%string.

(** [babies_resp[0]] once [babies_resp and len(babies_resp) > 0] holds. *)
Definition first_baby (babies_resp : Json) : Res Json :=
  match babies_resp with
  | JList (b :: _) => Ok b
  | JStr (String c _) => Ok (JStr (String c EmptyString))
  | JDict _ => Raise (KeyError "0")
  | _ => Raise (TypeError ("object of type '" ++ py_type_name babies_resp ++ "' has no len()"))
  end.

(** [API.get_baby_for_account] *)
Definition get_baby_for_account : M API Json :=
  account_givenName ;;
  try_except
    (babies_resp <- get_babies_v10 ;;
     if truthy babies_resp then lift (first_baby babies_resp) else ret JNull)
    (fun e => if is_Exception e
              then get_json (BASE_ENDPOINT ++ BABY_URI)%string
              else raise e).

(** [API.get_session_for_account] *)
Definition get_session_for_account : M API Json :=
  account_givenName ;;
  get_json (BASE_ENDPOINT ++ SESSION_URI)%string.

(** Modelled from the spec, whose Device has its serial number as
    identity: [device.device_id] is the serial number in the device's
    JSON. *)
Definition device_id (snoodevice : SnooDevice) : Res Json :=
  match py_as_dict (device snoodevice) with
  | Ok d => Ok (dict_get d "serialNumber")
  | Raise e => Raise e
  end.

(** [API.get_configs_for_device] *)
Definition get_configs_for_device (snoodevice : SnooDevice) : M API Json :=
  serial_number <- lift (device_id snoodevice) ;;
  get_json (BASE_ENDPOINT ++ DEVICE_CONFIGS_URI (py_str serial_number))%string.

(** A serial number as a key of [self.devices]: a list and a dict cannot
    be hashed. *)
Definition serial_key (serial_number : Json) : Res Key :=
  match serial_number with
  | JNull => Ok KNone
  | JBool b => Ok (KInt (if b then 1 else 0))
  | JInt n => Ok (KInt n)
  | JFloat x => Ok (float_key x)
  | JStr s => Ok (KStr s)
  | JList _ => Raise (TypeError "unhashable type: 'list'")
  | JDict _ => Raise (TypeError "unhashable type: 'dict'")
  end.

(** [API._add_new_device].  Returns the new device. *)
Definition _add_new_device (device_json : Json) : M API SnooDevice :=
  d <- lift (py_as_dict device_json) ;;
  let serial_number := dict_get d "serialNumber" in
  account <- gets account ;;
  baby <- gets baby ;;
  let snoodevice :=
    {| dev_account := account; dev_baby := baby; device := device_json;
       config := JNull; session := JNull; device_state_update := None |} in
  key <- lift (serial_key serial_number) ;;
  modify (fun a => set_devices (devices_set (devices a) key snoodevice) a) ;;
  ret snoodevice.

(** What [for x in v] goes through. *)
Definition py_iter (v : Json) : Res (list Json) :=
  match v with
  | JList l => Ok l
  | JDict d => Ok (map (fun kv => JStr (fst kv)) d)
  | JStr s => Ok (map (fun c => JStr (String c EmptyString)) (list_ascii_of_string s))
  | _ => Raise (TypeError ("'" ++ py_type_name v ++ "' object is not iterable"))
  end.

(** The body of the loop of [_get_device_details].  [snoodevice] is the
    object stored under the serial number: what is assigned to its
    attributes is assigned to the entry of [self.devices]. *)
Definition refresh_device (device_state_update_timestmp : Z) (device_json : Json)
    : M API unit :=
  d <- lift (py_as_dict device_json) ;;
  match dict_get d "serialNumber" with
  | JNull => ret tt
  | serial_number =>
      serial <- lift (serial_key serial_number) ;;
      known <- gets (fun a => devices_find (devices a) serial) ;;
      snoodevice <- match known with
                    | None => _add_new_device device_json
                    | Some snoodevice => ret snoodevice
                    end ;;
      config_json <- get_configs_for_device snoodevice ;;
      session_json <- get_session_for_account ;;
      modify (fun a =>
        match devices_find (devices a) serial with
        | None => a
        | Some snoodevice =>
            set_devices
              (devices_set (devices a) serial
                 {| dev_account := dev_account snoodevice;
                    dev_baby := dev_baby snoodevice;
                    device := device_json; config := config_json;
                    session := session_json;
                    device_state_update := Some device_state_update_timestmp |}) a
        end)
  end.

(** [API._get_device_details] *)
Definition _get_device_details : M API unit :=
  account_givenName ;;
  devices_resp <- try_except (get_json (BASE_ENDPOINT ++ DEVICES_V11_URI)%string)
                    (fun e => if is_Exception e
                              then get_json (BASE_ENDPOINT ++ DEVICES_URI)%string
                              else raise e) ;;
  device_state_update_timestmp <- utcnow ;;
  match devices_resp with
  | JNull => account_givenName ;; ret tt
  | _ =>
      items <- lift (py_iter devices_resp) ;;
      for_each items (refresh_device device_state_update_timestmp)
  end.

(** [device.session = await self.get_session_for_account()], for the
    device stored under the serial number of [kd]. *)
Definition attach_session (kd : Key * SnooDevice) : M API unit :=
  session_json <- get_session_for_account ;;
  modify (fun a =>
    match devices_find (devices a) (fst kd) with
    | None => a
    | Some device => set_devices (devices_set (devices a) (fst kd)
                                    (set_session session_json device)) a
    end).

(** The throttled branch of [update_device_info]:
    [for device_id, device in self.devices.items():
         device.session = await self.get_session_for_account()] *)
Definition refresh_sessions : M API unit :=
  ds <- gets devices ;;
  for_each ds attach_session.

(** [API.update_device_info].  [_update] is not modelled: one coroutine at
    a time refreshes.  [self.devices] is always a dict here, so the test
    [self.devices is None] after [_get_device_details] never holds. *)
Definition update_device_info : M API unit :=
  call_dt <- utcnow ;;
  last <- gets last_state_update ;;
  match last with
  | None => modify (set_last_state_update (Some (call_dt - DEFAULT_DEVICE_UPDATE_INTERVAL)))
  | Some _ => ret tt
  end ;;
  last <- gets last_state_update ;;
  let next_available_call_dt :=
    match last with
    | Some t => t + DEFAULT_DEVICE_UPDATE_INTERVAL
    | None => call_dt
    end in
  if call_dt <? next_available_call_dt then
    refresh_sessions
  else
    account <- gets account ;;
    match account with
    | JNull => acc <- get_account ;; modify (set_account acc)
    | _ => ret tt
    end ;;
    baby <- gets baby ;;
    match baby with
    | JNull => b <- get_baby_for_account ;; modify (set_baby b)
    | _ => ret tt
    end ;;
    _get_device_details ;;
    t <- utcnow ;;
    modify (set_last_state_update (Some t)).

(** [API.get_babies] *)
Definition get_babies : M API Json := get_babies_v10.

(** [API.get_account_v10] *)
Definition get_account_v10 : M API Json := get_json (BASE_ENDPOINT ++ ACCOUNT_V10_URI)%string.

(** [API.get_devices_v11] *)
Definition get_devices_v11 : M API Json := get_json (BASE_ENDPOINT ++ DEVICES_V11_URI)%string.

(** [API.get_session_last_v10] *)
Definition get_session_last_v10 (baby_id : string) : M API Json :=
  get_json (BASE_ENDPOINT ++ SESSION_LAST_V10_URI baby_id)%string.

(** [self.request(method="get", returns="json", url=..., params=...)], the
    body only. *)
Definition get_json_with (url : string) (params : Dict) : M API Json :=
  '(_, resp) <- in_gateway
                  (request "json"
                     {| method := "get"; url := url; headers := None;
                        params := Some params; data := None; json := None;
                        allow_redirects := true |} false) ;;
  ret resp.

(** [if self.account is None: ...] and [if self.baby is None: ...], as the
    two statistics methods have them. *)
Definition load_account_and_baby : M API unit :=
  account <- gets account ;;
  match account with
  | JNull => acc <- get_account ;; modify (set_account acc)
  | _ => ret tt
  end ;;
  baby <- gets baby ;;
  match baby with
  | JNull => b <- get_baby_for_account ;; modify (set_baby b)
  | _ => ret tt
  end.

(** [self.baby.get("_id")], as [str.format] writes it. *)
Definition baby_id_text : M API string :=
  baby <- gets baby ;;
  baby <- lift (py_as_dict baby) ;;
  ret (py_str (dict_get baby "_id")).

(** [API.get_session_stats_daily_for_account] *)
Definition get_session_stats_daily_for_account (startTime : datetime)
    (detailedLevels levels : Json) : M API Json :=
  account_givenName ;;
  load_account_and_baby ;;
  let params := [("detailedLevels", JStr (py_lower (py_str detailedLevels)));
                 ("levels", JStr (py_lower (py_str levels)));
                 ("startTime", JStr (but_last_three (isoformat startTime) ++ "Z"))] in
  baby_id <- baby_id_text ;;
  get_json_with (BASE_ENDPOINT ++ SESSION_STATS_DAILY_URI baby_id)%string params.

(** [API.get_session_stats_avg_for_account] *)
Definition get_session_stats_avg_for_account (startTime : datetime)
    (days : Json) (interval : Json) : M API Json :=
  account_givenName ;;
  load_account_and_baby ;;
  let params := [("days", JStr (py_lower (py_str days)));
                 ("interval", interval);
                 ("startTime", JStr (but_last_three (isoformat startTime) ++ "Z"))] in
  baby_id <- baby_id_text ;;
  get_json_with (BASE_ENDPOINT ++ SESSION_STATS_AVG_URI baby_id)%string params.

(** [API.get_session_daily_v11] *)
Definition get_session_daily_v11 (baby_id : string) (start_time : datetime)
    (timezone : string) (detailed_levels levels : Json) : M API Json :=
  let params := [("detailedLevels", JStr (py_lower (py_str detailed_levels)));
                 ("levels", JStr (py_lower (py_str levels)));
                 ("startTime", JStr (strftime_space_millis start_time));
                 ("timezone", JStr timezone)] in
  get_json_with (BASE_ENDPOINT ++ SESSION_DAILY_V11_URI baby_id)%string params.

(** [login]: a new client authenticates, waiting for the outcome, and then
    loads its devices; the client is returned.  The two handlers of [login]
    log and re-raise. *)
Definition login (username password : option string) : M World API :=
  fun w =>
    let api := init username password w in
    match (in_gateway (authenticate true) ;; update_device_info) api with
    | (Ok _, api') => (Ok api', world (gateway api'))
    | (Raise err, api') => (Raise err, world (gateway api'))
    end.

End Registry.

(** ** Journal Client: [journal.py] *)

Module Journal.
Import Gate Registry.
Import PrimFloat.

(** The conversion lines of [create_feeding_entry] (ounces and
    millilitres). *)
Definition oz_to_ml (amount_imperial : float) : float :=
  Binary64.py_round2 (amount_imperial * 29.5735)%float.
Definition ml_to_oz (amount_metric : float) : float :=
  Binary64.py_round2 (amount_metric / 29.5735)%float.

(** The conversion lines of [create_weight_entry] (ounces and grams). *)
Definition oz_to_g (weight_imperial : float) : float :=
  Binary64.py_round2 (weight_imperial * 28.3495)%float.
Definition g_to_oz (weight_metric : float) : float :=
  Binary64.py_round2 (weight_metric / 28.3495)%float.

(** The conversion lines of [create_height_entry] and [create_head_entry]
    (inches and centimetres). *)
Definition in_to_cm (imperial : float) : float := Binary64.py_round2 (imperial * 2.54)%float.
Definition cm_to_in (metric : float) : float := Binary64.py_round2 (metric / 2.54)%float.

(** "Convert between units if one is missing": the [if]/[elif] shared by
    the four [create_..._entry] methods. *)
Definition fill_missing_unit (to_metric to_imperial : float -> float)
    (imperial metric : option float) : option float * option float :=
  match imperial, metric with
  | Some i, None => (Some i, Some (to_metric i))
  | None, Some m => (Some (to_imperial m), Some m)
  | _, _ => (imperial, metric)
  end.

Definition opt_float (o : option float) : Json :=
  match o with Some x => JFloat x | None => JNull end.

(** [self.api.request(method=..., returns="json", url=..., params=...,
    json=...)], the body only. *)
Definition api_request (method url : string) (params : option Dict)
    (json : option Json) : M API Json :=
  '(_, response) <- in_gateway
      (request "json"
         {| method := method; url := url; headers := None; params := params;
            data := None; json := json; allow_redirects := true |} false) ;;
  ret response.

(** [JournalManager.get_journal_tracking] *)
Definition get_journal_tracking (baby_id : string) (from_datetime to_datetime : datetime)
    (journal_type : string) : M API Json :=
  let params := [("fromDateTime", JStr (strftime_seconds from_datetime));
                 ("toDateTime", JStr (strftime_seconds to_datetime));
                 ("journalType", JStr journal_type)] in
  api_request "get" (BASE_ENDPOINT ++ JOURNALS_TRACKING_URI baby_id)%string
    (Some params) None.

(** [JournalManager.get_diaper_tracking] *)
Definition get_diaper_tracking (baby_id : string) (from_datetime to_datetime : datetime)
    : M API Json :=
  get_journal_tracking baby_id from_datetime to_datetime JOURNAL_TYPES_DIAPER.

(** [str(e)] *)
Definition exn_str (e : Exn) : string :=
  match e with
  | RequestError m | AuthenticationError m | InvalidCredentialsError m
  | ClientError m | ValueError m | TypeError m | AttributeError m
  | OverflowError m => m
  | ClientResponseError st m => (string_of_Z st ++ ", message='" ++ m ++ "'")%string
  | JSONDecodeError err =>
      (dec_msg err ++ ": line " ++ string_of_Z (dec_lineno err) ++ " column "
       ++ string_of_Z (dec_colno err) ++ " (char " ++ string_of_Z (dec_pos err) ++ ")")%string
  | CancelledError => ""
  | KeyError k => k
  end.

(** [diaper_entries[0]] once [diaper_entries and len(diaper_entries) > 0] *)
Definition first_entry (diaper_entries : Json) : Res Json :=
  match diaper_entries with
  | JList (e :: _) => Ok e
  | JStr (String c _) => Ok (JStr (String c EmptyString))
  | JDict _ => Raise (KeyError "0")
  | _ => Raise (TypeError ("object of type '" ++ py_type_name diaper_entries ++ "' has no len()"))
  end.

(** [JournalManager._get_user_id] *)
Definition _get_user_id (baby_id : string) : M API Json :=
  try_except
    (end_date <- gets (fun a => now (world (gateway a)) + utc_offset (world (gateway a))) ;;
     let start_date := end_date - 7 * 86400 in
     diaper_entries <- get_diaper_tracking baby_id start_date end_date ;;
     found <- (if truthy diaper_entries then
                 entry <- lift (first_entry diaper_entries) ;;
                 entry <- lift (py_as_dict entry) ;;
                 ret (dict_get entry "userId")
               else ret JNull) ;;
     if truthy found then ret found
     else raise (ValueError "Could not auto-detect user ID. Please provide user_id parameter."))
    (fun e =>
       if is_Exception e then
         raise (ValueError ("Could not auto-detect user ID: " ++ exn_str e
                            ++ ". Please provide user_id parameter.")%string)
       else raise e).

(** [if not user_id: user_id = await self._get_user_id(baby_id)] *)
Definition user_id_or_detect (baby_id : string) (user_id : option string) : M API Json :=
  match user_id with
  | Some (String c s) => ret (JStr (String c s))
  | _ => _get_user_id baby_id
  end.

(** [if note: data["note"] = note] *)
Definition with_note (note : option string) (data : Dict) : Dict :=
  match note with
  | Some (String c s) => dict_set data "note" (JStr (String c s))
  | _ => data
  end.

(** The POST that ends every [create_..._entry]. *)
Definition post_journal (data : Dict) : M API Json :=
  api_request "post" (BASE_ENDPOINT ++ JOURNALS_CREATE_URI)%string None (Some (JDict data)).

Definition mem_string (s : string) (l : list string) : bool :=
  existsb (String.eqb s) l.

(** [JournalManager.create_diaper_entry] *)
Definition create_diaper_entry (baby_id : string) (start_time : datetime)
    (diaper_types : list string) (note user_id : option string) : M API Json :=
  match find (fun t => negb (mem_string t DIAPER_TYPES)) diaper_types with
  | Some diaper_type => raise (ValueError ("Invalid diaper type: " ++ diaper_type)%string)
  | None =>
      user_id <- user_id_or_detect baby_id user_id ;;
      let data := [("type", JStr JOURNAL_TYPES_DIAPER);
                   ("startTime", JStr (strftime_seconds start_time));
                   ("babyId", JStr baby_id);
                   ("userId", user_id);
                   ("data", JDict [("types", JList (map JStr diaper_types))])] in
      post_journal (with_note note data)
  end.

(** [JournalManager.create_feeding_entry] *)
Definition create_feeding_entry (baby_id : string) (start_time : datetime)
    (feeding_type : string) (amount_imperial amount_metric : option PrimFloat.float)
    (milk_type : string) (note user_id : option string) : M API Json :=
  if negb (mem_string feeding_type [JOURNAL_TYPES_BOTTLE_FEEDING; JOURNAL_TYPES_BREAST_FEEDING])
  then raise (ValueError ("Invalid feeding type: " ++ feeding_type)%string)
  else if negb (mem_string milk_type FEEDING_TYPES)
  then raise (ValueError ("Invalid milk type: " ++ milk_type)%string)
  else
    user_id <- user_id_or_detect baby_id user_id ;;
    let bottle := String.eqb feeding_type JOURNAL_TYPES_BOTTLE_FEEDING in
    match bottle, amount_imperial, amount_metric with
    | true, None, None =>
        raise (ValueError
          "Either amount_imperial or amount_metric must be provided for bottle feeding")
    | _, _, _ =>
        let '(amount_imperial, amount_metric) :=
          if bottle then fill_missing_unit oz_to_ml ml_to_oz amount_imperial amount_metric
          else (amount_imperial, amount_metric) in
        let amounts :=
          if bottle then
            match amount_imperial with
            | Some q => [("amountImperial", JFloat q)] | None => [] end
            ++ match amount_metric with
               | Some q => [("amountMetric", JFloat q)] | None => [] end
          else [] in
        let data := [("type", JStr feeding_type);
                     ("startTime", JStr (strftime_seconds start_time));
                     ("babyId", JStr baby_id);
                     ("userId", user_id);
                     ("data", JDict (("type", JStr milk_type) :: amounts))] in
        post_journal (with_note note data)
    end.

(** The common shape of [create_weight_entry], [create_height_entry] and
    [create_head_entry]: the journal type, the two keys of the payload, the
    two conversions and the text of the error. *)
Definition create_measure_entry (journal_type imperial_key metric_key : string)
    (to_metric to_imperial : float -> float) (missing : string)
    (baby_id : string) (start_time : datetime) (imperial metric : option float)
    (note user_id : option string) : M API Json :=
  match imperial, metric with
  | None, None => raise (ValueError missing)
  | _, _ =>
      user_id <- user_id_or_detect baby_id user_id ;;
      let '(imperial, metric) := fill_missing_unit to_metric to_imperial imperial metric in
      let data := [("type", JStr journal_type);
                   ("startTime", JStr (strftime_seconds start_time));
                   ("babyId", JStr baby_id);
                   ("userId", user_id);
                   ("data", JDict [(imperial_key, opt_float imperial);
                                   (metric_key, opt_float metric)])] in
      post_journal (with_note note data)
  end.

(** [JournalManager.create_weight_entry] *)
Definition create_weight_entry :=
  create_measure_entry JOURNAL_TYPES_WEIGHT "weightImperial" "weightMetric"
    oz_to_g g_to_oz "Either weight_imperial or weight_metric must be provided".

(** [JournalManager.create_height_entry] *)
Definition create_height_entry :=
  create_measure_entry JOURNAL_TYPES_HEIGHT "heightImperial" "heightMetric"
    in_to_cm cm_to_in "Either height_imperial or height_metric must be provided".

(** [JournalManager.create_head_entry] *)
Definition create_head_entry :=
  create_measure_entry JOURNAL_TYPES_HEAD "circumferenceImperial" "circumferenceMetric"
    in_to_cm cm_to_in
    "Either circumference_imperial or circumference_metric must be provided".

Definition required_fields := ["type"; "startTime"; "babyId"; "userId"; "data"].

(** [JournalManager.update_journal_entry] *)
Definition update_journal_entry (entry_id : string) (updates : Dict) : M API Json :=
  let is_complete := forallb (fun field => dict_mem updates field) required_fields in
  if is_complete then
    let payload := updates in
    api_request "put" (BASE_ENDPOINT ++ JOURNALS_CREATE_URI ++ "/" ++ entry_id)%string
      None (Some (JDict payload))
  else
    raise (ValueError
      "Partial updates not supported yet. Please provide a complete journal entry object with fields: type, startTime, babyId, userId, data, and optionally note").

(** [t.strftime("%Y-%m-%dT%H:%M:%S.000Z")] *)
Definition strftime_millis (t : datetime) : string :=
  let '(y, m, d) := civil_from_days (t / 86400) in
  let s := t mod 86400 in
  (string_of_Z y ++ "-" ++ two_digits m ++ "-" ++ two_digits d ++ "T"
   ++ two_digits (s / 3600)%Z ++ ":" ++ two_digits (s mod 3600 / 60)%Z ++ ":"
   ++ two_digits (s mod 60)%Z ++ ".000Z")%string.

(** [JournalManager.get_grouped_tracking] *)
Definition get_grouped_tracking (baby_id : string) (from_datetime to_datetime : datetime)
    (group : string) : M API Json :=
  let params := [("fromDateTime", JStr (strftime_millis from_datetime));
                 ("toDateTime", JStr (strftime_millis to_datetime));
                 ("group", JStr group)] in
  api_request "get" (BASE_ENDPOINT ++ JOURNALS_GROUPED_TRACKING_URI baby_id)%string
    (Some params) None.

(** [JournalManager.get_feeding_tracking] *)
Definition get_feeding_tracking (baby_id : string) (from_datetime to_datetime : datetime)
    (feeding_type : string) : M API Json :=
  if negb (mem_string feeding_type [JOURNAL_TYPES_BOTTLE_FEEDING; JOURNAL_TYPES_BREAST_FEEDING])
  then raise (ValueError ("Invalid feeding type: " ++ feeding_type)%string)
  else get_journal_tracking baby_id from_datetime to_datetime feeding_type.

(** [JournalManager.get_weight_tracking] *)
Definition get_weight_tracking (baby_id : string) (from_datetime to_datetime : datetime)
    : M API Json :=
  get_journal_tracking baby_id from_datetime to_datetime JOURNAL_TYPES_WEIGHT.

(** [JournalManager.get_height_tracking] *)
Definition get_height_tracking (baby_id : string) (from_datetime to_datetime : datetime)
    : M API Json :=
  get_journal_tracking baby_id from_datetime to_datetime JOURNAL_TYPES_HEIGHT.

(** [JournalManager.get_head_tracking] *)
Definition get_head_tracking (baby_id : string) (from_datetime to_datetime : datetime)
    : M API Json :=
  get_journal_tracking baby_id from_datetime to_datetime JOURNAL_TYPES_HEAD.

(** [JournalManager.get_solid_food_tracking] *)
Definition get_solid_food_tracking (baby_id : string) (from_datetime to_datetime : datetime)
    : M API Json :=
  get_journal_tracking baby_id from_datetime to_datetime JOURNAL_TYPES_SOLID_FOOD.

(** [JournalManager.get_pumping_tracking] *)
Definition get_pumping_tracking (baby_id : string) (from_datetime to_datetime : datetime)
    : M API Json :=
  let params := [("fromDateTime", JStr (strftime_millis from_datetime));
                 ("toDateTime", JStr (strftime_millis to_datetime))] in
  api_request "get" (BASE_ENDPOINT ++ PUMPING_JOURNALS_TRACKING_URI)%string
    (Some params) None.

(** [JournalManager.get_last_pumping_journal] *)
Definition get_last_pumping_journal : M API Json :=
  api_request "get" (BASE_ENDPOINT ++ LAST_PUMPING_JOURNAL_URI)%string None None.

(** [JournalManager.get_last_journals] *)
Definition get_last_journals (baby_id : string) : M API Json :=
  api_request "get" (BASE_ENDPOINT ++ LAST_JOURNALS_URI baby_id)%string None None.

(** [JournalManager.delete_journal_entry]: [response is not None] *)
Definition delete_journal_entry (entry_id : string) : M API bool :=
  response <- api_request "delete"
                (BASE_ENDPOINT ++ JOURNALS_CREATE_URI ++ "/" ++ entry_id)%string
                None None ;;
  ret (match response with JNull => false | _ => true end).

Definition opt_int (o : option Z) : Json :=
  match o with Some n => JInt n | None => JNull end.

(** [if duration: total_duration += duration] *)
Definition add_duration (duration : option Z) (total_duration : Z) : Z :=
  match duration with
  | Some n => if n =? 0 then total_duration else total_duration + n
  | None => total_duration
  end.

(** [if duration is not None: data["data"][side] = {"duration": duration}] *)
Definition with_side (side : string) (duration : option Z) (data : Dict) : Dict :=
  match duration with
  | Some n => dict_set data side (JDict [("duration", JInt n)])
  | None => data
  end.

(** [JournalManager.create_breast_feeding_entry] *)
Definition create_breast_feeding_entry (baby_id : string) (start_time end_time : datetime)
    (left_duration right_duration : option Z) (last_used_breast : string)
    (note user_id : option string) : M API Json :=
  if negb (mem_string last_used_breast ["left"; "right"])
  then raise (ValueError "last_used_breast must be 'left' or 'right'")
  else
    user_id <- user_id_or_detect baby_id user_id ;;
    let total_duration := add_duration right_duration (add_duration left_duration 0) in
    let inner := with_side "right" right_duration
                   (with_side "left" left_duration
                      [("lastUsedBreast", JStr last_used_breast);
                       ("totalDuration", JInt total_duration)]) in
    let data := [("type", JStr JOURNAL_TYPES_BREAST_FEEDING);
                 ("startTime", JStr (strftime_seconds start_time));
                 ("endTime", JStr (strftime_seconds end_time));
                 ("babyId", JStr baby_id);
                 ("userId", user_id);
                 ("data", JDict inner)] in
    post_journal (with_note note data).

End Journal.

(** * Properties *)

(** ** Transition invariants of coroutines

    [steps R m]: whatever [m] returns or raises, the state it leaves is
    related by [R] to the state it started from.  With a reflexive and
    transitive [R] the property goes through every combinator of [M]. *)

Section Steps.
Context {S : Type} (R : S -> S -> Prop).
Hypothesis R_refl : forall s, R s s.
Hypothesis R_trans : forall a b c, R a b -> R b c -> R a c.

Definition steps {A} (m : M S A) : Prop := forall s, R s (snd (m s)).

Lemma steps_ret {A} (a : A) : steps (ret a).
Proof. intros s. apply R_refl. Qed.

Lemma steps_raise {A} (e : Exn) : steps (@raise S A e).
Proof. intros s. apply R_refl. Qed.

Lemma steps_lift {A} (r : Res A) : steps (@lift S A r).
Proof. intros s. apply R_refl. Qed.

Lemma steps_gets {A} (f : S -> A) : steps (gets f).
Proof. intros s. apply R_refl. Qed.

Lemma steps_get : steps (@get S).
Proof. intros s. apply R_refl. Qed.

Lemma steps_modify (f : S -> S) : (forall s, R s (f s)) -> steps (modify f).
Proof. intros H s. apply H. Qed.

Lemma steps_bind {A B} (m : M S A) (k : A -> M S B) :
  steps m -> (forall a, steps (k a)) -> steps (bind m k).
Proof.
  intros Hm Hk s. unfold bind. specialize (Hm s).
  destruct (m s) as [[a|e] s']; cbn in *; [|exact Hm].
  eapply R_trans; [exact Hm|apply Hk].
Qed.

Lemma steps_try_except {A} (m : M S A) (h : Exn -> M S A) :
  steps m -> (forall e, steps (h e)) -> steps (try_except m h).
Proof.
  intros Hm Hh s. unfold try_except. specialize (Hm s).
  destruct (m s) as [[a|e] s']; cbn in *; [exact Hm|].
  eapply R_trans; [exact Hm|apply Hh].
Qed.

Lemma steps_for_each {A} (xs : list A) (body : A -> M S unit) :
  (forall x, steps (body x)) -> steps (for_each xs body).
Proof.
  intros Hb. induction xs as [|x xs IH]; cbn [for_each].
  - apply steps_ret.
  - apply steps_bind; [apply Hb|intros _; exact IH].
Qed.
End Steps.

(** A component's invariant, seen from the state that contains it. *)
Lemma steps_zoom {S T A} (RS : S -> S -> Prop) (RT : T -> T -> Prop)
    (proj : S -> T) (upd : T -> S -> S) (m : M T A) :
  (forall s t, RT (proj s) t -> RS s (upd t s)) ->
  steps RT m -> steps RS (zoom proj upd m).
Proof.
  intros Hup Hm s. unfold zoom. specialize (Hm (proj s)).
  destruct (m (proj s)) as [r t]. cbn in *. apply Hup, Hm.
Qed.

(** Goals [steps R m] are split along the structure of [m]; [known] closes
    the goals about coroutines that already have their lemma. *)
Ltac steps_with known :=
  repeat first
    [ known
    | lazymatch goal with
      | |- steps _ (ret _) => apply steps_ret; assumption
      | |- steps _ (raise _) => apply steps_raise; assumption
      | |- steps _ (lift _) => apply steps_lift; assumption
      | |- steps _ (gets _) => apply steps_gets; assumption
      | |- steps _ get => apply steps_get; assumption
      | |- steps _ (bind _ _) => apply steps_bind; [assumption| |intros ?]
      | |- steps _ (try_except _ _) => apply steps_try_except; [assumption| |intros ?]
      | |- steps _ (for_each _ _) => apply steps_for_each; [assumption|assumption|intros ?]
      | |- steps _ (match ?x with _ => _ end) => destruct x
      | |- steps _ (if ?b then _ else _) => destruct b
      | |- steps _ (let '(_, _) := ?x in _) => destruct x
      end ].

Ltac steps_split := steps_with fail.

(** *** Properties of Transport *)

Module TransportFacts.
Import Transport.

(** The log of [k] consecutive attempts, the first of them numbered
    [attempt] (counted from 0): before every attempt but the very first the
    loop sleeps [min(2^attempt, 5)] seconds. *)
Fixpoint attempts_log_from (rq : Request) (attempt k : nat) : list Event :=
  match k with
  | O => []
  | S k' =>
      (if Nat.eqb attempt 0 then [] else [Slept (Z.min (2 ^ Z.of_nat attempt) 5)])
        ++ Sent rq :: attempts_log_from rq (S attempt) k'
  end.

Definition attempts_log (rq : Request) (k : nat) : list Event :=
  attempts_log_from rq 0 k.

(** The seconds slept in a log. *)
Fixpoint waits (t : list Event) : list Z :=
  match t with
  | [] => []
  | Slept n :: t' => n :: waits t'
  | Sent _ :: t' => waits t'
  end.

(** The exception a failed attempt leaves in [resp_exc] when the loop goes
    on: any [ClientError] but a [ClientResponseError] of status 401. *)
Definition captured (o : Outcome) : option Exn :=
  match o with
  | Answered st reason _ =>
      if (400 <=? st) && negb (st =? 401)
      then Some (ClientResponseError st reason) else None
  | Failed msg => Some (ClientError msg)
  end.

(** What the loop has done when it stops after [k] attempts whose first
    reply is [net w first]: every attempt before the last failed and was
    captured; the last one decides the result, and it is a captured failure
    only when no attempt remains ([k = bound]). *)
Definition stops_after (w : World) (first bound k : nat) (r : Res ClientResponse) : Prop :=
  (forall i, (i < k - 1)%nat -> captured (outcome (net w (first + i))) <> None) /\
  match outcome (net w (first + (k - 1))) with
  | Answered st reason body =>
      if 400 <=? st then
        if st =? 401 then r = Raise (ClientResponseError st reason)
        else k = bound /\ r = Raise (ClientResponseError st reason)
      else r = Ok {| resp_status := st; resp_reason := reason; resp_body := body |}
  | Failed msg => k = bound /\ r = Raise (ClientError msg)
  end.

Lemma exchange_unfold raise_for_status rq w :
  exchange raise_for_status rq w =
  (match outcome (net w (served w)) with
   | Answered st reason body =>
       if raise_for_status && (400 <=? st)
       then Raise (ClientResponseError st reason)
       else Ok {| resp_status := st; resp_reason := reason; resp_body := body |}
   | Failed msg => Raise (ClientError msg)
   end,
   exchanged rq w).
Proof. reflexivity. Qed.

(** The state after the pause that precedes attempt number [attempt]. *)
Definition paused (attempt : nat) (w : World) : World :=
  if Nat.eqb attempt 0 then w
  else {| now := now w + Z.min (2 ^ Z.of_nat attempt) 5; utc_offset := utc_offset w;
          served := served w; net := net w; bg_done := bg_done w;
          trace := trace w ++ [Slept (Z.min (2 ^ Z.of_nat attempt) 5)] |}.

(** One turn of the loop. *)
Lemma loop_step remaining attempt exc rq w :
  _send_request_loop (S remaining) attempt exc rq w =
  let w2 := exchanged rq (paused attempt w) in
  match outcome (net w (served w)) with
  | Answered st reason body =>
      if 400 <=? st then
        if st =? 401 then (Raise (ClientResponseError st reason), w2)
        else _send_request_loop remaining (S attempt)
               (Some (ClientResponseError st reason)) rq w2
      else (Ok {| resp_status := st; resp_reason := reason; resp_body := body |}, w2)
  | Failed msg =>
      _send_request_loop remaining (S attempt) (Some (ClientError msg)) rq w2
  end.
Proof.
  cbn [_send_request_loop]. unfold paused, exchanged.
  destruct (Nat.eqb attempt 0);
    unfold bind, try_except, exchange, sleep, modify, ret, raise; cbn;
    (destruct (outcome (net w (served w))) as [st reason body|msg]; cbn;
     [destruct (400 <=? st); cbn; [destruct (st =? 401)|]; reflexivity
     |reflexivity]).
Qed.

Lemma exchanged_paused rq attempt w :
  net (exchanged rq (paused attempt w)) = net w /\
  served (exchanged rq (paused attempt w)) = S (served w) /\
  trace (exchanged rq (paused attempt w)) =
    trace w ++ (if Nat.eqb attempt 0 then []
                else [Slept (Z.min (2 ^ Z.of_nat attempt) 5)]) ++ [Sent rq].
Proof.
  unfold exchanged, paused.
  destruct (Nat.eqb attempt 0); cbn; rewrite <- ?app_assoc; auto.
Qed.

Lemma loop_spec remaining : forall attempt exc rq w r w',
  _send_request_loop remaining attempt exc rq w = (r, w') ->
  net w' = net w /\
  exists k, (k <= remaining)%nat /\
    trace w' = trace w ++ attempts_log_from rq attempt k /\
    served w' = (served w + k)%nat /\
    ((k = 0%nat /\ remaining = 0%nat /\
      r = Raise (match exc with Some e => e
                 | None => RequestError "All request attempts failed" end))
     \/ ((1 <= k)%nat /\ stops_after w (served w) remaining k r)).
Proof.
  induction remaining as [|remaining IH]; intros attempt exc rq w r w' H.
  - assert (w' = w /\ r = Raise (match exc with Some e => e
              | None => RequestError "All request attempts failed" end))
      as [-> ->] by (destruct exc; inversion H; auto).
    split; [reflexivity|]. exists 0%nat. cbn. rewrite app_nil_r, Nat.add_0_r.
    split; [lia|]. split; [reflexivity|]. split; [reflexivity|]. left. auto.
  - rewrite loop_step in H. cbv zeta in H.
    destruct (exchanged_paused rq attempt w) as (Hnet2 & Hsv2 & Htr2).
    set (w2 := exchanged rq (paused attempt w)) in *.
    (* the attempt ends the loop *)
    assert (Hstop : w' = w2 ->
      match outcome (net w (served w)) with
      | Answered st reason body =>
          if 400 <=? st
          then (st =? 401) = true /\ r = Raise (ClientResponseError st reason)
          else r = Ok {| resp_status := st; resp_reason := reason; resp_body := body |}
      | Failed _ => False
      end ->
      net w' = net w /\
      exists k, (k <= S remaining)%nat /\
        trace w' = trace w ++ attempts_log_from rq attempt k /\
        served w' = (served w + k)%nat /\
        ((k = 0%nat /\ S remaining = 0%nat /\
          r = Raise (match exc with Some e => e
                 | None => RequestError "All request attempts failed" end))
         \/ ((1 <= k)%nat /\ stops_after w (served w) (S remaining) k r))).
    { intros -> Hr. split; [exact Hnet2|]. exists 1%nat.
      split; [lia|]. split; [rewrite Htr2; reflexivity|].
      split; [lia|]. right. split; [lia|].
      split; [intros i Hi; lia|].
      cbn. rewrite Nat.add_0_r.
      destruct (outcome (net w (served w))) as [st reason body|msg]; [|contradiction].
      destruct (400 <=? st); [|exact Hr].
      destruct Hr as [-> ->]. reflexivity. }
    (* the failure is captured and the loop goes round again *)
    assert (Hgo : forall e,
      _send_request_loop remaining (S attempt) (Some e) rq w2 = (r, w') ->
      captured (outcome (net w (served w))) = Some e ->
      net w' = net w /\
      exists k, (k <= S remaining)%nat /\
        trace w' = trace w ++ attempts_log_from rq attempt k /\
        served w' = (served w + k)%nat /\
        ((k = 0%nat /\ S remaining = 0%nat /\
          r = Raise (match exc with Some e => e
                 | None => RequestError "All request attempts failed" end))
         \/ ((1 <= k)%nat /\ stops_after w (served w) (S remaining) k r))).
    { intros e Hloop He.
      destruct (IH _ _ _ _ _ _ Hloop) as (Hnet & k & Hk & Htr & Hsv & Hcase).
      split; [congruence|].
      exists (S k). split; [lia|]. split.
      { rewrite Htr, Htr2. cbn [attempts_log_from].
        rewrite <- !app_assoc. reflexivity. }
      split; [lia|].
      right. split; [lia|].
      destruct Hcase as [(-> & -> & ->)|(Hk1 & Hprev & Hlast)].
      - (* no attempt remained: the captured exception is raised *)
        split; [intros i Hi; cbn in Hi; lia|].
        cbn. rewrite Nat.add_0_r. unfold captured in He.
        destruct (outcome (net w (served w))) as [st reason body|msg].
        + destruct (400 <=? st); [|discriminate].
          destruct (st =? 401); [discriminate|].
          cbn in He. inversion He. auto.
        + inversion He. auto.
      - split.
        + intros i Hi. destruct i as [|i].
          * rewrite Nat.add_0_r, He. discriminate.
          * specialize (Hprev i ltac:(lia)). rewrite Hnet2, Hsv2 in Hprev.
            replace (served w + S i)%nat with (S (served w) + i)%nat by lia.
            exact Hprev.
        + rewrite Hnet2, Hsv2 in Hlast.
          replace (served w + (S k - 1))%nat with (S (served w) + (k - 1))%nat
            by lia.
          destruct (outcome (net w (S (served w) + (k - 1)))) as [st reason body|msg].
          * destruct (400 <=? st); [|exact Hlast].
            destruct (st =? 401); [exact Hlast|].
            destruct Hlast as [-> ->]. auto.
          * destruct Hlast as [-> ->]. auto. }
    destruct (outcome (net w (served w))) as [st reason body|msg] eqn:Hout.
    + destruct (400 <=? st) eqn:H4.
      * destruct (st =? 401) eqn:H401.
        -- inversion H; subst. apply Hstop; auto.
        -- apply (Hgo _ H). cbn [captured]. rewrite H4, H401. reflexivity.
      * inversion H; subst. apply Hstop; auto.
    + apply (Hgo _ H). reflexivity.
Qed.

(** A first attempt that is answered below 400 ends the send. *)
Lemma send_request_answered rq w st reason body :
  outcome (net w (served w)) = Answered st reason body -> st < 400 ->
  _send_request rq w =
    (Ok {| resp_status := st; resp_reason := reason; resp_body := body |},
     exchanged rq w).
Proof.
  intros H Hst. unfold _send_request, DEFAULT_REQUEST_RETRIES.
  rewrite loop_step. cbv zeta. rewrite H.
  destruct (Z.leb_spec 400 st); [lia|reflexivity].
Qed.

(** A first attempt that is answered 401 ends the send with the error. *)
Lemma send_request_unauthorized rq w reason body :
  outcome (net w (served w)) = Answered 401 reason body ->
  _send_request rq w = (Raise (ClientResponseError 401 reason), exchanged rq w).
Proof.
  intros H. unfold _send_request, DEFAULT_REQUEST_RETRIES.
  rewrite loop_step. cbv zeta. rewrite H. reflexivity.
Qed.

Lemma request_json_answered rq w st reason body_text j :
  outcome (net w (served w))
    = Answered st reason {| text := body_text; decoded := Parsed j |} ->
  st < 400 ->
  request_json rq w =
    (Ok ({| resp_status := st; resp_reason := reason;
            resp_body := {| text := body_text; decoded := Parsed j |} |}, j),
     exchanged rq w).
Proof.
  intros H Hst. unfold request_json, bind.
  rewrite (send_request_answered rq w _ _ _ H Hst). reflexivity.
Qed.

Lemma request_json_unauthorized rq w reason body :
  outcome (net w (served w)) = Answered 401 reason body ->
  request_json rq w = (Raise (ClientResponseError 401 reason), exchanged rq w).
Proof.
  intros H. unfold request_json, bind.
  rewrite (send_request_unauthorized rq w _ _ H). reflexivity.
Qed.

Lemma waits_app t1 t2 : waits (t1 ++ t2) = waits t1 ++ waits t2.
Proof.
  induction t1 as [|[rq|n] t1 IH]; cbn; [reflexivity|exact IH|now rewrite IH].
Qed.

Lemma waits_attempts_log rq k :
  (k <= DEFAULT_REQUEST_RETRIES)%nat ->
  waits (attempts_log rq k) = firstn (k - 1) [2; 4; 5; 5].
Proof.
  unfold DEFAULT_REQUEST_RETRIES. intros Hk.
  do 6 (destruct k as [|k]; [reflexivity|]). lia.
Qed.

(** A network on which every exchange fails to connect. *)
Definition unreachable : World :=
  {| now := 0; utc_offset := 0; served := 0;
     net := fun _ => {| elapsed := 0; outcome := Failed "Cannot connect to host" |};
     bg_done := fun _ => false; trace := [] |}.

Definition get_devices : Request :=
  {| method := "get"; url := "https://api-us-east-1-prod.happiestbaby.com/hds/me/v11/devices";
     headers := None; params := None; data := None; json := None;
     allow_redirects := true |}.

(** C4, as stated, fails: five attempts are separated by four waits.  When
    every attempt fails the waits are 2s, 4s, 5s, 5s, and not the five waits
    2s, 4s, 5s, 5s, 5s of the claim. *)
Lemma send_request_waits_four_times :
  waits (trace (snd (_send_request get_devices unreachable))) = [2; 4; 5; 5] /\
  waits (trace (snd (_send_request get_devices unreachable))) <> [2; 4; 5; 5; 5] /\
  served (snd (_send_request get_devices unreachable)) = 5%nat.
Proof.
  split; [reflexivity|]. split; [|reflexivity].
  cbv. discriminate.
Qed.

(** C4 (amended): every send makes between one and five attempts.  Each
    attempt but the last failed with a network error or an HTTP error other
    than 401 and was followed by a wait of [min(2^attempt, 5)] seconds
    (attempt counted from 1): the waits are a prefix of 2s, 4s, 5s, 5s.  The
    last attempt decides the result: its response is returned; a 401 is
    re-raised at once, whatever the attempt; any other failure is re-raised
    only when it is the fifth attempt's.  (With five attempts the generic
    "All request attempts failed" error is never raised.) *)
Theorem send_request_retry_policy (rq : Request) (w : World) :
  exists k,
    (1 <= k <= DEFAULT_REQUEST_RETRIES)%nat /\
    trace (snd (_send_request rq w)) = trace w ++ attempts_log rq k /\
    waits (attempts_log rq k) = firstn (k - 1) [2; 4; 5; 5] /\
    served (snd (_send_request rq w)) = (served w + k)%nat /\
    stops_after w (served w) DEFAULT_REQUEST_RETRIES k (fst (_send_request rq w)).
Proof.
  destruct (_send_request rq w) as [r w'] eqn:H. unfold _send_request in H.
  destruct (loop_spec _ _ _ _ _ _ _ H) as (_ & k & Hk & Htr & Hsv & Hcase).
  destruct Hcase as [(_ & Hz & _)|(Hk1 & Hstop)]; [discriminate Hz|].
  exists k. cbn [fst snd].
  split; [lia|]. split; [exact Htr|].
  split; [apply waits_attempts_log; exact Hk|]. auto.
Qed.

End TransportFacts.

(** ** Invariants of Transport, the gateway and the registry *)

Section TransportSteps.
Import Transport.
Variable Rw : World -> World -> Prop.
Hypothesis Rw_refl : forall w, Rw w w.
Hypothesis Rw_trans : forall a b c, Rw a b -> Rw b c -> Rw a c.
Hypothesis Rw_sleep : forall n w, 0 < n -> Rw w (snd (sleep n w)).
Variable rq : Request.
Hypothesis Rw_exchange : forall raise_for_status w,
  Rw w (snd (exchange raise_for_status rq w)).

Lemma steps_exchange raise_for_status : steps Rw (exchange raise_for_status rq).
Proof. intros w. apply Rw_exchange. Qed.

Lemma steps_send_request_loop remaining : forall attempt exc,
  steps Rw (_send_request_loop remaining attempt exc rq).
Proof.
  induction remaining as [|remaining IH]; intros attempt exc;
    cbn [_send_request_loop].
  - steps_split.
  - steps_with ltac:(first [apply steps_exchange | apply IH
                           | intros w; apply Rw_sleep;
                               pose proof (Z.pow_pos_nonneg 2 (Z.of_nat attempt));
                               lia]).
Qed.

Lemma steps_send_request : steps Rw (_send_request rq).
Proof. apply steps_send_request_loop. Qed.

Lemma steps_call_method returns call_method :
  REQUEST_METHODS returns = Some call_method -> steps Rw (call_method rq).
Proof.
  unfold REQUEST_METHODS. intros H.
  destruct (String.eqb returns "json");
    [|destruct (String.eqb returns "response"); [|discriminate]];
    inversion H; subst; unfold request_json, request_response, response_json;
    steps_with ltac:(apply steps_send_request).
Qed.

Lemma steps_request_login call_method :
  steps Rw (call_method rq) -> steps Rw (Gate.request_login call_method rq).
Proof. intros H. unfold Gate.request_login. steps_with ltac:(exact H). Qed.
End TransportSteps.

Section GateSteps.
Import Transport Gate.
Variable Rw : World -> World -> Prop.
Hypothesis Rw_refl : forall w, Rw w w.
Hypothesis Rw_trans : forall a b c, Rw a b -> Rw b c -> Rw a c.
Hypothesis Rw_sleep : forall n w, 0 < n -> Rw w (snd (sleep n w)).
(** The requests whose exchange [Rw] admits: at least those of the two
    authentication endpoints. *)
Variable allowed : Request -> Prop.
Hypothesis Rw_exchange : forall raise_for_status rq w,
  allowed rq -> Rw w (snd (exchange raise_for_status rq w)).
Hypothesis allowed_cognito : forall rq, url rq = COGNITO_ENDPOINT -> allowed rq.
Hypothesis allowed_refresh : forall rq,
  url rq = (BASE_ENDPOINT ++ REFRESH_URI)%string -> allowed rq.

Variable Rg : Gateway -> Gateway -> Prop.
Hypothesis Rg_refl : forall g, Rg g g.
Hypothesis Rg_trans : forall a b c, Rg a b -> Rg b c -> Rg a c.
Hypothesis Rg_task : forall t g, Rg g (set_authentication_task t g).
Hypothesis Rg_token : forall t g, Rg g (set_security_token t g).
Hypothesis Rg_world : forall g w, Rw (world g) w -> Rg g (set_world w g).

Lemma steps_in_world {A} (m : M World A) : steps Rw m -> steps Rg (in_world m).
Proof. apply steps_zoom. exact Rg_world. Qed.

Lemma steps_api_authenticate u p : steps Rw (_api_authenticate u p).
Proof.
  unfold _api_authenticate, json_loads.
  steps_with ltac:(intros w; apply Rw_exchange, allowed_cognito; reflexivity).
Qed.

Lemma steps_refresh_token rt : steps Rw (_refresh_token rt).
Proof.
  unfold _refresh_token.
  steps_with ltac:(
    solve [ apply steps_request_login; try assumption;
            apply (steps_call_method Rw Rw_refl Rw_trans Rw_sleep _)
              with (returns := "json"); [|reflexivity];
            intros rf w; apply Rw_exchange, allowed_refresh; reflexivity ]).
Qed.

Lemma steps_authenticate_resume path : steps Rg (_authenticate_resume path).
Proof.
  unfold _authenticate_resume.
  steps_with ltac:(first
    [ apply steps_in_world, steps_refresh_token
    | apply steps_in_world, steps_api_authenticate
    | apply steps_modify; intros g; apply Rg_token ]).
Qed.

Lemma steps_authenticate_coroutine : steps Rg _authenticate.
Proof. unfold _authenticate. steps_with ltac:(apply steps_authenticate_resume). Qed.

Lemma steps_task_finish rest : steps Rg rest -> steps Rg (task_finish rest).
Proof.
  intros H g. unfold task_finish. specialize (H g).
  destruct (rest g) as [r g']. cbn in *.
  eapply Rg_trans; [exact H|apply Rg_task].
Qed.

Lemma steps_await_task : steps Rg await_task.
Proof.
  unfold await_task.
  steps_with ltac:(first
    [ apply steps_task_finish, steps_authenticate_coroutine
    | apply steps_task_finish, steps_authenticate_resume ]).
Qed.

Lemma steps_authenticate wait : steps Rg (authenticate wait).
Proof.
  unfold authenticate.
  steps_with ltac:(first
    [ apply steps_modify; intros g; apply Rg_task
    | apply steps_await_task ]).
Qed.

Lemma steps_task_start : steps Rg task_start.
Proof.
  unfold task_start.
  steps_with ltac:(apply steps_modify; intros g; apply Rg_task).
Qed.

Lemma steps_task_poll : steps Rg task_poll.
Proof.
  unfold task_poll.
  steps_with ltac:(apply steps_task_finish, steps_authenticate_resume).
Qed.

Lemma steps_suspended {A} (call : M World A) :
  steps Rw call -> steps Rg (suspended call).
Proof.
  intros H. unfold suspended. apply steps_bind; try assumption.
  - apply steps_task_start.
  - intros _ g. pose proof (steps_in_world call H g) as H1.
    destruct (in_world call g) as [r g1]. cbn in H1.
    pose proof (steps_task_poll g1) as H2.
    destruct (task_poll g1) as [r2 g2]. cbn in *.
    eapply Rg_trans; eassumption.
Qed.

Lemma steps_clear_security_token : steps Rg clear_security_token.
Proof. apply steps_modify. intros g. apply Rg_token. Qed.

Lemma steps_request returns rq login_request :
  allowed rq -> (forall h, allowed (with_headers h rq)) ->
  steps Rg (request returns rq login_request).
Proof.
  intros Hrq Hh. unfold request.
  destruct (REQUEST_METHODS returns) as [call_method|] eqn:Hcm;
    [|apply steps_raise; assumption].
  assert (Hcall : forall rq', allowed rq' -> steps Rw (call_method rq')).
  { intros rq' Hrq'.
    apply (steps_call_method Rw Rw_refl Rw_trans Rw_sleep rq') with (returns := returns);
      [|exact Hcm].
    intros rf w. apply Rw_exchange, Hrq'. }
  destruct login_request.
  - apply steps_in_world, steps_request_login; auto.
  - unfold reauthenticate_failed.
    steps_with ltac:(first
      [ apply steps_authenticate
      | apply steps_clear_security_token
      | apply steps_modify; intros g; apply Rg_task
      | apply steps_suspended, Hcall; unfold authorized; apply Hh ]).
Qed.
End GateSteps.

Section RegistrySteps.
Import Transport Gate Registry Journal.
Variable Rw : World -> World -> Prop.
Hypothesis Rw_refl : forall w, Rw w w.
Hypothesis Rw_trans : forall a b c, Rw a b -> Rw b c -> Rw a c.
Hypothesis Rw_sleep : forall n w, 0 < n -> Rw w (snd (sleep n w)).
(** The URLs whose exchange [Rw] admits: at least the two authentication
    endpoints. *)
Variable good_url : string -> Prop.
Hypothesis Rw_exchange : forall raise_for_status rq w,
  good_url (url rq) -> Rw w (snd (exchange raise_for_status rq w)).
Hypothesis good_cognito : good_url COGNITO_ENDPOINT.
Hypothesis good_refresh : good_url (BASE_ENDPOINT ++ REFRESH_URI)%string.

Variable Rg : Gateway -> Gateway -> Prop.
Hypothesis Rg_refl : forall g, Rg g g.
Hypothesis Rg_trans : forall a b c, Rg a b -> Rg b c -> Rg a c.
Hypothesis Rg_task : forall t g, Rg g (set_authentication_task t g).
Hypothesis Rg_token : forall t g, Rg g (set_security_token t g).
Hypothesis Rg_world : forall g w, Rw (world g) w -> Rg g (set_world w g).

Variable Ra : API -> API -> Prop.
Hypothesis Ra_refl : forall a, Ra a a.
Hypothesis Ra_trans : forall a b c, Ra a b -> Ra b c -> Ra a c.
Hypothesis Ra_gateway : forall a g, Rg (gateway a) g -> Ra a (set_gateway g a).
Hypothesis Ra_devices : forall ds a, Ra a (set_devices ds a).

Lemma steps_in_gateway {A} (m : M Gateway A) : steps Rg m -> steps Ra (in_gateway m).
Proof. apply steps_zoom. exact Ra_gateway. Qed.

Lemma steps_gateway_request returns rq :
  good_url (url rq) -> steps Ra (in_gateway (request returns rq false)).
Proof.
  intros Hurl. apply steps_in_gateway.
  apply (steps_request Rw Rw_refl Rw_trans Rw_sleep
           (fun rq => good_url (url rq)) Rw_exchange);
    try assumption.
  - intros rq' ->. exact good_cognito.
  - intros rq' ->. exact good_refresh.
  - intros h. exact Hurl.
Qed.

Lemma steps_get_json url : good_url url -> steps Ra (get_json url).
Proof.
  intros Hurl. unfold get_json.
  steps_with ltac:(apply steps_gateway_request; exact Hurl).
Qed.

Lemma steps_account_givenName : steps Ra account_givenName.
Proof. unfold account_givenName. steps_split. Qed.

Lemma steps_get_session_for_account :
  good_url (BASE_ENDPOINT ++ SESSION_URI)%string -> steps Ra get_session_for_account.
Proof.
  intros Hurl. unfold get_session_for_account.
  steps_with ltac:(first [apply steps_account_givenName
                         | apply steps_get_json; exact Hurl]).
Qed.

Lemma steps_refresh_sessions :
  good_url (BASE_ENDPOINT ++ SESSION_URI)%string -> steps Ra refresh_sessions.
Proof.
  intros Hurl. unfold refresh_sessions, attach_session.
  steps_with ltac:(first
    [ apply steps_get_session_for_account; exact Hurl
    | apply steps_modify; intros ?;
      match goal with
      | |- Ra _ (match ?x with _ => _ end) =>
          destruct x; [apply Ra_devices|apply Ra_refl]
      end ]).
Qed.

(** From here on every URL is admitted and the registry's own attributes
    may change. *)
Hypothesis all_good : forall u, good_url u.
Hypothesis Ra_account : forall j a, Ra a (set_account j a).
Hypothesis Ra_baby : forall j a, Ra a (set_baby j a).
Hypothesis Ra_last : forall t a, Ra a (set_last_state_update t a).

Ltac registry_known :=
  idtac; lazymatch goal with
  | |- steps _ account_givenName => apply steps_account_givenName
  | |- steps _ (get_json _) => apply steps_get_json; apply all_good
  | |- steps _ get_session_for_account =>
      apply steps_get_session_for_account; apply all_good
  | |- steps _ refresh_sessions => apply steps_refresh_sessions; apply all_good
  | |- steps _ (in_gateway (request _ _ false)) =>
      apply steps_gateway_request; apply all_good
  | |- steps _ (modify _) =>
      apply steps_modify; intros ?; first
        [ apply Ra_account | apply Ra_baby | apply Ra_last | apply Ra_devices
        | match goal with
          | |- Ra _ (match ?x with _ => _ end) =>
              destruct x; first [apply Ra_devices | apply Ra_refl]
          end ]
  end.

Lemma steps_get_account : steps Ra get_account.
Proof. unfold get_account. steps_with registry_known. Qed.

Lemma steps_get_babies_v10 : steps Ra get_babies_v10.
Proof. unfold get_babies_v10. steps_with registry_known. Qed.

Lemma steps_get_baby_for_account : steps Ra get_baby_for_account.
Proof.
  unfold get_baby_for_account.
  steps_with ltac:(first [apply steps_get_babies_v10 | registry_known]).
Qed.

Lemma steps_get_configs_for_device serial : steps Ra (get_configs_for_device serial).
Proof. unfold get_configs_for_device. steps_with registry_known. Qed.

Lemma steps_add_new_device device_json : steps Ra (_add_new_device device_json).
Proof. unfold _add_new_device. steps_with registry_known. Qed.

Lemma steps_refresh_device ts device_json : steps Ra (refresh_device ts device_json).
Proof.
  unfold refresh_device.
  steps_with ltac:(first
    [ apply steps_add_new_device | apply steps_get_configs_for_device
    | registry_known ]).
Qed.

Lemma steps_get_device_details : steps Ra _get_device_details.
Proof.
  unfold _get_device_details, utcnow.
  steps_with ltac:(first [apply steps_refresh_device | registry_known]).
Qed.

Lemma steps_update_device_info : steps Ra update_device_info.
Proof.
  unfold update_device_info, utcnow.
  steps_with ltac:(first
    [ apply steps_get_account | apply steps_get_baby_for_account
    | apply steps_get_device_details | registry_known ]).
Qed.








End RegistrySteps.

(** ** The Credential Manager *)

Module GateFacts.
Import Transport Gate.

(** C9: when the stored username or password is absent, or the credentials
    are marked invalid, [authenticate] raises [InvalidCredentialsError] and
    leaves the whole state as it was: the task slot, the credential, and
    the environment, whose log and exchange counter show that no network
    call was made. *)
Theorem authenticate_without_credentials (wait : bool) (g : Gateway) :
  username g = None \/ password g = None \/ _invalid_credentials g = true ->
  exists message,
    authenticate wait g = (Raise (InvalidCredentialsError message), g).
Proof.
  intros H. unfold authenticate, bind, gets, raise.
  destruct (username g) as [u|] eqn:Hu.
  - destruct (password g) as [p|] eqn:Hp.
    + destruct H as [H|[H|H]]; try discriminate. rewrite H. eauto.
    + eauto.
  - eauto.
Qed.

(** A client constructed without a password. *)
Definition passwordless_client : Gateway :=
  init (Some "parent@example.com") None TransportFacts.unreachable.

Lemma authenticate_without_credentials_witness :
  exists message,
    authenticate true passwordless_client
      = (Raise (InvalidCredentialsError message), passwordless_client).
Proof.
  apply (authenticate_without_credentials true passwordless_client).
  right. left. reflexivity.
Defined.

(** The provider's answer to a password login: status 200 and a body with
    an [AuthenticationResult] that holds a non-empty [IdToken]. *)
Definition login_reply (seconds : nat) (token_type id_token refresh_token : string)
    (expires_in : Z) : Reply :=
  {| elapsed := seconds;
     outcome := Answered 200 "OK"
       {| text := "";
          decoded := Parsed (JDict
            [("AuthenticationResult",
              JDict [("IdToken", JStr id_token);
                     ("RefreshToken", JStr refresh_token);
                     ("ExpiresIn", JInt expires_in);
                     ("TokenType", JStr token_type)])]) |} |}.

(** What the provider declared, as [_api_authenticate] reads it. *)
Definition declared_token (ar : Dict) : string :=
  (py_str (dict_get_default ar "TokenType" (JStr "Bearer")) ++ " "
   ++ py_str (dict_get ar "IdToken"))%string.

(** A well-formed answer of the provider makes [_api_authenticate] return
    the token, the refresh token and the declared lifetime. *)
Lemma api_authenticate_ok u p w seconds reason body_text d ar :
  net w (served w) =
    {| elapsed := seconds;
       outcome := Answered 200 reason
                    {| text := body_text; decoded := Parsed (JDict d) |} |} ->
  dict_find d "AuthenticationResult" = Some (JDict ar) ->
  truthy (dict_get ar "IdToken") = true ->
  _api_authenticate u p w =
    (Ok (Some (declared_token ar), dict_get ar "RefreshToken",
         dict_get_default ar "ExpiresIn" (JInt DEFAULT_TOKEN_REFRESH)),
     exchanged (cognito_request u p) w).
Proof.
  intros Hnet Har Hid.
  unfold _api_authenticate, try_except, bind, exchange. rewrite Hnet.
  cbn -[dict_find dict_mem dict_get dict_get_default py_str truthy]. unfold dict_mem. rewrite !Har. cbn -[dict_find dict_mem dict_get dict_get_default py_str truthy].
  rewrite Hid. reflexivity.
Qed.

(** The fresh-login branch is taken when no expiry is stored or the stored
    expiry has not passed. *)
Definition takes_fresh_login (g : Gateway) : Prop :=
  match token_2 (_security_token g) with
  | None => True
  | Some expiry => now (world g) <= expiry
  end.

Lemma authenticate_begin_fresh g :
  takes_fresh_login g -> _authenticate_begin g = FreshLogin (username g) (password g).
Proof.
  unfold takes_fresh_login, _authenticate_begin.
  destruct (token_2 (_security_token g)) as [expiry|]; [|reflexivity].
  intros H. destruct (Z.ltb_spec expiry (now (world g))); [lia|reflexivity].
Qed.

Lemma py_int_half_exact n :
  Z.abs n <= 2 ^ 53 -> py_int_half (JInt n) = Ok (Z.quot n 2).
Proof.
  intros H. unfold py_int_half.
  destruct (Z.leb_spec (Z.abs n) (2 ^ 53)) as [_|Hbig]; [reflexivity|].
  exfalso. apply (Z.lt_irrefl (2 ^ 53)). eapply Z.lt_le_trans; eassumption.
Qed.

(** Between two datetimes [timedelta] and the sum are in range. *)
Lemma py_add_seconds_ok t n :
  is_datetime t -> is_datetime (t + n) -> py_add_seconds t n = Ok (t + n).
Proof.
  unfold py_add_seconds, is_datetime, DATETIME_MIN, DATETIME_MAX. intros Ht Hs.
  pose proof (Z.div_mod n 86400 ltac:(lia)) as Hdiv.
  pose proof (Z.mod_pos_bound n 86400 ltac:(lia)) as Hmod.
  assert (Hdays : -3652060 <= n / 86400 <= 3652060) by lia.
  cbv zeta.
  destruct (Z.ltb_spec (n / 86400) (- 2 ^ 31)) as [H1|_]; [lia|].
  destruct (Z.ltb_spec (2 ^ 31 - 1) (n / 86400)) as [H2|_]; [lia|].
  destruct (Z.ltb_spec 999999999 (Z.abs (n / 86400))) as [H3|_]; [lia|].
  destruct (Z.ltb_spec (t + n) (-62135596800)) as [H4|_]; [lia|].
  destruct (Z.ltb_spec 253402300799 (t + n)) as [H5|_]; [lia|].
  reflexivity.
Qed.

(** Past [datetime.max] the sum raises. *)
Lemma py_add_seconds_late t n :
  is_datetime t -> DATETIME_MAX < t + n ->
  exists message, py_add_seconds t n = Raise (OverflowError message).
Proof.
  unfold py_add_seconds. intros Ht Hs. cbv zeta.
  destruct ((n / 86400 <? - 2 ^ 31) || (2 ^ 31 - 1 <? n / 86400)); [eauto|].
  destruct (999999999 <? Z.abs (n / 86400)); [eauto|].
  destruct (Z.ltb_spec DATETIME_MAX (t + n)) as [_|H]; [|lia].
  rewrite orb_true_r. eauto.
Qed.

(** The run of a fresh login that the provider answers well, up to the
    addition of half the lifetime to the clock. *)
Lemma fresh_login_run g seconds reason body_text d ar expires_in :
  Z.abs expires_in <= 2 ^ 53 ->
  takes_fresh_login g ->
  net (world g) (served (world g)) =
    {| elapsed := seconds;
       outcome := Answered 200 reason
                    {| text := body_text; decoded := Parsed (JDict d) |} |} ->
  dict_find d "AuthenticationResult" = Some (JDict ar) ->
  truthy (dict_get ar "IdToken") = true ->
  dict_find ar "ExpiresIn" = Some (JInt expires_in) ->
  let done := now (world g) + Z.of_nat seconds in
  let g1 := set_world (exchanged (cognito_request (username g) (password g)) (world g)) g in
  _authenticate g =
    match py_add_seconds done (Z.quot expires_in 2) with
    | Ok expiry =>
        (Ok tt,
         set_security_token
           (Some (declared_token ar), dict_get ar "RefreshToken",
            Some expiry, Some (done + utc_offset (world g))) g1)
    | Raise e => (Raise e, g1)
    end.
Proof.
  intros Hsmall Hfresh Hnet Har Hid Hexp done g1.
  unfold _authenticate, bind, gets. rewrite (authenticate_begin_fresh g Hfresh).
  cbn [_authenticate_resume]. unfold bind, in_world, zoom.
  rewrite (api_authenticate_ok _ _ _ _ _ _ _ _ Hnet Har Hid).
  unfold dict_get_default. rewrite Hexp.
  unfold lift, gets. rewrite (py_int_half_exact _ Hsmall).
  assert (Hnow : now (world g1) = done).
  { subst g1 done. cbn. rewrite Hnet. reflexivity. }
  fold g1. rewrite Hnow.
  destruct (py_add_seconds done (Z.quot expires_in 2)) as [expiry|e]; [|reflexivity].
  unfold modify. rewrite Hnow. reflexivity.
Qed.

(** A fresh login that the provider answers well replaces the whole
    credential. *)
Lemma fresh_login_stores g seconds reason body_text d ar expires_in :
  Z.abs expires_in <= 2 ^ 53 ->
  takes_fresh_login g ->
  net (world g) (served (world g)) =
    {| elapsed := seconds;
       outcome := Answered 200 reason
                    {| text := body_text; decoded := Parsed (JDict d) |} |} ->
  dict_find d "AuthenticationResult" = Some (JDict ar) ->
  truthy (dict_get ar "IdToken") = true ->
  dict_find ar "ExpiresIn" = Some (JInt expires_in) ->
  let done := now (world g) + Z.of_nat seconds in
  let w' := exchanged (cognito_request (username g) (password g)) (world g) in
  is_datetime done -> is_datetime (done + Z.quot expires_in 2) ->
  _authenticate g =
    (Ok tt,
     set_security_token
       (Some (declared_token ar), dict_get ar "RefreshToken",
        Some (done + Z.quot expires_in 2), Some (done + utc_offset (world g)))
       (set_world w' g)).
Proof.
  intros Hsmall Hfresh Hnet Har Hid Hexp done w' Hdone Hsum.
  rewrite (fresh_login_run g _ _ _ _ _ _ Hsmall Hfresh Hnet Har Hid Hexp).
  fold done. rewrite (py_add_seconds_ok _ _ Hdone Hsum). reflexivity.
Qed.

(** C8: a fresh login that the provider answers well, completed at the
    time [done], stores as expiry [done] plus half the lifetime [ExpiresIn]
    the provider declared, in whole seconds ([int(expires / 2)] drops the
    half second of an odd lifetime), when that time is a [datetime]; when it
    is past [datetime.max] the addition raises [OverflowError], the login
    fails and the stored credential is the one before it.  The lifetime is a
    number of seconds up to 2^53, which the division by two halves
    exactly. *)
Theorem fresh_login_expiry_is_half_lifetime
    g seconds reason body_text d ar expires_in :
  takes_fresh_login g ->
  net (world g) (served (world g)) =
    {| elapsed := seconds;
       outcome := Answered 200 reason
                    {| text := body_text; decoded := Parsed (JDict d) |} |} ->
  dict_find d "AuthenticationResult" = Some (JDict ar) ->
  truthy (dict_get ar "IdToken") = true ->
  dict_find ar "ExpiresIn" = Some (JInt expires_in) ->
  0 <= expires_in <= 2 ^ 53 ->
  is_datetime (now (world g) + Z.of_nat seconds) ->
  let g' := snd (_authenticate g) in
  now (world g') = now (world g) + Z.of_nat seconds /\
  (is_datetime (now (world g') + Z.quot expires_in 2) ->
   fst (_authenticate g) = Ok tt /\
   exists expiry,
     token_2 (_security_token g') = Some expiry /\
     expiry = now (world g') + Z.quot expires_in 2 /\
     expires_in - 1 <= 2 * (expiry - now (world g')) <= expires_in) /\
  (DATETIME_MAX < now (world g') + Z.quot expires_in 2 ->
   (exists message, fst (_authenticate g) = Raise (OverflowError message)) /\
   _security_token g' = _security_token g).
Proof.
  intros Hfresh Hnet Har Hid Hexp Hpos Hdone g'. subst g'.
  assert (Hsmall : Z.abs expires_in <= 2 ^ 53)
    by (rewrite Z.abs_eq; [apply Hpos|apply Hpos]).
  rewrite (fresh_login_run g _ _ _ _ _ _ Hsmall Hfresh Hnet Har Hid Hexp).
  set (done := now (world g) + Z.of_nat seconds) in *.
  assert (Hnow : now (world (set_world (exchanged (cognito_request (username g) (password g))
                                          (world g)) g)) = done).
  { subst done. cbn. rewrite Hnet. reflexivity. }
  split; [|split].
  - destruct (py_add_seconds done (Z.quot expires_in 2)); exact Hnow.
  - intros Hsum.
    assert (Hsum' : is_datetime (done + Z.quot expires_in 2)).
    { destruct (py_add_seconds done (Z.quot expires_in 2)); cbn [snd] in Hsum;
        [change (now (world (set_security_token _ ?g0))) with (now (world g0)) in Hsum|];
        rewrite Hnow in Hsum; exact Hsum. }
    rewrite (py_add_seconds_ok _ _ Hdone Hsum'). cbn [fst snd].
    split; [reflexivity|]. eexists. split; [reflexivity|].
    change (now (world (set_security_token ?t ?g0))) with (now (world g0)).
    rewrite Hnow. split; [reflexivity|].
    rewrite Z.quot_div_nonneg by lia.
    pose proof (Z.div_mod expires_in 2 ltac:(lia)).
    pose proof (Z.mod_pos_bound expires_in 2 ltac:(lia)). lia.
  - intros Hlate.
    assert (Hlate' : DATETIME_MAX < done + Z.quot expires_in 2).
    { destruct (py_add_seconds done (Z.quot expires_in 2)); cbn [snd] in Hlate;
        [change (now (world (set_security_token _ ?g0))) with (now (world g0)) in Hlate|];
        rewrite Hnow in Hlate; exact Hlate. }
    destruct (py_add_seconds_late _ _ Hdone Hlate') as (message & Hraise).
    rewrite Hraise. cbn [fst snd]. split; [eauto|reflexivity].
Qed.

(** A client that has just been constructed, facing a provider that
    answers the login after one second with a three-hour token. *)
Definition fresh_client : Gateway :=
  init (Some "parent@example.com") (Some "secret")
    {| now := 1000; utc_offset := 0; served := 0;
       net := fun _ => login_reply 1 "Bearer" "id-1" "refresh-1" 10800;
       bg_done := fun _ => false; trace := [] |}.

Lemma fresh_login_expiry_witness :
  now (world (snd (_authenticate fresh_client))) = now (world fresh_client) + Z.of_nat 1 /\
  (is_datetime (now (world (snd (_authenticate fresh_client))) + Z.quot 10800 2) ->
   fst (_authenticate fresh_client) = Ok tt /\
   exists expiry,
     token_2 (_security_token (snd (_authenticate fresh_client))) = Some expiry /\
     expiry = now (world (snd (_authenticate fresh_client))) + Z.quot 10800 2 /\
     10800 - 1 <= 2 * (expiry - now (world (snd (_authenticate fresh_client)))) <= 10800) /\
  (DATETIME_MAX < now (world (snd (_authenticate fresh_client))) + Z.quot 10800 2 ->
   (exists message, fst (_authenticate fresh_client) = Raise (OverflowError message)) /\
   _security_token (snd (_authenticate fresh_client)) = _security_token fresh_client).
Proof.
  apply (fresh_login_expiry_is_half_lifetime fresh_client 1 "OK" ""
           [("AuthenticationResult",
             JDict [("IdToken", JStr "id-1"); ("RefreshToken", JStr "refresh-1");
                    ("ExpiresIn", JInt 10800); ("TokenType", JStr "Bearer")])]
           [("IdToken", JStr "id-1"); ("RefreshToken", JStr "refresh-1");
            ("ExpiresIn", JInt 10800); ("TokenType", JStr "Bearer")] 10800).
  - exact I.
  - reflexivity.
  - reflexivity.
  - reflexivity.
  - reflexivity.
  - cbn. lia.
  - unfold is_datetime, DATETIME_MIN, DATETIME_MAX. cbn. lia.
Defined.

(** A provider that declares a lifetime reaching past the year 9999. *)
Definition far_future_client : Gateway :=
  init (Some "parent@example.com") (Some "secret")
    {| now := 1000; utc_offset := 0; served := 0;
       net := fun _ => login_reply 1 "Bearer" "id-1" "refresh-1" 600000000000;
       bg_done := fun _ => false; trace := [] |}.

(** On [far_future_client] the login itself succeeds and [_authenticate]
    raises [OverflowError]; no credential is stored. *)
Example far_future_lifetime_overflows :
  fst (_authenticate far_future_client) = Raise (OverflowError "date value out of range") /\
  _security_token (snd (_authenticate far_future_client)) = (None, JNull, None, None).
Proof. split; vm_compute; reflexivity. Qed.

(** The refresh branch is taken when the stored expiry has passed. *)
Lemma authenticate_begin_refresh g expiry :
  token_2 (_security_token g) = Some expiry -> expiry < now (world g) ->
  _authenticate_begin g = RefreshExchange (token_1 (_security_token g)).
Proof.
  unfold _authenticate_begin. intros -> H.
  destruct (Z.ltb_spec expiry (now (world g))); [reflexivity|lia].
Qed.

(** The credential is untouched by everything the refresh branch does. *)
Lemma refresh_branch_keeps_token refresh_token g :
  _security_token (snd (_authenticate_resume (RefreshExchange refresh_token) g))
  = _security_token g.
Proof.
  cbn [_authenticate_resume]. unfold bind, in_world, zoom.
  destruct (_refresh_token refresh_token (world g)) as [[[[token rt] expires]|e] w'];
    reflexivity.
Qed.

(** C2 fails on the refresh branch.  When the stored expiry has passed,
    [_authenticate] exchanges the refresh token and returns at once: the
    stored credential is the one it started with, whatever the exchange
    returned. *)
Theorem refresh_exchange_is_discarded g expiry :
  token_2 (_security_token g) = Some expiry -> expiry < now (world g) ->
  _security_token (snd (_authenticate g)) = _security_token g.
Proof.
  intros Hexp Hlt. unfold _authenticate, bind, gets.
  rewrite (authenticate_begin_refresh g expiry Hexp Hlt).
  apply refresh_branch_keeps_token.
Qed.

(** The vendor's answer to a refresh exchange. *)
Definition refresh_reply (access_token refresh_token : string) (expires_in : Z) : Reply :=
  {| elapsed := 1;
     outcome := Answered 200 "OK"
       {| text := "";
          decoded := Parsed (JDict [("token_type", JStr "Bearer");
                                    ("access_token", JStr access_token);
                                    ("refresh_token", JStr refresh_token);
                                    ("expires_in", JInt expires_in)]) |} |}.

(** A client whose token expired at 500, at time 1000, facing a vendor
    that answers the refresh exchange with a new token. *)
Definition stale_client : Gateway :=
  {| username := Some "parent@example.com"; password := Some "secret";
     _authentication_task := None; _invalid_credentials := false;
     _security_token := (Some "Bearer old", JStr "refresh-0", Some 500, Some 0);
     world := {| now := 1000; utc_offset := 0; served := 0;
                 net := fun _ => refresh_reply "new" "refresh-1" 10800;
                 bg_done := fun _ => false; trace := [] |} |}.

Lemma refresh_exchange_is_discarded_witness :
  _security_token (snd (_authenticate stale_client)) = _security_token stale_client.
Proof.
  apply (refresh_exchange_is_discarded stale_client 500).
  - reflexivity.
  - cbn. lia.
Defined.

(** On [stale_client] the refresh exchange is made and succeeds, the
    authentication task ends without an error, and the stored token is
    still the expired one. *)
Example refresh_succeeds_and_nothing_is_stored :
  _refresh_token (JStr "refresh-0") (world stale_client)
    = (Ok (Some "Bearer new", JStr "refresh-1", 10800),
       exchanged (refresh_request (JStr "refresh-0")) (world stale_client)) /\
  fst (authenticate true stale_client) = Ok None /\
  trace (world (snd (authenticate true stale_client)))
    = [Sent (refresh_request (JStr "refresh-0"))] /\
  _security_token (snd (authenticate true stale_client))
    = (Some "Bearer old", JStr "refresh-0", Some 500, Some 0).
Proof. repeat split; vm_compute; reflexivity. Qed.

(** ** The Request Gateway *)

Import TransportFacts.

(** The 401 handler keeps only the time of the last refresh. *)
Lemma clear_security_token_spec g :
  clear_security_token g =
    (Ok tt, set_security_token (None, JNull, None, token_3 (_security_token g)) g).
Proof. reflexivity. Qed.

(** A blocking [authenticate] on a client without a token and without a
    task logs in afresh and leaves the new credential and an empty task
    slot. *)
Lemma authenticate_blocking_fresh g u p seconds reason body_text d ar expires_in :
  username g = Some u -> password g = Some p ->
  _invalid_credentials g = false ->
  _authentication_task g = None ->
  token_2 (_security_token g) = None ->
  net (world g) (served (world g)) =
    {| elapsed := seconds;
       outcome := Answered 200 reason
                    {| text := body_text; decoded := Parsed (JDict d) |} |} ->
  dict_find d "AuthenticationResult" = Some (JDict ar) ->
  truthy (dict_get ar "IdToken") = true ->
  dict_find ar "ExpiresIn" = Some (JInt expires_in) ->
  Z.abs expires_in <= 2 ^ 53 ->
  let done := now (world g) + Z.of_nat seconds in
  is_datetime done -> is_datetime (done + Z.quot expires_in 2) ->
  authenticate true g =
    (Ok None,
     set_security_token
       (Some (declared_token ar), dict_get ar "RefreshToken",
        Some (done + Z.quot expires_in 2), Some (done + utc_offset (world g)))
       (set_world (exchanged (cognito_request (Some u) (Some p)) (world g)) g)).
Proof.
  intros Hu Hp Hinv Htask Htok Hnet Har Hid Hexp Hsmall done Hdone Hsum.
  unfold authenticate, bind, gets. rewrite Hu, Hp, Hinv, Htask.
  unfold modify at 1. unfold try_except, await_task, bind, gets.
  cbn [_authentication_task set_authentication_task].
  unfold task_finish.
  rewrite (fresh_login_stores (set_authentication_task (Some Scheduled) g)
             seconds reason body_text d ar expires_in);
    [ | exact Hsmall | unfold takes_fresh_login; cbn; rewrite Htok; exact I
      | exact Hnet | exact Har | exact Hid | exact Hexp | exact Hdone | exact Hsum ].
  unfold modify, set_security_token, set_world, set_authentication_task.
  cbn. rewrite Hu, Hp, Htask. reflexivity.
Qed.

(** A call to Transport made while no authentication task exists is not
    disturbed by the event loop. *)
Lemma suspended_without_task {A} (call : M World A) g :
  _authentication_task g = None ->
  suspended call g = (fst (call (world g)), set_world (snd (call (world g))) g).
Proof.
  intros Htask. unfold suspended, task_start, task_poll, in_world, zoom, bind, gets.
  rewrite Htask. cbn. destruct (call (world g)) as [r w']. cbn.
  rewrite Htask. reflexivity.
Qed.

(** When the login that follows a first attempt is over: the two exchanges
    have advanced the clock. *)
Definition login_done (g : Gateway) (seconds : nat) : Z :=
  now (world g) + Z.of_nat (elapsed (net (world g) (served (world g)))) + Z.of_nat seconds.

(** The run of [request] when its first attempt is answered 401, the login
    that follows succeeds and the second attempt is answered. *)
Lemma request_after_401
    g rq u p old refresh expiry last reason0 body0
    seconds reason1 text1 d ar expires_in st reason2 text2 j :
  username g = Some u -> password g = Some p ->
  _invalid_credentials g = false ->
  _authentication_task g = None ->
  _security_token g = (Some old, refresh, Some expiry, last) ->
  now (world g) < expiry ->
  outcome (net (world g) (served (world g))) = Answered 401 reason0 body0 ->
  net (world g) (S (served (world g))) =
    {| elapsed := seconds;
       outcome := Answered 200 reason1
                    {| text := text1; decoded := Parsed (JDict d) |} |} ->
  dict_find d "AuthenticationResult" = Some (JDict ar) ->
  truthy (dict_get ar "IdToken") = true ->
  dict_find ar "ExpiresIn" = Some (JInt expires_in) ->
  Z.abs expires_in <= 2 ^ 53 ->
  outcome (net (world g) (S (S (served (world g)))))
    = Answered st reason2 {| text := text2; decoded := Parsed j |} ->
  st < 400 ->
  is_datetime (login_done g seconds) ->
  is_datetime (login_done g seconds + Z.quot expires_in 2) ->
  let w1 := exchanged (authorized (Some old) rq) (world g) in
  let w2 := exchanged (cognito_request (Some u) (Some p)) w1 in
  let w3 := exchanged (authorized (Some old) rq) w2 in
  request "json" rq false g =
    (Ok ({| resp_status := st; resp_reason := reason2;
            resp_body := {| text := text2; decoded := Parsed j |} |}, j),
     set_security_token
       (Some (declared_token ar), dict_get ar "RefreshToken",
        Some (now w2 + Z.quot expires_in 2), Some (now w2 + utc_offset w2))
       (set_world w3 g)).
Proof.
  intros Hu Hp Hinv Htask Htok Hnow H401 Hlogin Har Hid Hexp Hsmall Hok Hst Hdone Hsum
    w1 w2 w3.
  unfold request.
  change (REQUEST_METHODS "json") with (Some request_json). cbv iota beta.
  unfold bind at 1. unfold gets at 1. rewrite Htask.
  unfold bind at 1. unfold ret at 1.
  unfold bind at 1. unfold gets at 1. rewrite Htok.
  unfold bind at 1. unfold gets at 1.
  cbn [token_2 token_0 fst snd].
  destruct (Z.leb_spec expiry (now (world g))) as [Hle|_]; [lia|].
  unfold bind at 1. unfold ret at 1.
  unfold bind at 1. unfold gets at 1. rewrite Htok. cbn [token_0 fst snd].
  unfold try_except at 1. unfold bind at 1. unfold try_except at 1.
  unfold bind at 1.
  rewrite (suspended_without_task _ g Htask).
  rewrite (request_json_unauthorized _ _ _ _ H401). cbn [fst snd].
  change (401 =? 401) with true. cbv iota.
  unfold bind at 1. rewrite clear_security_token_spec.
  unfold bind at 1. unfold try_except at 1. unfold bind at 1.
  fold w1.
  rewrite (authenticate_blocking_fresh
             (set_security_token (None, JNull, None, token_3 (_security_token (set_world w1 g)))
                (set_world w1 g))
             u p seconds reason1 text1 d ar expires_in);
    [ | exact Hu | exact Hp | exact Hinv | exact Htask | reflexivity
      | exact Hlogin | exact Har | exact Hid | exact Hexp | exact Hsmall
      | exact Hdone | exact Hsum ].
  unfold ret at 1. cbv iota beta. unfold ret at 1. cbv iota beta.
  match goal with
  | |- context [suspended _ ?s] => set (g4 := s)
  end.
  assert (Htask4 : _authentication_task g4 = None) by exact Htask.
  assert (Hw4 : world g4 = w2) by reflexivity.
  rewrite (suspended_without_task _ g4 Htask4), Hw4.
  rewrite (request_json_answered _ w2 st reason2 text2 j Hok Hst).
  cbn [fst snd]. fold w3. f_equal.
  subst g4. unfold set_security_token, set_world. cbn.
  rewrite Hlogin. reflexivity.
Qed.

(** C1, as the code has it.  When the first attempt of a request is
    answered 401, the login that follows succeeds and the second attempt is
    answered, the caller gets the second answer, the stored credential is
    the new one and the request was sent exactly twice; but both attempts
    carry the [Authorization] header built before the first one, that is,
    the token the server has just rejected, and not the new one.  (The
    login ends at a time that is a [datetime], and so is the expiry it
    stores.) *)
Theorem retry_after_401_resends_rejected_token
    g rq u p old refresh expiry last reason0 body0
    seconds reason1 text1 d ar expires_in st reason2 text2 j :
  username g = Some u -> password g = Some p ->
  _invalid_credentials g = false ->
  _authentication_task g = None ->
  _security_token g = (Some old, refresh, Some expiry, last) ->
  now (world g) < expiry ->
  outcome (net (world g) (served (world g))) = Answered 401 reason0 body0 ->
  net (world g) (S (served (world g))) =
    {| elapsed := seconds;
       outcome := Answered 200 reason1
                    {| text := text1; decoded := Parsed (JDict d) |} |} ->
  dict_find d "AuthenticationResult" = Some (JDict ar) ->
  truthy (dict_get ar "IdToken") = true ->
  dict_find ar "ExpiresIn" = Some (JInt expires_in) ->
  Z.abs expires_in <= 2 ^ 53 ->
  outcome (net (world g) (S (S (served (world g)))))
    = Answered st reason2 {| text := text2; decoded := Parsed j |} ->
  st < 400 ->
  is_datetime (login_done g seconds) ->
  is_datetime (login_done g seconds + Z.quot expires_in 2) ->
  fst (request "json" rq false g)
    = Ok ({| resp_status := st; resp_reason := reason2;
             resp_body := {| text := text2; decoded := Parsed j |} |}, j) /\
  token_0 (_security_token (snd (request "json" rq false g)))
    = Some (declared_token ar) /\
  _authentication_task (snd (request "json" rq false g)) = None /\
  trace (world (snd (request "json" rq false g))) =
    trace (world g) ++ [Sent (authorized (Some old) rq);
                        Sent (cognito_request (Some u) (Some p));
                        Sent (authorized (Some old) rq)].
Proof.
  intros Hu Hp Hinv Htask Htok Hnow H401 Hlogin Har Hid Hexp Hsmall Hok Hst Hdone Hsum.
  rewrite (request_after_401 g rq u p old refresh expiry last reason0 body0
             seconds reason1 text1 d ar expires_in st reason2 text2 j)
    by assumption.
  cbn [fst snd]. split; [reflexivity|]. split; [reflexivity|].
  split; [exact Htask|].
  cbn. rewrite <- !app_assoc. reflexivity.
Qed.

(** A client whose token is good until 5000 by its own clock (it is 1000)
    but has been revoked by the server: the first exchange is answered 401,
    the login that follows returns the token "new", and the next exchange
    is answered. *)
Definition revoked_client : Gateway :=
  {| username := Some "parent@example.com"; password := Some "secret";
     _authentication_task := None; _invalid_credentials := false;
     _security_token := (Some "Bearer old", JStr "refresh-0", Some 5000, Some 0);
     world :=
       {| now := 1000; utc_offset := 0; served := 0;
          net := fun n =>
            match n with
            | O => {| elapsed := 1;
                      outcome := Answered 401 "Unauthorized"
                                   {| text := ""; decoded := Parsed JNull |} |}
            | S O => login_reply 1 "Bearer" "new" "refresh-1" 10800
            | _ => {| elapsed := 1;
                      outcome := Answered 200 "OK"
                        {| text := "";
                           decoded := Parsed (JDict [("userId", JStr "u1")]) |} |}
            end;
          bg_done := fun _ => false; trace := [] |} |}.

Definition get_account_request : Request :=
  a_request "get" (BASE_ENDPOINT ++ ACCOUNT_V10_URI)%string.

Lemma retry_after_401_witness :
  fst (request "json" get_account_request false revoked_client)
    = Ok ({| resp_status := 200; resp_reason := "OK";
             resp_body := {| text := "";
                             decoded := Parsed (JDict [("userId", JStr "u1")]) |} |},
          JDict [("userId", JStr "u1")]) /\
  token_0 (_security_token (snd (request "json" get_account_request false revoked_client)))
    = Some (declared_token [("IdToken", JStr "new"); ("RefreshToken", JStr "refresh-1");
                            ("ExpiresIn", JInt 10800); ("TokenType", JStr "Bearer")]) /\
  _authentication_task (snd (request "json" get_account_request false revoked_client))
    = None /\
  trace (world (snd (request "json" get_account_request false revoked_client))) =
    trace (world revoked_client)
    ++ [Sent (authorized (Some "Bearer old") get_account_request);
        Sent (cognito_request (Some "parent@example.com") (Some "secret"));
        Sent (authorized (Some "Bearer old") get_account_request)].
Proof.
  apply (retry_after_401_resends_rejected_token revoked_client get_account_request
           "parent@example.com" "secret" "Bearer old" (JStr "refresh-0") 5000 (Some 0)
           "Unauthorized" {| text := ""; decoded := Parsed JNull |}
           1 "OK" ""
           [("AuthenticationResult",
             JDict [("IdToken", JStr "new"); ("RefreshToken", JStr "refresh-1");
                    ("ExpiresIn", JInt 10800); ("TokenType", JStr "Bearer")])]
           [("IdToken", JStr "new"); ("RefreshToken", JStr "refresh-1");
            ("ExpiresIn", JInt 10800); ("TokenType", JStr "Bearer")]
           10800 200 "OK" "" (JDict [("userId", JStr "u1")])).
  - reflexivity.
  - reflexivity.
  - reflexivity.
  - reflexivity.
  - reflexivity.
  - cbn. lia.
  - reflexivity.
  - reflexivity.
  - reflexivity.
  - reflexivity.
  - reflexivity.
  - cbn. lia.
  - reflexivity.
  - lia.
  - unfold is_datetime, DATETIME_MIN, DATETIME_MAX. cbn. lia.
  - unfold is_datetime, DATETIME_MIN, DATETIME_MAX. cbn. lia.
Defined.

(** The [Authorization] header of each request in a log. *)
Definition authorization (ev : Event) : option Json :=
  match ev with
  | Sent rq =>
      match headers rq with
      | Some h => dict_find h "Authorization"
      | None => None
      end
  | Slept _ => None
  end.

(** On [revoked_client] the stored credential ends as "Bearer new" while
    the retried request is sent with "Bearer old" (the login request in
    between carries no [Authorization] header). *)
Example retry_carries_the_old_bearer_token :
  token_0 (_security_token (snd (request "json" get_account_request false revoked_client)))
    = Some "Bearer new" /\
  map authorization
    (trace (world (snd (request "json" get_account_request false revoked_client))))
    = [Some (JStr "Bearer old"); None; Some (JStr "Bearer old")].
Proof. split; vm_compute; reflexivity. Qed.

End GateFacts.

(** ** The invalid-credentials flag *)

Module FlagFacts.
Import Transport Gate Registry Journal.

(** What a program holding the client can do with it between two of its
    own suspensions.  The methods of [API] and [JournalManager] that are
    not listed ([get_devices_v11], [get_last_journals], ...) only call
    [request].  [EventLoop] is the event loop running the authentication
    task while the program waits elsewhere, and [Environment] is the
    network and the clock changing. *)
Inductive Operation :=
| SetUsername (username : option string)
| SetPassword (password : option string)
| Authenticate (wait : bool)
| AuthenticateCoroutine
| Request (returns : string) (rq : Request) (login_request : bool)
| GetAccount
| GetBabyForAccount
| GetSessionForAccount
| GetConfigsForDevice (snoodevice : SnooDevice)
| GetDeviceDetails
| UpdateDeviceInfo
| CreateDiaperEntry (baby_id : string) (start_time : datetime)
    (diaper_types : list string) (note user_id : option string)
| CreateFeedingEntry (baby_id : string) (start_time : datetime)
    (feeding_type : string) (amount_imperial amount_metric : option PrimFloat.float)
    (milk_type : string) (note user_id : option string)
| CreateWeightEntry (baby_id : string) (start_time : datetime)
    (imperial metric : option PrimFloat.float) (note user_id : option string)
| CreateHeightEntry (baby_id : string) (start_time : datetime)
    (imperial metric : option PrimFloat.float) (note user_id : option string)
| CreateHeadEntry (baby_id : string) (start_time : datetime)
    (imperial metric : option PrimFloat.float) (note user_id : option string)
| UpdateJournalEntry (entry_id : string) (updates : Dict)
| EventLoop
| Environment (w : World).

(** The state an operation leaves, whatever it returns or raises. *)
Definition after {A} (m : M API A) (a : API) : API := snd (m a).

Definition run (op : Operation) : API -> API :=
  match op with
  | SetUsername u => after (in_gateway (username_setter u))
  | SetPassword p => after (in_gateway (password_setter p))
  | Authenticate wait => after (in_gateway (authenticate wait))
  | AuthenticateCoroutine => after (in_gateway _authenticate)
  | Request returns rq login_request =>
      after (in_gateway (request returns rq login_request))
  | GetAccount => after get_account
  | GetBabyForAccount => after get_baby_for_account
  | GetSessionForAccount => after get_session_for_account
  | GetConfigsForDevice snoodevice => after (get_configs_for_device snoodevice)
  | GetDeviceDetails => after _get_device_details
  | UpdateDeviceInfo => after update_device_info
  | CreateDiaperEntry baby_id start_time diaper_types note user_id =>
      after (create_diaper_entry baby_id start_time diaper_types note user_id)
  | CreateFeedingEntry baby_id start_time feeding_type imperial metric milk_type
      note user_id =>
      after (create_feeding_entry baby_id start_time feeding_type imperial metric
               milk_type note user_id)
  | CreateWeightEntry baby_id start_time imperial metric note user_id =>
      after (create_weight_entry baby_id start_time imperial metric note user_id)
  | CreateHeightEntry baby_id start_time imperial metric note user_id =>
      after (create_height_entry baby_id start_time imperial metric note user_id)
  | CreateHeadEntry baby_id start_time imperial metric note user_id =>
      after (create_head_entry baby_id start_time imperial metric note user_id)
  | UpdateJournalEntry entry_id updates =>
      after (update_journal_entry entry_id updates)
  | EventLoop => after (in_gateway (task_start ;; task_poll))
  | Environment w => fun a => set_gateway (set_world w (gateway a)) a
  end.


















End FlagFacts.

(** ** What a call sends *)

(** [emits allowed w w']: from [w] to [w'] the log has only grown, and
    every request sent in between is one of the [allowed] ones. *)
Definition emits (allowed : Request -> Prop) (w w' : World) : Prop :=
  exists evs,
    trace w' = trace w ++ evs /\
    Forall (fun ev => match ev with Sent rq => allowed rq | Slept _ => True end) evs.

Lemma emits_refl allowed w : emits allowed w w.
Proof. exists []. rewrite app_nil_r. auto. Qed.

Lemma emits_trans allowed a b c :
  emits allowed a b -> emits allowed b c -> emits allowed a c.
Proof.
  intros (e1 & H1 & F1) (e2 & H2 & F2). exists (e1 ++ e2).
  rewrite H2, H1, app_assoc. split; [reflexivity|].
  apply Forall_app. auto.
Qed.

Lemma emits_sleep allowed n w : 0 < n -> emits allowed w (snd (sleep n w)).
Proof. intros _. exists [Slept n]. cbn. auto. Qed.

Lemma emits_exchange allowed raise_for_status rq w :
  allowed rq -> emits allowed w (snd (exchange raise_for_status rq w)).
Proof. intros H. exists [Sent rq]. cbn. auto. Qed.

(** The two authentication endpoints. *)
Definition authentication_url (u : string) : Prop :=
  u = COGNITO_ENDPOINT \/ u = (BASE_ENDPOINT ++ REFRESH_URI)%string.

(** [request] sends the caller's request, with an [Authorization] header,
    and authentication exchanges, and nothing else. *)
Lemma request_emits returns rq login_request g :
  emits (fun rq' => authentication_url (url rq') \/
                    rq' = rq \/ exists h, rq' = Gate.with_headers h rq)
        (world g) (world (snd (Gate.request returns rq login_request g))).
Proof.
  set (allowed := fun rq' => authentication_url (url rq') \/
                             rq' = rq \/ exists h, rq' = Gate.with_headers h rq).
  apply (steps_request (emits allowed) (emits_refl allowed) (emits_trans allowed)
           (emits_sleep allowed) allowed
           (fun rf rq' w => emits_exchange allowed rf rq' w)
           ltac:(intros rq' H; left; left; exact H)
           ltac:(intros rq' H; left; right; exact H)
           (fun g g' => emits allowed (world g) (world g'))
           (fun g => emits_refl allowed (world g))
           (fun a b c => emits_trans allowed (world a) (world b) (world c))
           ltac:(intros t g0; apply emits_refl)
           ltac:(intros t g0; apply emits_refl)
           ltac:(intros g0 w H; exact H)
           returns rq login_request).
  - right. left. reflexivity.
  - intros h. right. right. exists h. reflexivity.
Qed.

Module JournalFacts.
Import Transport Gate Registry Journal.

(** The [PUT] of [update_journal_entry]. *)
Definition put_entry (entry_id : string) (payload : Dict) : Request :=
  {| method := "put";
     url := (BASE_ENDPOINT ++ JOURNALS_CREATE_URI ++ "/" ++ entry_id)%string;
     headers := None; params := None; data := None;
     json := Some (JDict payload); allow_redirects := true |}.

(** C6: a payload that lacks one of [type], [startTime], [babyId],
    [userId], [data] makes [update_journal_entry] raise [ValueError] with
    the client exactly as it was, so before any network request; a payload
    that has all five is handed to the gateway as the JSON body of the
    [PUT], and every request the call then sends is an authentication
    exchange or that [PUT], its body the payload unchanged. *)
Theorem update_journal_entry_needs_a_complete_record
    (entry_id : string) (updates : Dict) (a : API) :
  (dict_mem updates "type" = false \/ dict_mem updates "startTime" = false \/
   dict_mem updates "babyId" = false \/ dict_mem updates "userId" = false \/
   dict_mem updates "data" = false ->
   exists message,
     update_journal_entry entry_id updates a = (Raise (ValueError message), a)) /\
  (dict_mem updates "type" = true /\ dict_mem updates "startTime" = true /\
   dict_mem updates "babyId" = true /\ dict_mem updates "userId" = true /\
   dict_mem updates "data" = true ->
   update_journal_entry entry_id updates a =
     ('(_, response) <- in_gateway (request "json" (put_entry entry_id updates) false) ;;
      ret response) a /\
   emits (fun rq => authentication_url (url rq) \/
                    (method rq = "put" /\ url rq = url (put_entry entry_id updates) /\
                     json rq = Some (JDict updates)))
         (world (gateway a))
         (world (gateway (snd (update_journal_entry entry_id updates a))))).
Proof.
  split.
  - intros H. unfold update_journal_entry, required_fields. cbn [forallb].
    eexists.
    destruct (dict_mem updates "type"), (dict_mem updates "startTime"),
      (dict_mem updates "babyId"), (dict_mem updates "userId"),
      (dict_mem updates "data"); cbn [andb];
      try reflexivity; destruct H as [H|[H|[H|[H|H]]]]; discriminate H.
  - intros (H1 & H2 & H3 & H4 & H5).
    assert (Heq : update_journal_entry entry_id updates a =
              ('(_, response) <- in_gateway
                  (request "json" (put_entry entry_id updates) false) ;;
               ret response) a).
    { unfold update_journal_entry, required_fields. cbn [forallb].
      rewrite H1, H2, H3, H4, H5. reflexivity. }
    split; [exact Heq|].
    rewrite Heq. unfold bind, in_gateway, zoom.
    pose proof (request_emits "json" (put_entry entry_id updates) false (gateway a)) as He.
    destruct (request "json" (put_entry entry_id updates) false (gateway a))
      as [[[resp response]|e] g']; cbn in *;
      (destruct He as (evs & Htr & Hall); exists evs; split; [exact Htr|];
       eapply Forall_impl; [|exact Hall];
       intros [rq|n]; [|auto];
       intros [Hauth|[->|[h ->]]]; [left; exact Hauth|right; auto|right; auto]).
Qed.

End JournalFacts.

(** ** What a successful request returns *)

(** Equations [m s = (r, s')] are taken apart along the structure of [m]. *)
Lemma bind_inv {S A B} (m : M S A) (k : A -> M S B) s r s' :
  bind m k s = (r, s') ->
  (exists a s1, m s = (Ok a, s1) /\ k a s1 = (r, s')) \/
  (exists e, m s = (Raise e, s') /\ r = Raise e).
Proof.
  unfold bind. destruct (m s) as [[a|e] s1]; intros H.
  - left. eauto.
  - right. inversion H; subst. eauto.
Qed.

Lemma bind_ok_inv {S A B} (m : M S A) (k : A -> M S B) s b s' :
  bind m k s = (Ok b, s') ->
  exists a s1, m s = (Ok a, s1) /\ k a s1 = (Ok b, s').
Proof.
  intros H. destruct (bind_inv _ _ _ _ _ H) as [?|(e & _ & He)];
    [assumption|discriminate He].
Qed.

Lemma try_except_inv {S A} (m : M S A) (h : Exn -> M S A) s r s' :
  try_except m h s = (r, s') ->
  (exists a, m s = (Ok a, s') /\ r = Ok a) \/
  (exists e s1, m s = (Raise e, s1) /\ h e s1 = (r, s')).
Proof.
  unfold try_except. destruct (m s) as [[a|e] s1]; intros H.
  - left. inversion H; subst. eauto.
  - right. eauto.
Qed.

(** The requests of a log, in the order they were sent. *)
Fixpoint sent_requests (evs : list Event) : list Request :=
  match evs with
  | [] => []
  | Sent rq :: evs' => rq :: sent_requests evs'
  | Slept _ :: evs' => sent_requests evs'
  end.

Lemma sent_requests_app a b :
  sent_requests (a ++ b) = sent_requests a ++ sent_requests b.
Proof.
  induction a as [|[rq|n] a IH]; cbn; [reflexivity| |exact IH].
  rewrite IH. reflexivity.
Qed.

(** The environment only moves forward: replies are fixed, the clock does
    not go back, the log grows, and every request logged is one exchange
    counted. *)
Definition grows (w w' : World) : Prop :=
  net w' = net w /\ (served w <= served w')%nat /\ now w <= now w' /\
  exists evs, trace w' = trace w ++ evs /\
              served w' = (served w + List.length (sent_requests evs))%nat.

Lemma grows_refl w : grows w w.
Proof.
  unfold grows. split; [reflexivity|]. split; [lia|]. split; [lia|].
  exists []. rewrite app_nil_r. cbn. split; [reflexivity|lia].
Qed.

Lemma grows_trans a b c : grows a b -> grows b c -> grows a c.
Proof.
  intros (N1 & S1 & T1 & e1 & L1 & C1) (N2 & S2 & T2 & e2 & L2 & C2).
  unfold grows. split; [congruence|]. split; [lia|]. split; [lia|].
  exists (e1 ++ e2). rewrite L2, L1, app_assoc. split; [reflexivity|].
  rewrite sent_requests_app, length_app. lia.
Qed.

Lemma grows_sleep n w : 0 < n -> grows w (snd (sleep n w)).
Proof.
  intros H. unfold grows. cbn.
  split; [reflexivity|]. split; [lia|]. split; [lia|].
  eexists. split; [reflexivity|]. cbn. lia.
Qed.

Lemma grows_exchange raise_for_status rq w :
  grows w (snd (exchange raise_for_status rq w)).
Proof.
  unfold grows. cbn.
  split; [reflexivity|]. split; [lia|]. split; [lia|].
  eexists. split; [reflexivity|]. cbn. lia.
Qed.

(** What the log gained during a step. *)
Lemma grows_trace w w' :
  grows w w' -> exists evs, trace w' = trace w ++ evs.
Proof. intros (_ & _ & _ & evs & L & _). eauto. Qed.

Definition gateway_grows (g g' : Gateway) : Prop := grows (world g) (world g').

(** The reply is an answer below 400 whose body decodes to [j]. *)
Definition answers_json (r : Reply) (j : Json) : Prop :=
  exists st reason body_text,
    outcome r = Answered st reason {| text := body_text; decoded := Parsed j |} /\
    st < 400.

(** During the step from [w] to [w'] the request [rq] was sent and the
    reply to that very exchange was an answer with body [j]: [rq] is the
    [i]-th request the step logged, and the reply to the [i]-th exchange of
    the step, [net w (served w + i)], is the answer. *)
Definition was_answered (rq : Request) (j : Json) (w w' : World) : Prop :=
  grows w w' /\
  exists evs i,
    trace w' = trace w ++ evs /\
    nth_error (sent_requests evs) i = Some rq /\
    answers_json (net w (served w + i)) j.

Lemma was_answered_after rq j w0 w w' :
  grows w0 w -> was_answered rq j w w' -> was_answered rq j w0 w'.
Proof.
  intros Hg (Hg' & evs & i & Htr & Hnth & Hans).
  split; [eapply grows_trans; eassumption|].
  destruct Hg as (N & S1 & T & e & L & C).
  exists (e ++ evs), (List.length (sent_requests e) + i)%nat.
  split; [rewrite Htr, L, <- app_assoc; reflexivity|]. split.
  - rewrite sent_requests_app, nth_error_app2 by lia.
    replace (List.length (sent_requests e) + i - List.length (sent_requests e))%nat with i by lia.
    exact Hnth.
  - rewrite <- N, Nat.add_assoc, <- C. exact Hans.
Qed.

Lemma was_answered_before rq j w w' w1 :
  was_answered rq j w w' -> grows w' w1 -> was_answered rq j w w1.
Proof.
  intros (Hg' & evs & i & Htr & Hnth & Hans) Hg.
  split; [eapply grows_trans; eassumption|].
  destruct Hg as (N & S1 & T & e & L & C).
  exists (evs ++ e), i.
  split; [rewrite L, Htr, <- app_assoc; reflexivity|]. split; [|exact Hans].
  rewrite sent_requests_app, nth_error_app1; [exact Hnth|].
  apply nth_error_Some. rewrite Hnth. discriminate.
Qed.

(** The request answered is the one the reply was given to: the exchange
    that logged it is the one that consumed the reply. *)
Lemma was_answered_exchange raise_for_status rq j w :
  answers_json (net w (served w)) j ->
  was_answered rq j w (snd (exchange raise_for_status rq w)).
Proof.
  intros Hans. split; [apply grows_exchange|].
  exists [Sent rq], 0%nat. cbn. rewrite Nat.add_0_r. auto.
Qed.

Module RequestFacts.
Import Transport Gate TransportFacts.

Lemma attempts_log_requests rq k : forall attempt,
  sent_requests (attempts_log_from rq attempt k) = repeat rq k.
Proof.
  induction k as [|k IH]; intros attempt; [reflexivity|].
  cbn [attempts_log_from repeat]. rewrite sent_requests_app.
  destruct (Nat.eqb attempt 0); cbn; rewrite IH; reflexivity.
Qed.

(** A send that returns a response was answered with it: the last attempt
    is the one that got the response. *)
Lemma send_request_ok rq w resp w' :
  _send_request rq w = (Ok resp, w') ->
  grows w w' /\
  exists evs i,
    trace w' = trace w ++ evs /\
    nth_error (sent_requests evs) i = Some rq /\
    outcome (net w (served w + i))
      = Answered (resp_status resp) (resp_reason resp) (resp_body resp) /\
    resp_status resp < 400.
Proof.
  intros H.
  pose proof (steps_send_request grows grows_refl grows_trans grows_sleep rq
                (fun rf w => grows_exchange rf rq w) w) as Hg.
  rewrite H in Hg. cbn in Hg. split; [exact Hg|].
  unfold _send_request in H.
  destruct (loop_spec _ _ _ _ _ _ _ H) as (_ & k & Hk & Htr & Hsv & Hcase).
  destruct Hcase as [(_ & Hz & _)|(Hk1 & _ & Hlast)]; [discriminate Hz|].
  exists (attempts_log_from rq 0 k), (k - 1)%nat.
  split; [exact Htr|]. split.
  - rewrite attempts_log_requests. apply nth_error_repeat. lia.
  - destruct (outcome (net w (served w + (k - 1)))) as [st reason body|msg].
    + destruct (Z.leb_spec 400 st).
      * destruct (st =? 401); [discriminate Hlast|].
        destruct Hlast as [_ Hlast]. discriminate Hlast.
      * inversion Hlast; subst. cbn. auto.
    + destruct Hlast as [_ Hlast]. discriminate Hlast.
Qed.

Lemma request_json_ok rq w resp j w' :
  request_json rq w = (Ok (resp, j), w') -> was_answered rq j w w'.
Proof.
  unfold request_json. intros H.
  destruct (bind_ok_inv _ _ _ _ _ H) as (resp0 & w1 & Hsend & H1).
  destruct (bind_ok_inv _ _ _ _ _ H1) as (j0 & w2 & Hjson & H2).
  inversion H2; subst. unfold response_json in Hjson.
  destruct (send_request_ok _ _ _ _ Hsend) as (Hg & evs & i & Htr & Hnth & Hout & Hst).
  destruct (resp_body resp) as [body_text dec] eqn:Hbody. cbn in Hjson.
  destruct dec as [j1|err]; [|discriminate Hjson].
  inversion Hjson; subst.
  split; [exact Hg|].
  exists evs, i. split; [exact Htr|]. split; [exact Hnth|].
  exists (resp_status resp), (resp_reason resp), body_text. auto.
Qed.

(** The gateway's coroutines only move the environment forward. *)
Lemma gateway_grows_refl g : gateway_grows g g.
Proof. apply grows_refl. Qed.

Lemma gateway_grows_trans a b c :
  gateway_grows a b -> gateway_grows b c -> gateway_grows a c.
Proof. apply grows_trans. Qed.

Ltac grows_side_conditions :=
  first
    [ exact grows_refl | exact grows_trans | exact grows_sleep
    | exact gateway_grows_refl | exact gateway_grows_trans
    | exact (fun _ => I)
    | solve [intros; apply grows_exchange]
    | solve [intros; exact I]
    | solve [intros; apply grows_refl]
    | solve [intros ? ? H; exact H] ].

Lemma authenticate_grows wait : steps gateway_grows (authenticate wait).
Proof.
  apply (steps_authenticate grows) with (allowed := fun _ => True);
    grows_side_conditions.
Qed.

Lemma request_grows returns rq login_request :
  steps gateway_grows (request returns rq login_request).
Proof.
  apply (steps_request grows) with (allowed := fun _ => True);
    grows_side_conditions.
Qed.

Lemma task_poll_grows : steps gateway_grows task_poll.
Proof.
  apply (steps_task_poll grows) with (allowed := fun _ => True);
    grows_side_conditions.
Qed.

Lemma task_start_world g : world (snd (task_start g)) = world g.
Proof.
  unfold task_start, bind, gets.
  destruct (_authentication_task g) as [[| |]|]; reflexivity.
Qed.

Lemma task_start_ok g : fst (task_start g) = Ok tt.
Proof.
  unfold task_start, bind, gets.
  destruct (_authentication_task g) as [[| |]|]; reflexivity.
Qed.

(** A call to Transport that returns to [request] returned in Transport,
    from the world [request] was in. *)
Lemma suspended_ok {A} (call : M World A) g x g' :
  suspended call g = (Ok x, g') ->
  exists w1, call (world g) = (Ok x, w1) /\ grows w1 (world g').
Proof.
  unfold suspended. intros H.
  destruct (bind_ok_inv _ _ _ _ _ H) as ([] & g1 & Hstart & Hrest).
  pose proof (task_start_world g) as Hw. rewrite Hstart in Hw. cbn in Hw.
  unfold in_world, zoom in Hrest. rewrite Hw in Hrest.
  destruct (call (world g)) as [r w1].
  pose proof (task_poll_grows (set_world w1 g1)) as Hpoll.
  destruct (task_poll (set_world w1 g1)) as [r2 g2].
  inversion Hrest; subst. exists w1. split; [reflexivity|exact Hpoll].
Qed.

Lemma bind_then_raise {S A B} (m : M S A) (e : Exn) s (b : B) s' :
  bind m (fun _ => raise e) s <> (Ok b, s').
Proof.
  unfold bind, raise. destruct (m s) as [[a|e'] s1]; discriminate.
Qed.

(** C5 and C6 rest on this: when [request] returns a body, the request was
    sent with an [Authorization] header, and the body is the decoded body
    of an answer the environment gave during the call. *)
Lemma request_ok rq g resp j g' :
  request "json" rq false g = (Ok (resp, j), g') ->
  exists token, was_answered (authorized token rq) j (world g) (world g').
Proof.
  unfold request.
  change (REQUEST_METHODS "json") with (Some request_json). cbv iota beta.
  intros H.
  pose proof gateway_grows_refl as Grefl.
  pose proof gateway_grows_trans as Gtrans.
  destruct (bind_ok_inv _ _ _ _ _ H) as (task & g1 & Hg1 & H1). clear H.
  inversion Hg1; subst g1. clear Hg1.
  destruct (bind_ok_inv _ _ _ _ _ H1) as ([] & g2 & Hcollect & H2). clear H1.
  assert (G2 : gateway_grows g g2).
  { assert (Hs : steps gateway_grows
        match task with
        | Some _ =>
            authentication_task <- authenticate false ;;
            match authentication_task with
            | Some (Finished result) =>
                modify (set_authentication_task None) ;;
                match result with
                | Ok _ => ret tt
                | Raise CancelledError => ret tt
                | Raise (RequestError _) | Raise (AuthenticationError _) => ret tt
                | Raise err => raise err
                end
            | _ => ret tt
            end
        | None => ret tt
        end).
    { steps_with ltac:(idtac; lazymatch goal with
        | |- steps _ (authenticate _) => apply authenticate_grows
        | |- steps _ (modify _) => apply steps_modify; intros ?; apply grows_refl
        end). }
    specialize (Hs g). rewrite Hcollect in Hs. exact Hs. }
  destruct (bind_ok_inv _ _ _ _ _ H2) as (token & g3 & Hg3 & H3). clear H2.
  inversion Hg3; subst g3. clear Hg3.
  destruct (bind_ok_inv _ _ _ _ _ H3) as (now0 & g4 & Hg4 & H4). clear H3.
  inversion Hg4; subst g4. clear Hg4.
  destruct (bind_ok_inv _ _ _ _ _ H4) as ([] & g5 & Hauth & H5). clear H4.
  assert (G5 : gateway_grows g2 g5).
  { assert (Hs : steps gateway_grows
        (if match token_2 token with
            | Some expiry => expiry <=? now0
            | None => true
            end
         then match token_0 token with
              | Some _ => authenticate false;; ret tt
              | None => try_except (authenticate true;; ret tt) reauthenticate_failed
              end
         else ret tt)).
    { unfold reauthenticate_failed.
      steps_with ltac:(idtac; lazymatch goal with
        | |- steps _ (authenticate _) => apply authenticate_grows
        end). }
    specialize (Hs g2). rewrite Hauth in Hs. exact Hs. }
  destruct (bind_ok_inv _ _ _ _ _ H5) as (token' & g6 & Hg6 & H6). clear H5.
  inversion Hg6; subst g6. clear Hg6.
  set (rq' := authorized (token_0 token') rq) in *.
  exists (token_0 token').
  (* the handlers of the outer [try] all end in [raise] *)
  destruct (try_except_inv _ _ _ _ _ H6) as [(x & Hbody & Hx)|(e & s1 & _ & Hh)];
    [inversion Hx; subst x; clear Hx H6 | exfalso; clear - Hh].
  2:{ destruct e as [| | |st m| | | | | | | |]; try discriminate Hh.
      destruct (st =? 401); [|discriminate Hh].
      unfold bind, clear_security_token, modify, raise in Hh.
      destruct (authenticate false _) as [[t|e] s2]; discriminate Hh. }
  (* the call that returned is the first one or the retry *)
  assert (Hcall : exists g7, gateway_grows g5 g7 /\
            suspended (request_json rq') g7 = (Ok (resp, j), g')).
  { destruct (bind_ok_inv _ _ _ _ _ Hbody) as (first & g7 & Hfirst & Hk).
    destruct first as [r|].
    - inversion Hk; subst. exists g5. split; [apply gateway_grows_refl|].
      destruct (try_except_inv _ _ _ _ _ Hfirst) as [(x & Hf & Hx)|(e & s1 & _ & Hh)].
      + destruct (bind_ok_inv _ _ _ _ _ Hf) as (r0 & s0 & Hs0 & Hr0).
        inversion Hr0; subst. inversion Hx; subst. exact Hs0.
      + exfalso. destruct e as [| | |st m| | | | | | | |]; try discriminate Hh.
        destruct (st =? 401); [|discriminate Hh].
        unfold bind, clear_security_token, modify in Hh.
        destruct (try_except _ reauthenticate_failed _) as [[t|e] s2];
          discriminate Hh.
    - exists g7. split; [|exact Hk].
      assert (Hs : steps gateway_grows
        (try_except
           (r <- suspended (request_json rq') ;; ret (Some r))
           (fun err =>
              match err with
              | ClientResponseError st _ =>
                  if st =? 401 then
                    clear_security_token ;;
                    try_except (authenticate true ;; ret tt) reauthenticate_failed ;;
                    ret None
                  else raise err
              | _ => raise err
              end))).
      { unfold reauthenticate_failed.
        steps_with ltac:(idtac; lazymatch goal with
          | |- steps _ (authenticate _) => apply authenticate_grows
          | |- steps _ clear_security_token =>
              apply steps_modify; intros ?; apply grows_refl
          | |- steps _ (suspended _) =>
              apply (steps_suspended grows) with (allowed := fun _ => True);
              [ grows_side_conditions .. | ]
          end).
        apply (steps_call_method grows grows_refl grows_trans grows_sleep rq')
          with (returns := "json"); [|reflexivity].
        intros rf w. apply grows_exchange. }
      specialize (Hs g5). rewrite Hfirst in Hs. exact Hs. }
  destruct Hcall as (g7 & G7 & Hcall).
  destruct (suspended_ok _ _ _ _ Hcall) as (w1 & Hjson & Hafter).
  apply was_answered_after with (w := world g7).
  { eapply grows_trans; [exact G2|]. eapply grows_trans; [exact G5|exact G7]. }
  apply was_answered_before with (w' := w1); [|exact Hafter].
  eapply request_json_ok. exact Hjson.
Qed.

End RequestFacts.

(** ** The Device Registry *)

Module RegistryFacts.
Import Transport Gate Registry RequestFacts.

Lemma key_eqb_spec k k' : reflect (k = k') (key_eqb k k').
Proof.
  destruct k as [|n|n d|b| |s], k' as [|n'|n' d'|b'| |s']; cbn;
    try (constructor; congruence).
  - destruct (Z.eqb_spec n n'); constructor; congruence.
  - destruct (Z.eqb_spec n n'), (Pos.eqb_spec d d'); cbn; constructor; congruence.
  - destruct (Bool.eqb_spec b b'); constructor; congruence.
  - destruct (String.eqb_spec s s'); constructor; congruence.
Qed.

Lemma key_eqb_refl k : key_eqb k k = true.
Proof. destruct (key_eqb_spec k k); congruence. Qed.

Lemma key_dec (k k' : Key) : {k = k'} + {k <> k'}.
Proof. destruct (key_eqb_spec k k'); [left|right]; assumption. Qed.

Lemma devices_find_set_same ds k d : devices_find (devices_set ds k d) k = Some d.
Proof.
  induction ds as [|[k' d'] ds IH]; cbn.
  - now rewrite key_eqb_refl.
  - destruct (key_eqb k k') eqn:E; cbn; rewrite E; [reflexivity|exact IH].
Qed.

Lemma devices_find_set_other ds k d k' :
  k' <> k -> devices_find (devices_set ds k d) k' = devices_find ds k'.
Proof.
  intros Hne. induction ds as [|[k0 d0] ds IH]; cbn.
  - destruct (key_eqb_spec k' k); [contradiction|reflexivity].
  - destruct (key_eqb_spec k k0) as [->|Hk]; cbn.
    + destruct (key_eqb_spec k' k0); [contradiction|reflexivity].
    + destruct (key_eqb_spec k' k0); [reflexivity|exact IH].
Qed.

Lemma devices_set_keys ds k d d0 :
  devices_find ds k = Some d0 -> map fst (devices_set ds k d) = map fst ds.
Proof.
  induction ds as [|[k' d'] ds IH]; cbn; [discriminate|].
  destruct (key_eqb_spec k k') as [->|Hk]; cbn; intros H.
  - reflexivity.
  - f_equal. apply IH, H.
Qed.

Lemma set_session_twice j1 j2 d : set_session j2 (set_session j1 d) = set_session j2 d.
Proof. reflexivity. Qed.

Lemma set_session_own d : set_session (session d) d = d.
Proof. destruct d; reflexivity. Qed.

(** The registry's log and clock, through the gateway's. *)
Definition api_grows (a a' : API) : Prop :=
  grows (world (gateway a)) (world (gateway a')).

Definition api_world (a : API) : World := world (gateway a).

(** A request through the gateway touches nothing else of the client. *)
Lemma in_gateway_frame {A} (m : M Gateway A) a :
  snd (in_gateway m a) = set_gateway (gateway (snd (in_gateway m a))) a.
Proof.
  unfold in_gateway, zoom. destruct (m (gateway a)) as [r g']. reflexivity.
Qed.

Lemma get_json_frame url a r a' :
  get_json url a = (r, a') ->
  a' = set_gateway (gateway a') a /\ api_grows a a'.
Proof.
  unfold get_json, bind, in_gateway, zoom. intros H.
  pose proof (request_grows "json" (a_request "get" url) false (gateway a)) as Hg.
  destruct (request "json" (a_request "get" url) false (gateway a)) as [[[resp j]|e] g'];
    inversion H; subst; cbn; auto.
Qed.

(** The body [get_json] returns is the body of an answer received during
    the call, to a [GET] of the URL. *)
Lemma get_json_ok url a j a' :
  get_json url a = (Ok j, a') ->
  exists token,
    was_answered (authorized token (a_request "get" url)) j (api_world a) (api_world a').
Proof.
  unfold get_json, bind, in_gateway, zoom. intros H.
  destruct (request "json" (a_request "get" url) false (gateway a))
    as [[[resp j0]|e] g'] eqn:Hreq; inversion H; subst.
  destruct (request_ok _ _ _ _ _ Hreq) as (token & Hans).
  exists token. exact Hans.
Qed.

Lemma account_givenName_frame a r a' : account_givenName a = (r, a') -> a' = a.
Proof.
  unfold account_givenName, bind, gets, lift.
  destruct (account a); intros H; inversion H; reflexivity.
Qed.

Definition session_request : Request :=
  a_request "get" (BASE_ENDPOINT ++ SESSION_URI)%string.

Lemma get_session_frame a r a' :
  get_session_for_account a = (r, a') ->
  a' = set_gateway (gateway a') a /\ api_grows a a'.
Proof.
  unfold get_session_for_account. intros H.
  destruct (bind_inv _ _ _ _ _ H) as [(x & a1 & H1 & H2)|(e & H1 & _)].
  - apply account_givenName_frame in H1. subst a1.
    eapply get_json_frame. exact H2.
  - apply account_givenName_frame in H1. subst a'.
    split; [destruct a; reflexivity|apply grows_refl].
Qed.

Lemma get_session_ok a j a' :
  get_session_for_account a = (Ok j, a') ->
  exists token, was_answered (authorized token session_request) j (api_world a) (api_world a').
Proof.
  unfold get_session_for_account. intros H.
  destruct (bind_ok_inv _ _ _ _ _ H) as (x & a1 & H1 & H2).
  apply account_givenName_frame in H1. subst a1.
  eapply get_json_ok. exact H2.
Qed.

(** The attributes of the client other than its devices and its gateway. *)
Definition same_registry (a a' : API) : Prop :=
  account a' = account a /\ baby a' = baby a /\
  last_state_update a' = last_state_update a.

Lemma attach_session_spec kd a r a' :
  attach_session kd a = (r, a') ->
  api_grows a a' /\ same_registry a a' /\
  ((exists e, r = Raise e /\ devices a' = devices a) \/
   (r = Ok tt /\
    exists token j,
      was_answered (authorized token session_request) j (api_world a) (api_world a') /\
      devices a' =
        match devices_find (devices a) (fst kd) with
        | None => devices a
        | Some device => devices_set (devices a) (fst kd) (set_session j device)
        end)).
Proof.
  unfold attach_session. intros H.
  destruct (bind_inv _ _ _ _ _ H) as [(j & a1 & H1 & H2)|(e & H1 & ->)].
  - destruct (get_session_frame _ _ _ H1) as (Hframe & Hg).
    destruct (get_session_ok _ _ _ H1) as (token & Hans).
    unfold modify in H2. inversion H2; subst r a'. clear H2.
    assert (Hd : devices a1 = devices a) by (rewrite Hframe; reflexivity).
    assert (Hw : forall x, api_world
              match devices_find (devices a1) (fst kd) with
              | None => a1
              | Some device => set_devices x a1
              end = api_world a1)
      by (intros x; destruct (devices_find (devices a1) (fst kd)); reflexivity).
    split; [unfold api_grows; fold (api_world a);
            match goal with |- grows _ (world (gateway ?t)) =>
              change (world (gateway t)) with (api_world t) end;
            destruct (devices_find (devices a1) (fst kd)); exact Hg|].
    split.
    { unfold same_registry. rewrite Hframe.
      destruct (devices_find (devices (set_gateway (gateway a1) a)) (fst kd));
        cbn; auto. }
    right. split; [reflexivity|]. exists token, j. split.
    + destruct (devices_find (devices a1) (fst kd)); exact Hans.
    + rewrite <- Hd. destruct (devices_find (devices a1) (fst kd)); reflexivity.
  - destruct (get_session_frame _ _ _ H1) as (Hframe & Hg).
    split; [exact Hg|]. split.
    { unfold same_registry. rewrite Hframe. cbn. auto. }
    left. exists e. split; [reflexivity|]. rewrite Hframe. reflexivity.
Qed.

Lemma same_registry_refl a : same_registry a a.
Proof. unfold same_registry. auto. Qed.

Lemma same_registry_trans a b c :
  same_registry a b -> same_registry b c -> same_registry a c.
Proof.
  unfold same_registry. intros (A1 & B1 & L1) (A2 & B2 & L2).
  repeat split; congruence.
Qed.

(** The devices after one [attach_session] that returned. *)
Lemma attached_find ds k j serial d :
  devices_find ds serial = Some d ->
  devices_find
    match devices_find ds k with
    | None => ds
    | Some device => devices_set ds k (set_session j device)
    end serial
  = Some (if key_eqb serial k then set_session j d else d).
Proof.
  intros Hd. destruct (key_eqb_spec serial k) as [->|Hne].
  - rewrite Hd. apply devices_find_set_same.
  - destruct (devices_find ds k); [|exact Hd].
    rewrite devices_find_set_other by exact Hne. exact Hd.
Qed.

Lemma attached_keys ds k j :
  map fst match devices_find ds k with
          | None => ds
          | Some device => devices_set ds k (set_session j device)
          end = map fst ds.
Proof.
  destruct (devices_find ds k) eqn:E; [|reflexivity].
  eapply devices_set_keys. exact E.
Qed.

Lemma attached_other ds k j serial :
  serial <> k ->
  devices_find
    match devices_find ds k with
    | None => ds
    | Some device => devices_set ds k (set_session j device)
    end serial
  = devices_find ds serial.
Proof.
  intros Hne. destruct (devices_find ds k); [|reflexivity].
  apply devices_find_set_other. exact Hne.
Qed.

(** The loop of the throttled branch, over the devices [l] still to do. *)
Lemma refresh_loop l : forall a r a',
  for_each l attach_session a = (r, a') ->
  api_grows a a' /\ same_registry a a' /\
  map fst (devices a') = map fst (devices a) /\
  (forall serial d, devices_find (devices a) serial = Some d ->
     exists j, devices_find (devices a') serial = Some (set_session j d)) /\
  (forall serial, ~ In serial (map fst l) ->
     devices_find (devices a') serial = devices_find (devices a) serial) /\
  (r = Ok tt ->
   forall serial d, In serial (map fst l) ->
     devices_find (devices a) serial = Some d ->
     exists token j,
       devices_find (devices a') serial = Some (set_session j d) /\
       was_answered (authorized token session_request) j (api_world a) (api_world a')).
Proof.
  induction l as [|kd l IH]; intros a r a' H.
  - inversion H; subst. split; [apply grows_refl|].
    split; [apply same_registry_refl|]. split; [reflexivity|].
    split; [|split; [reflexivity|intros _ serial d []]].
    intros serial d Hd. exists (session d). now rewrite set_session_own.
  - cbn [for_each] in H.
    destruct (bind_inv _ _ _ _ _ H) as [([] & a1 & H1 & H2)|(e & H1 & ->)].
    + destruct (attach_session_spec _ _ _ _ H1)
        as (G1 & R1 & [(e & He & _)|(_ & token & j & Hans & Hdev)]);
        [discriminate He|].
      destruct (IH _ _ _ H2) as (G2 & R2 & K2 & F2 & O2 & A2).
      split; [eapply grows_trans; eassumption|].
      split; [eapply same_registry_trans; eassumption|].
      split; [rewrite K2, Hdev; apply attached_keys|].
      split; [|split].
      * intros serial d Hd.
        pose proof (attached_find (devices a) (fst kd) j serial d Hd) as Hf.
        rewrite <- Hdev in Hf.
        destruct (F2 _ _ Hf) as (j2 & Hj2). exists j2. rewrite Hj2.
        destruct (key_eqb serial (fst kd)); reflexivity.
      * intros serial Hnot. cbn in Hnot.
        rewrite O2 by tauto. rewrite Hdev.
        apply attached_other. intros ->. tauto.
      * intros -> serial d Hin Hd.
        pose proof (attached_find (devices a) (fst kd) j serial d Hd) as Hf.
        rewrite <- Hdev in Hf.
        destruct (in_dec key_dec serial (map fst l)) as [Hl|Hl].
        -- destruct (A2 eq_refl _ _ Hl Hf) as (token2 & j2 & Hj2 & Hans2).
           exists token2, j2. split.
           ++ rewrite Hj2. destruct (key_eqb serial (fst kd)); reflexivity.
           ++ eapply was_answered_after; [exact G1|exact Hans2].
        -- destruct Hin as [Hk|Hin]; [|contradiction].
           subst serial. rewrite key_eqb_refl in Hf.
           exists token, j. split.
           ++ rewrite (O2 _ Hl). exact Hf.
           ++ eapply was_answered_before; [exact Hans|exact G2].
    + destruct (attach_session_spec _ _ _ _ H1)
        as (G1 & R1 & [(e' & _ & Hdev)|(He & _)]); [|discriminate He].
      split; [exact G1|]. split; [exact R1|]. rewrite Hdev.
      split; [reflexivity|]. split; [|split; [reflexivity|discriminate]].
      intros serial d Hd. exists (session d). now rewrite set_session_own.
Qed.

Lemma devices_find_in ds serial d :
  devices_find ds serial = Some d -> In serial (map fst ds).
Proof.
  induction ds as [|[k d'] ds IH]; cbn; [discriminate|].
  destruct (key_eqb_spec serial k) as [->|Hne]; auto.
Qed.

(** The requests of the cheap refresh: the session blob, and what
    authentication needs. *)
Definition session_or_authentication (rq : Request) : Prop :=
  authentication_url (url rq) \/ url rq = (BASE_ENDPOINT ++ SESSION_URI)%string.

Lemma refresh_sessions_emits a :
  emits session_or_authentication (api_world a) (api_world (snd (refresh_sessions a))).
Proof.
  apply (steps_refresh_sessions
           (emits session_or_authentication)
           (emits_refl _) (emits_trans _) (emits_sleep _)
           (fun u => authentication_url u \/ u = (BASE_ENDPOINT ++ SESSION_URI)%string)
           (fun rf rq w => emits_exchange session_or_authentication rf rq w)
           ltac:(left; left; reflexivity)
           ltac:(left; right; reflexivity)
           (fun g g' => emits session_or_authentication (world g) (world g'))
           (fun g => emits_refl _ (world g))
           (fun x y z => emits_trans _ (world x) (world y) (world z))
           ltac:(intros t g; apply emits_refl)
           ltac:(intros t g; apply emits_refl)
           ltac:(intros g w H; exact H)
           (fun x y => emits session_or_authentication (api_world x) (api_world y))
           (fun x => emits_refl _ (api_world x))
           (fun x y z => emits_trans _ (api_world x) (api_world y) (api_world z))
           ltac:(intros x g H; exact H)
           ltac:(intros ds x; apply emits_refl)
           ltac:(right; reflexivity)).
Qed.

Definition api_now (a : API) : Z := now (api_world a).

(** The call is made less than 120 seconds after the last full refresh. *)
Definition within_throttle_window (a : API) : Prop :=
  exists t, last_state_update a = Some t /\
            api_now a - t < DEFAULT_DEVICE_UPDATE_INTERVAL.

(** The call is the first one, or is made 120 seconds or more after the
    last full refresh. *)
Definition after_throttle_window (a : API) : Prop :=
  match last_state_update a with
  | None => True
  | Some t => DEFAULT_DEVICE_UPDATE_INTERVAL <= api_now a - t
  end.

Lemma update_device_info_throttled a :
  within_throttle_window a -> update_device_info a = refresh_sessions a.
Proof.
  intros (t & Ht & Hlt). unfold update_device_info, utcnow, bind, gets.
  rewrite Ht. cbn. rewrite Ht.
  unfold api_now, api_world in Hlt.
  destruct (Z.ltb_spec (now (world (gateway a))) (t + DEFAULT_DEVICE_UPDATE_INTERVAL));
    [reflexivity|lia].
Qed.

(** The full branch of [update_device_info]. *)
Definition full_refresh : M API unit :=
  account <- gets account ;;
  match account with
  | JNull => acc <- get_account ;; modify (set_account acc)
  | _ => ret tt
  end ;;
  baby <- gets baby ;;
  match baby with
  | JNull => b <- get_baby_for_account ;; modify (set_baby b)
  | _ => ret tt
  end ;;
  _get_device_details ;;
  t <- utcnow ;;
  modify (set_last_state_update (Some t)).

(** Outside the window the call is the full branch, entered with the
    timestamp that the first call ever initialises. *)
Lemma update_device_info_full a :
  after_throttle_window a ->
  update_device_info a =
    full_refresh
      match last_state_update a with
      | None => set_last_state_update
                  (Some (api_now a - DEFAULT_DEVICE_UPDATE_INTERVAL)) a
      | Some _ => a
      end.
Proof.
  unfold after_throttle_window, update_device_info, utcnow, bind, gets, api_now, api_world.
  destruct (last_state_update a) as [t|] eqn:Ht; intros H; cbn.
  - rewrite Ht.
    destruct (Z.ltb_spec (now (world (gateway a))) (t + DEFAULT_DEVICE_UPDATE_INTERVAL));
      [lia|reflexivity].
  - destruct (Z.ltb_spec (now (world (gateway a)))
                (now (world (gateway a)) - DEFAULT_DEVICE_UPDATE_INTERVAL
                 + DEFAULT_DEVICE_UPDATE_INTERVAL)); [lia|reflexivity].
Qed.

Lemma api_grows_refl a : api_grows a a.
Proof. apply grows_refl. Qed.

Lemma api_grows_trans a b c : api_grows a b -> api_grows b c -> api_grows a c.
Proof. apply grows_trans. Qed.

(** The side conditions of the invariant lemmas, for [api_grows]. *)
Ltac api_grows_side_conditions :=
  first
    [ exact grows_refl | exact grows_trans | exact grows_sleep
    | exact gateway_grows_refl | exact gateway_grows_trans
    | exact api_grows_refl | exact api_grows_trans
    | exact I
    | exact (fun _ => I)
    | solve [intros; apply grows_exchange]
    | solve [intros; exact I]
    | solve [intros; apply grows_refl]
    | solve [intros ? ? H; exact H] ].

Lemma get_account_grows : steps api_grows get_account.
Proof.
  apply (steps_get_account grows) with (good_url := fun _ => True) (Rg := gateway_grows);
    api_grows_side_conditions.
Qed.

Lemma get_baby_for_account_grows : steps api_grows get_baby_for_account.
Proof.
  apply (steps_get_baby_for_account grows)
    with (good_url := fun _ => True) (Rg := gateway_grows);
    api_grows_side_conditions.
Qed.

Lemma refresh_device_grows ts device_json : steps api_grows (refresh_device ts device_json).
Proof.
  apply (steps_refresh_device grows)
    with (good_url := fun _ => True) (Rg := gateway_grows);
    api_grows_side_conditions.
Qed.

(** The two URLs of the device list. *)
Definition device_list_url (u : string) : Prop :=
  u = (BASE_ENDPOINT ++ DEVICES_V11_URI)%string \/
  u = (BASE_ENDPOINT ++ DEVICES_URI)%string.

(** When [_get_device_details] returns, the device list was fetched. *)
Lemma get_device_details_ok a a' :
  _get_device_details a = (Ok tt, a') ->
  exists rq j, device_list_url (url rq) /\
               was_answered rq j (api_world a) (api_world a').
Proof.
  unfold _get_device_details. intros H.
  pose proof api_grows_refl as Grefl. pose proof api_grows_trans as Gtrans.
  destruct (bind_ok_inv _ _ _ _ _ H) as (x & a1 & H1 & H2). clear H.
  apply account_givenName_frame in H1. subst a1.
  destruct (bind_ok_inv _ _ _ _ _ H2) as (devices_resp & a2 & Hlist & H3). clear H2.
  assert (Hfetched : exists rq, device_list_url (url rq) /\
            was_answered rq devices_resp (api_world a) (api_world a2)).
  { destruct (try_except_inv _ _ _ _ _ Hlist) as [(j & Hv11 & Hj)|(e & s1 & Hv11 & Hh)].
    - inversion Hj; subst j.
      destruct (get_json_ok _ _ _ _ Hv11) as (token & Hans).
      eexists. split; [|exact Hans]. left. reflexivity.
    - destruct (is_Exception e); [|discriminate Hh].
      destruct (get_json_frame _ _ _ _ Hv11) as (_ & Hg).
      destruct (get_json_ok _ _ _ _ Hh) as (token & Hans).
      eexists. split; [|eapply was_answered_after; [exact Hg|exact Hans]].
      right. reflexivity. }
  destruct Hfetched as (rq & Hurl & Hans).
  exists rq, devices_resp. split; [exact Hurl|].
  eapply was_answered_before; [exact Hans|].
  destruct (bind_ok_inv _ _ _ _ _ H3) as (ts & a3 & Hts & H4). clear H3.
  inversion Hts; subst a3 ts. clear Hts.
  assert (Hs : steps api_grows
    match devices_resp with
    | JNull => account_givenName ;; ret tt
    | _ => items <- lift (py_iter devices_resp) ;;
           for_each items (refresh_device (now (world (gateway a2))))
    end).
  { steps_with ltac:(idtac; lazymatch goal with
      | |- steps _ account_givenName =>
          unfold account_givenName;
          steps_with ltac:(fail)
      | |- steps _ (refresh_device _ _) => apply refresh_device_grows
      end). }
  specialize (Hs a2). rewrite H4 in Hs. exact Hs.
Qed.

(** The full branch, when it returns: the device list was fetched, and the
    timestamp of the last full refresh is the time of completion. *)
Lemma full_refresh_ok a a' :
  full_refresh a = (Ok tt, a') ->
  last_state_update a' = Some (api_now a') /\
  api_grows a a' /\
  exists rq j, device_list_url (url rq) /\
               was_answered rq j (api_world a) (api_world a').
Proof.
  unfold full_refresh. intros H.
  pose proof api_grows_refl as Grefl. pose proof api_grows_trans as Gtrans.
  destruct (bind_ok_inv _ _ _ _ _ H) as (acc & a1 & H1 & H2). clear H.
  inversion H1; subst a1 acc. clear H1.
  destruct (bind_ok_inv _ _ _ _ _ H2) as ([] & a2 & Hacc & H3). clear H2.
  assert (G2 : api_grows a a2).
  { assert (Hs : steps api_grows
      match account a with
      | JNull => acc <- get_account ;; modify (set_account acc)
      | _ => ret tt
      end).
    { steps_with ltac:(idtac; lazymatch goal with
        | |- steps _ get_account => apply get_account_grows
        | |- steps _ (modify _) => apply steps_modify; intros ?; apply grows_refl
        end). }
    specialize (Hs a). rewrite Hacc in Hs. exact Hs. }
  destruct (bind_ok_inv _ _ _ _ _ H3) as (b & a3 & Hb & H4). clear H3.
  inversion Hb; subst a3 b. clear Hb.
  destruct (bind_ok_inv _ _ _ _ _ H4) as ([] & a4 & Hbaby & H5). clear H4.
  assert (G4 : api_grows a2 a4).
  { assert (Hs : steps api_grows
      match baby a2 with
      | JNull => b <- get_baby_for_account ;; modify (set_baby b)
      | _ => ret tt
      end).
    { steps_with ltac:(idtac; lazymatch goal with
        | |- steps _ get_baby_for_account => apply get_baby_for_account_grows
        | |- steps _ (modify _) => apply steps_modify; intros ?; apply grows_refl
        end). }
    specialize (Hs a2). rewrite Hbaby in Hs. exact Hs. }
  destruct (bind_ok_inv _ _ _ _ _ H5) as ([] & a5 & Hdet & H6). clear H5.
  destruct (get_device_details_ok _ _ Hdet) as (rq & j & Hurl & Hans).
  destruct (bind_ok_inv _ _ _ _ _ H6) as (t & a6 & Ht & H7). clear H6.
  inversion Ht; subst a6 t. clear Ht.
  inversion H7; subst a'. clear H7.
  split; [reflexivity|].
  assert (G5 : api_grows a4 a5) by (destruct Hans as (Hg & _); exact Hg).
  split.
  - eapply api_grows_trans; [exact G2|]. eapply api_grows_trans; [exact G4|exact G5].
  - exists rq, j. split; [exact Hurl|].
    eapply was_answered_after; [|exact Hans].
    eapply grows_trans; [exact G2|exact G4].
Qed.

(** The requests of the cheap refresh are neither the device list nor a
    device's configuration. *)
Lemma session_or_authentication_only rq :
  session_or_authentication rq ->
  ~ device_list_url (url rq) /\
  forall serial_number,
    url rq <> (BASE_ENDPOINT ++ DEVICE_CONFIGS_URI serial_number)%string.
Proof.
  unfold session_or_authentication, authentication_url, device_list_url.
  intros [[H|H]|H]; rewrite H; (split; [intros [E|E]; discriminate E|]);
    intros serial_number E; cbv in E; discriminate E.
Qed.

End RegistryFacts.


(** ** Unit conversions of the Journal Client *)

Module ConversionFacts.
Import Gate Registry Journal.
Import PrimFloat.














End ConversionFacts.

(** ** The operations on a concrete client *)

Module Scenarios.
Import Transport Gate Registry Journal.
Import PrimFloat.

(** The vendor answers with the JSON [j] after one second. *)
Definition answer (j : Json) : Reply :=
  {| elapsed := 1;
     outcome := Answered 200 "OK" {| text := ""; decoded := Parsed j |} |}.

Definition snoo : SnooDevice :=
  {| dev_account := JDict [("givenName", JStr "Pat")]; dev_baby := JNull;
     device := JDict [("serialNumber", JStr "SN1")];
     config := JDict [("weaning", JBool false)]; session := JNull;
     device_state_update := Some 800 |}.

(** A client at time 1000 with a token valid until 5000, its account and
    baby loaded, one known device, whose last full refresh was at [last],
    facing a vendor that answers with [replies], one after the other. *)
Definition home (last : option Z) (replies : list Json) : API :=
  {| gateway :=
       {| username := Some "parent@example.com"; password := Some "secret";
          _authentication_task := None; _invalid_credentials := false;
          _security_token := (Some "Bearer t", JStr "refresh-0", Some 5000, Some 0);
          world := {| now := 1000; utc_offset := 0; served := 0;
                      net := fun n => answer (nth n replies JNull);
                      bg_done := fun _ => false; trace := [] |} |};
     account := JDict [("givenName", JStr "Pat"); ("userId", JStr "u1")];
     baby := JDict [("_id", JStr "b1")];
     devices := [(KStr "SN1", snoo)];
     last_state_update := last |}.

Definition sent_urls (a : API) : list string :=
  flat_map (fun e => match e with Sent rq => [url rq] | Slept _ => [] end)
           (trace (world (gateway a))).

Definition sent_bodies (a : API) : list (string * option Json) :=
  flat_map (fun e => match e with Sent rq => [(method rq, json rq)] | Slept _ => [] end)
           (trace (world (gateway a))).

Definition session_blob : Json := JDict [("levels", JList [])].

(** Fifty seconds after the last full refresh: one request, for the
    session; the timestamp stays; the device has the new session and is
    otherwise as it was. *)
Example refresh_within_the_window :
  let a := home (Some 950) [session_blob] in
  RegistryFacts.within_throttle_window a /\
  fst (update_device_info a) = Ok tt /\
  sent_urls (snd (update_device_info a)) = [(BASE_ENDPOINT ++ SESSION_URI)%string] /\
  last_state_update (snd (update_device_info a)) = Some 950 /\
  devices (snd (update_device_info a)) = [(KStr "SN1", set_session session_blob snoo)].
Proof.
  cbv zeta. split.
  - exists 950. split; [reflexivity|]. vm_compute. reflexivity.
  - repeat split; vm_compute; reflexivity.
Qed.

(** Two hundred seconds after the last full refresh: the device list, the
    device's configuration and the session are fetched, and the timestamp
    is the time the call completed. *)
Example refresh_after_the_window :
  let a := home (Some 800)
             [JList [JDict [("serialNumber", JStr "SN1")]];
              JDict [("weaning", JBool true)]; session_blob] in
  RegistryFacts.after_throttle_window a /\
  fst (update_device_info a) = Ok tt /\
  sent_urls (snd (update_device_info a))
    = [(BASE_ENDPOINT ++ DEVICES_V11_URI)%string;
       (BASE_ENDPOINT ++ DEVICE_CONFIGS_URI "SN1")%string;
       (BASE_ENDPOINT ++ SESSION_URI)%string] /\
  last_state_update (snd (update_device_info a)) = Some 1003 /\
  now (world (gateway (snd (update_device_info a)))) = 1003.
Proof.
  cbv zeta. split.
  - vm_compute. discriminate.
  - repeat split; vm_compute; reflexivity.
Qed.

Definition weight_record : Dict :=
  [("type", JStr "weight"); ("startTime", JStr "2024-01-01T10:00:00Z");
   ("babyId", JStr "b1"); ("userId", JStr "u1");
   ("data", JDict [("weightImperial", JFloat 4.5%float);
                   ("weightMetric", JFloat 127.57%float)])].

(** Without [userId] the update fails and nothing is sent; the whole
    record is the body of the one [PUT]. *)
Example update_without_user_id :
  let a := home (Some 950) [session_blob] in
  let partial := [("type", JStr "weight"); ("startTime", JStr "2024-01-01T10:00:00Z");
                  ("babyId", JStr "b1"); ("data", JDict [])] in
  (exists message, fst (update_journal_entry "e1" partial a) = Raise (ValueError message)) /\
  sent_urls (snd (update_journal_entry "e1" partial a)) = [] /\
  fst (update_journal_entry "e1" weight_record a) = Ok session_blob /\
  trace (world (gateway (snd (update_journal_entry "e1" weight_record a))))
    = [Sent (authorized (Some "Bearer t") (JournalFacts.put_entry "e1" weight_record))].
Proof.
  cbv zeta. split; [eexists; vm_compute; reflexivity|].
  repeat split; vm_compute; reflexivity.
Qed.

(** A weight given in ounces is posted with its grams, a bottle given in
    millilitres with its ounces. *)
Example entries_carry_both_units :
  let a := home (Some 950) [session_blob] in
  sent_bodies (snd (create_weight_entry "b1" 1704103200 (Some 4.5%float) None None
                      (Some "u1") a))
    = [("post", Some (JDict weight_record))] /\
  sent_bodies (snd (create_feeding_entry "b1" 1704103200 "bottlefeeding" None
                      (Some 100%float) "formula" None (Some "u1") a))
    = [("post",
        Some (JDict [("type", JStr "bottlefeeding");
                     ("startTime", JStr "2024-01-01T10:00:00Z");
                     ("babyId", JStr "b1"); ("userId", JStr "u1");
                     ("data", JDict [("type", JStr "formula");
                                     ("amountImperial", JFloat 3.38%float);
                                     ("amountMetric", JFloat 100%float)])]))].
Proof.
  cbv zeta. split; vm_compute; reflexivity.
Qed.

(** A height of three quarters of an inch is posted with 1.91 cm: the
    product is the float just above 1.905. *)
Example a_tie_is_broken_by_the_float :
  in_to_cm 0.75%float = 1.91%float /\ oz_to_ml 50%float = 1478.67%float.
Proof. split; vm_compute; reflexivity. Qed.

End Scenarios.

(** ** Authentication: further properties *)

Module AuthenticationFacts.
Import Transport Gate.

(** X1: whatever lifetime the refresh endpoint declares, [_refresh_token]
    returns at least two hours (7200 s): a smaller [expires_in] is raised to
    7200, a missing one gives 7200, a larger integer is kept.  The token is
    the declared type and access token joined by a space. *)
Theorem refresh_lifetime_floor refresh_token w token refresh_token' expires w' :
  _refresh_token refresh_token w = (Ok (token, refresh_token', expires), w') ->
  2 * DEFAULT_TOKEN_REFRESH <= expires /\
  exists resp d,
    request_login request_json (refresh_request refresh_token) w = (Ok (resp, JDict d), w') /\
    token = Some (py_str (dict_get d "token_type") ++ " " ++ py_str (dict_get d "access_token"))%string /\
    refresh_token' = dict_get d "refresh_token" /\
    (forall n, dict_find d "expires_in" = Some (JInt n) -> expires = Z.max n 7200) /\
    (dict_find d "expires_in" = None -> expires = 7200).
Proof.
  unfold _refresh_token. intros H.
  apply bind_ok_inv in H. destruct H as ([resp data] & w1 & Hreq & H).
  apply bind_ok_inv in H. destruct H as (d & w2 & Hd & H).
  apply bind_ok_inv in H. destruct H as (e & w3 & He & H).
  unfold lift in Hd. destruct data; try discriminate Hd.
  cbn in Hd. inversion Hd; subst d w2; clear Hd.
  assert (Hw : w3 = w1 /\ (forall n, dict_find fields "expires_in" = Some (JInt n) -> e = n) /\
               (dict_find fields "expires_in" = None -> e = DEFAULT_TOKEN_REFRESH)).
  { unfold try_except, lift in He.
    unfold dict_get_default in *.
    destruct (dict_find fields "expires_in") as [v|] eqn:Hv.
    - destruct (py_int v) as [n|err] eqn:Hn.
      + inversion He; subst. split; [reflexivity|]. split; [|discriminate].
        intros n0 E. inversion E; subst. cbn in Hn. congruence.
      + destruct err; cbn in He; inversion He; subst.
        split; [reflexivity|]. split; [|discriminate].
        intros n0 E. inversion E; subst. discriminate Hn.
    - cbn in He. inversion He; subst. split; [reflexivity|]. split; [discriminate|]. auto. }
  destruct Hw as (-> & Hint & Hnone).
  unfold ret in H. inversion H; subst; clear H.
  change (DEFAULT_TOKEN_REFRESH * 2) with 7200.
  change (2 * DEFAULT_TOKEN_REFRESH) with 7200.
  change DEFAULT_TOKEN_REFRESH with 3600 in Hnone.
  split.
  - destruct (Z.ltb_spec e 7200); lia.
  - exists resp, fields. split; [exact Hreq|]. split; [reflexivity|]. split; [reflexivity|].
    split.
    + intros n Hn. rewrite (Hint n Hn). destruct (Z.ltb_spec n 7200); lia.
    + intros Hn. rewrite (Hnone Hn). reflexivity.
Qed.

(** A refresh endpoint that declares a lifetime of one minute. *)
Definition short_lived : World :=
  {| now := 1000; utc_offset := 0; served := 0;
     net := fun _ => GateFacts.refresh_reply "new" "refresh-1" 60;
     bg_done := fun _ => false; trace := [] |}.

Lemma refresh_lifetime_floor_witness :
  2 * DEFAULT_TOKEN_REFRESH <= 7200 /\
  exists resp d,
    request_login request_json (refresh_request (JStr "refresh-0")) short_lived
      = (Ok (resp, JDict d),
         exchanged (refresh_request (JStr "refresh-0")) short_lived) /\
    Some "Bearer new"
      = Some (py_str (dict_get d "token_type") ++ " "
              ++ py_str (dict_get d "access_token"))%string /\
    JStr "refresh-1" = dict_get d "refresh_token" /\
    (forall n, dict_find d "expires_in" = Some (JInt n) -> 7200 = Z.max n 7200) /\
    (dict_find d "expires_in" = None -> 7200 = 7200).
Proof.
  apply (refresh_lifetime_floor (JStr "refresh-0") short_lived
           (Some "Bearer new") (JStr "refresh-1") 7200
           (exchanged (refresh_request (JStr "refresh-0")) short_lived)).
  reflexivity.
Defined.

Lemma api_authenticate_cases u p w r w' :
  _api_authenticate u p w = (r, w') ->
  w' = exchanged (cognito_request u p) w /\
  match outcome (net w (served w)) with
  | Failed msg =>
      r = Raise (RequestError ("Network error during Cognito authentication: " ++ msg))
  | Answered st reason body =>
      if st =? 200 then
        match r with
        | Ok v =>
            exists data ar,
              decoded body = Parsed data /\
              py_getitem data "AuthenticationResult" = Ok (JDict ar) /\
              truthy (dict_get ar "IdToken") = true /\
              v = (Some (GateFacts.declared_token ar), dict_get ar "RefreshToken",
                   dict_get_default ar "ExpiresIn" (JInt DEFAULT_TOKEN_REFRESH))
        | Raise _ => True
        end
      else r = Raise (RequestError ("Cognito authentication failed: " ++ string_of_Z st
                                    ++ " - " ++ text body))
  end.
Proof.
  unfold _api_authenticate, try_except, bind.
  rewrite TransportFacts.exchange_unfold. cbn [andb fst snd].
  destruct (outcome (net w (served w))) as [st reason [body_text dec]|msg].
  2:{ cbn. intros H. inversion H. auto. }
  cbn [resp_status resp_body text decoded].
  destruct (Z.eqb_spec st 200) as [->|Hne].
  2:{ cbn. intros H. inversion H. auto. }
  cbn [negb]. unfold json_loads, lift. cbn [decoded].
  destruct dec as [data|err]; [|cbn; intros H; inversion H; auto].
  unfold ret at 1.
  destruct (py_contains data "AuthenticationResult") as [present|e];
    [|destruct e; cbn; intros H; inversion H; auto].
  destruct present; cbn [negb]; [|cbn; intros H; inversion H; auto].
  destruct (py_getitem data "AuthenticationResult") as [auth|e] eqn:Hg;
    [|destruct e; cbn; intros H; inversion H; auto].
  destruct (py_as_dict auth) as [ar|e] eqn:Had;
    [|destruct e; cbn; intros H; inversion H; auto].
  destruct auth; try discriminate Had. cbn in Had. inversion Had; subst ar; clear Had.
  destruct (truthy (dict_get fields "IdToken")) eqn:Hid; cbn [negb];
    [|cbn; intros H; inversion H; auto].
  cbn. intros H. inversion H. split; [reflexivity|].
  exists data, fields. auto.
Qed.

(** X2: a fresh login makes exactly one exchange, the Cognito
    [InitiateAuth] request, with no retry and no wait.  An answer whose
    status is not 200 and a network failure both surface as a Request
    error; the login succeeds only on a 200 whose body has an
    [AuthenticationResult] with a non-empty [IdToken], and then returns the
    token type and ID token joined by a space, the refresh token and the
    declared lifetime (an hour when none is declared). *)
Theorem cognito_login_is_tried_once u p w :
  snd (_api_authenticate u p w) = exchanged (cognito_request u p) w /\
  (forall st reason body,
     outcome (net w (served w)) = Answered st reason body -> st <> 200 ->
     fst (_api_authenticate u p w)
       = Raise (RequestError ("Cognito authentication failed: " ++ string_of_Z st
                              ++ " - " ++ text body))) /\
  (forall msg,
     outcome (net w (served w)) = Failed msg ->
     fst (_api_authenticate u p w)
       = Raise (RequestError ("Network error during Cognito authentication: " ++ msg))) /\
  (forall v,
     fst (_api_authenticate u p w) = Ok v ->
     exists reason body_text data ar,
       outcome (net w (served w))
         = Answered 200 reason {| text := body_text; decoded := Parsed data |} /\
       py_getitem data "AuthenticationResult" = Ok (JDict ar) /\
       truthy (dict_get ar "IdToken") = true /\
       v = (Some (GateFacts.declared_token ar), dict_get ar "RefreshToken",
            dict_get_default ar "ExpiresIn" (JInt DEFAULT_TOKEN_REFRESH))).
Proof.
  destruct (_api_authenticate u p w) as [r w'] eqn:H.
  destruct (api_authenticate_cases _ _ _ _ _ H) as [Hw Hr]. cbn [fst snd].
  split; [exact Hw|]. split; [|split].
  - intros st reason body Hout Hne. rewrite Hout in Hr.
    destruct (Z.eqb_spec st 200); [contradiction|exact Hr].
  - intros msg Hout. rewrite Hout in Hr. exact Hr.
  - intros v ->. destruct (outcome (net w (served w))) as [st reason [body_text dec]|msg];
      [|discriminate Hr].
    destruct (Z.eqb_spec st 200) as [->|]; [|discriminate Hr].
    destruct Hr as (data & ar & Hdec & Hget & Hid & Hv). cbn in Hdec. subst dec.
    exists reason, body_text, data, ar. auto.
Qed.

(** X3: the authentication coroutine never touches the user name, the
    password, the invalid-credentials flag or the task slot, and when it
    raises, the stored credential is exactly what it was: the credential is
    written only at the very end of a successful fresh login. *)
Theorem failed_authentication_keeps_credential g :
  let g' := snd (_authenticate g) in
  username g' = username g /\ password g' = password g /\
  _invalid_credentials g' = _invalid_credentials g /\
  _authentication_task g' = _authentication_task g /\
  (forall e, fst (_authenticate g) = Raise e -> _security_token g' = _security_token g).
Proof.
  cbv zeta. unfold _authenticate, bind, gets.
  destruct (_authenticate_begin g) as [refresh_token|u p]; cbn [_authenticate_resume];
    unfold bind, in_world, zoom.
  - destruct (_refresh_token refresh_token (world g)) as [[[[t r] e]|ex] w']; cbn;
      repeat split; reflexivity.
  - destruct (_api_authenticate u p (world g)) as [[[[tok rt] ex]|e] w']; cbn;
      [|repeat split; reflexivity].
    destruct tok as [tok|]; cbn; [|repeat split; reflexivity].
    unfold lift, gets. destruct (py_int_half ex) as [half|e]; cbn;
      [|repeat split; reflexivity].
    destruct (py_add_seconds (now w') half) as [expiry|e]; cbn;
      repeat split; try reflexivity. intros e E. discriminate E.
Qed.

(** X4: [authenticate(wait=False)] never uses the network and never
    changes the stored credential.  When a task exists the client is left
    exactly as it was and that task is returned; otherwise, with usable
    credentials, a task is scheduled and returned. *)
Theorem authenticate_without_waiting g :
  world (snd (authenticate false g)) = world g /\
  _security_token (snd (authenticate false g)) = _security_token g /\
  (forall t, _authentication_task g = Some t -> snd (authenticate false g) = g) /\
  (forall t, fst (authenticate false g) = Ok t ->
     t = Some (match _authentication_task g with Some t0 => t0 | None => Scheduled end) /\
     _authentication_task (snd (authenticate false g)) = t).
Proof.
  unfold authenticate, bind, gets.
  destruct (username g) as [u|] eqn:Hu, (password g) as [p|] eqn:Hp;
    try (cbn; split; [reflexivity|]; split; [reflexivity|];
         split; [reflexivity|intros t E; discriminate E]).
  destruct (_invalid_credentials g) eqn:Hinv;
    try (cbn; split; [reflexivity|]; split; [reflexivity|];
         split; [reflexivity|intros t E; discriminate E]).
  destruct (_authentication_task g) as [t0|] eqn:Ht; cbn.
  - split; [reflexivity|]. split; [reflexivity|]. split; [reflexivity|].
    intros t E. inversion E; subst. rewrite Ht. auto.
  - split; [reflexivity|]. split; [reflexivity|]. split; [intros t E; discriminate E|].
    intros t E. inversion E; subst. auto.
Qed.

(** X5: [authenticate(wait=True)] never raises a Request error (the
    task's Request errors come out as Authentication errors), returns
    [None] when it returns, and leaves the task slot empty both when it
    returns and when it raises an Authentication error. *)
Theorem authenticate_and_wait_outcome g :
  (forall m, fst (authenticate true g) <> Raise (RequestError m)) /\
  (forall t, fst (authenticate true g) = Ok t ->
     t = None /\ _authentication_task (snd (authenticate true g)) = None) /\
  (forall m, fst (authenticate true g) = Raise (AuthenticationError m) ->
     _authentication_task (snd (authenticate true g)) = None).
Proof.
  unfold authenticate, bind, gets.
  destruct (username g) as [u|], (password g) as [p|];
    try (cbn; split; [intros m E; discriminate E|];
         split; [intros t E; discriminate E|intros m E; discriminate E]).
  destruct (_invalid_credentials g);
    try (cbn; split; [intros m E; discriminate E|];
         split; [intros t E; discriminate E|intros m E; discriminate E]).
  set (g1 := snd (match _authentication_task g with
                  | Some _ => ret tt
                  | None => modify (set_authentication_task (Some Scheduled))
                  end g)).
  assert (E1 : match _authentication_task g with
               | Some _ => ret tt
               | None => modify (set_authentication_task (Some Scheduled))
               end g = (Ok tt, g1))
    by (subst g1; destruct (_authentication_task g); reflexivity).
  rewrite E1. unfold try_except.
  destruct (await_task g1) as [[[]|e] g2]; cbn.
  - split; [intros m E; discriminate E|].
    split; [intros t E; inversion E; auto|intros m E; discriminate E].
  - destruct e; cbn;
      (split; [intros m E; discriminate E|]);
      (split; [intros t E; discriminate E|]);
      intros m E; try discriminate E; reflexivity.
Qed.

End AuthenticationFacts.

(** ** The request gateway: further properties *)

Module GatewayFacts.
Import Transport Gate.

(** X6: with a stored token that has not expired and no authentication
    task, a request makes one exchange and no authentication: it is sent
    with the stored token in its [Authorization] header, its decoded answer
    is returned, and nothing of the client changes but the environment. *)
Theorem request_with_a_valid_token g rq tok refresh expiry last st reason body_text j :
  _authentication_task g = None ->
  _security_token g = (Some tok, refresh, Some expiry, last) ->
  now (world g) < expiry ->
  outcome (net (world g) (served (world g)))
    = Answered st reason {| text := body_text; decoded := Parsed j |} ->
  st < 400 ->
  request "json" rq false g =
    (Ok ({| resp_status := st; resp_reason := reason;
            resp_body := {| text := body_text; decoded := Parsed j |} |}, j),
     set_world (exchanged (authorized (Some tok) rq) (world g)) g).
Proof.
  intros Htask Htok Hnow Hok Hst.
  unfold request.
  change (REQUEST_METHODS "json") with (Some request_json). cbv iota beta.
  unfold bind at 1. unfold gets at 1. rewrite Htask.
  unfold bind at 1. unfold ret at 1.
  unfold bind at 1. unfold gets at 1. rewrite Htok.
  unfold bind at 1. unfold gets at 1.
  cbn [token_2 token_0 fst snd].
  destruct (Z.leb_spec expiry (now (world g))) as [Hle|_]; [lia|].
  unfold bind at 1. unfold ret at 1.
  unfold bind at 1. unfold gets at 1. rewrite Htok. cbn [token_0 fst snd].
  unfold try_except at 1. unfold bind at 1. unfold try_except at 1.
  unfold bind at 1.
  rewrite (GateFacts.suspended_without_task _ g Htask).
  rewrite (TransportFacts.request_json_answered _ _ st reason body_text j Hok Hst).
  reflexivity.
Qed.

Lemma authenticate_schedules g u p :
  username g = Some u -> password g = Some p ->
  _invalid_credentials g = false -> _authentication_task g = None ->
  authenticate false g
    = (Ok (Some Scheduled), set_authentication_task (Some Scheduled) g).
Proof.
  intros Hu Hp Hinv Htask. unfold authenticate, bind, gets.
  rewrite Hu, Hp, Hinv, Htask. reflexivity.
Qed.

(** X7: when the request sent again after a successful
    re-authentication is answered 401 too, [request] raises an
    Authentication error that names the URL, clears the stored credential
    and schedules a new authentication task, without waiting for it: three
    exchanges in all.  The login ends at a time that is a [datetime], and
    so is the expiry it stores: otherwise the re-authentication raises and
    the request is not sent again. *)
Theorem retry_rejected_again
    g rq u p old refresh expiry last reason0 body0
    seconds reason1 text1 d ar expires_in reason2 body2 :
  username g = Some u -> password g = Some p ->
  _invalid_credentials g = false ->
  _authentication_task g = None ->
  _security_token g = (Some old, refresh, Some expiry, last) ->
  now (world g) < expiry ->
  outcome (net (world g) (served (world g))) = Answered 401 reason0 body0 ->
  net (world g) (S (served (world g))) =
    {| elapsed := seconds;
       outcome := Answered 200 reason1
                    {| text := text1; decoded := Parsed (JDict d) |} |} ->
  dict_find d "AuthenticationResult" = Some (JDict ar) ->
  truthy (dict_get ar "IdToken") = true ->
  dict_find ar "ExpiresIn" = Some (JInt expires_in) ->
  Z.abs expires_in <= 2 ^ 53 ->
  is_datetime (GateFacts.login_done g seconds) ->
  is_datetime (GateFacts.login_done g seconds + Z.quot expires_in 2) ->
  outcome (net (world g) (S (S (served (world g))))) = Answered 401 reason2 body2 ->
  let r := fst (request "json" rq false g) in
  let g' := snd (request "json" rq false g) in
  r = Raise (AuthenticationError
               ("Error requesting data from " ++ url rq ++ ": 401 - " ++ reason2)) /\
  token_0 (_security_token g') = None /\
  token_2 (_security_token g') = None /\
  _authentication_task g' = Some Scheduled /\
  trace (world g') =
    trace (world g) ++ [Sent (authorized (Some old) rq);
                        Sent (cognito_request (Some u) (Some p));
                        Sent (authorized (Some old) rq)].
Proof.
  intros Hu Hp Hinv Htask Htok Hnow H401 Hlogin Har Hid Hexp Hsmall Hdone Hsum H401' r g'.
  subst r g'.
  set (w1 := exchanged (authorized (Some old) rq) (world g)).
  set (w2 := exchanged (cognito_request (Some u) (Some p)) w1).
  set (w3 := exchanged (authorized (Some old) rq) w2).
  assert (Hrun : request "json" rq false g =
    (Raise (AuthenticationError
              ("Error requesting data from " ++ url rq ++ ": 401 - " ++ reason2)),
     set_authentication_task (Some Scheduled)
       (set_security_token
          (None, JNull, None, Some (now w2 + utc_offset w2))
          (set_world w3 g)))).
  { unfold request.
    change (REQUEST_METHODS "json") with (Some request_json). cbv iota beta.
    unfold bind at 1. unfold gets at 1. rewrite Htask.
    unfold bind at 1. unfold ret at 1.
    unfold bind at 1. unfold gets at 1. rewrite Htok.
    unfold bind at 1. unfold gets at 1.
    cbn [token_2 token_0 fst snd].
    destruct (Z.leb_spec expiry (now (world g))) as [Hle|_]; [lia|].
    unfold bind at 1. unfold ret at 1.
    unfold bind at 1. unfold gets at 1. rewrite Htok. cbn [token_0 fst snd].
    unfold try_except at 1. unfold bind at 1. unfold try_except at 1.
    unfold bind at 1.
    rewrite (GateFacts.suspended_without_task _ g Htask).
    rewrite (TransportFacts.request_json_unauthorized _ _ _ _ H401). cbn [fst snd].
    change (401 =? 401) with true. cbv iota.
    unfold bind at 1. rewrite GateFacts.clear_security_token_spec.
    unfold bind at 1. unfold try_except at 1. unfold bind at 1.
    fold w1.
    rewrite (GateFacts.authenticate_blocking_fresh
               (set_security_token (None, JNull, None, token_3 (_security_token (set_world w1 g)))
                  (set_world w1 g))
               u p seconds reason1 text1 d ar expires_in);
      [ | exact Hu | exact Hp | exact Hinv | exact Htask | reflexivity
        | exact Hlogin | exact Har | exact Hid | exact Hexp | exact Hsmall
        | exact Hdone | exact Hsum ].
    unfold ret at 1. cbv iota beta. unfold ret at 1. cbv iota beta.
    match goal with
    | |- context [suspended _ ?s] => set (g4 := s)
    end.
    assert (Htask4 : _authentication_task g4 = None) by exact Htask.
    assert (Hw4 : world g4 = w2) by reflexivity.
    rewrite (GateFacts.suspended_without_task _ g4 Htask4), Hw4.
    rewrite (TransportFacts.request_json_unauthorized _ w2 reason2 body2 H401').
    cbn [fst snd]. change (401 =? 401) with true. cbv iota.
    unfold bind at 1. rewrite GateFacts.clear_security_token_spec.
    unfold bind at 1.
    match goal with
    | |- context [authenticate false ?s] => set (g5 := s)
    end.
    rewrite (authenticate_schedules g5 u p Hu Hp Hinv Htask).
    unfold raise. cbn [error_requesting]. f_equal.
    subst g5 g4. unfold set_authentication_task, set_security_token, set_world. cbn.
    rewrite Hlogin. reflexivity. }
  rewrite Hrun. cbn [fst snd].
  split; [reflexivity|]. split; [reflexivity|]. split; [reflexivity|].
  split; [reflexivity|].
  cbn. rewrite <- !app_assoc. reflexivity.
Qed.

Lemma api_authenticate_rejected u p w st reason body :
  outcome (net w (served w)) = Answered st reason body -> st <> 200 ->
  _api_authenticate u p w =
    (Raise (RequestError ("Cognito authentication failed: " ++ string_of_Z st
                          ++ " - " ++ text body)),
     exchanged (cognito_request u p) w).
Proof.
  intros Hout Hne. unfold _api_authenticate, try_except, bind.
  rewrite TransportFacts.exchange_unfold. rewrite Hout. cbn [andb fst snd resp_status].
  destruct (Z.eqb_spec st 200); [contradiction|]. reflexivity.
Qed.

Lemma authenticate_blocking_rejected g u p st reason body :
  username g = Some u -> password g = Some p ->
  _invalid_credentials g = false ->
  _authentication_task g = None ->
  token_2 (_security_token g) = None ->
  outcome (net (world g) (served (world g))) = Answered st reason body -> st <> 200 ->
  authenticate true g =
    (Raise (AuthenticationError ("Cognito authentication failed: " ++ string_of_Z st
                                 ++ " - " ++ text body)),
     set_world (exchanged (cognito_request (Some u) (Some p)) (world g)) g).
Proof.
  intros Hu Hp Hinv Htask Htok Hout Hne.
  unfold authenticate, bind, gets. rewrite Hu, Hp, Hinv, Htask.
  unfold modify at 1. unfold try_except, await_task, bind, gets.
  cbn [_authentication_task set_authentication_task].
  unfold task_finish, _authenticate, bind, gets.
  rewrite (GateFacts.authenticate_begin_fresh (set_authentication_task (Some Scheduled) g))
    by (unfold GateFacts.takes_fresh_login; cbn; rewrite Htok; exact I).
  cbn [_authenticate_resume]. unfold bind, in_world, zoom.
  cbn [world username password set_authentication_task].
  rewrite Hu, Hp.
  rewrite (api_authenticate_rejected (Some u) (Some p) (world g) st reason body Hout Hne).
  unfold modify, raise, set_world, set_authentication_task. cbn.
  rewrite Hu, Hp, Htask. reflexivity.
Qed.

(** X8: when the first attempt is answered 401 and Cognito then rejects
    the login, [request] raises an Authentication error that carries
    Cognito's status and text, the request is not sent again, the stored
    token is cleared (only the time of the last refresh stays) and no task
    is left. *)
Theorem reauthentication_rejected
    g rq u p old refresh expiry last reason0 body0 st reason1 body1 :
  username g = Some u -> password g = Some p ->
  _invalid_credentials g = false ->
  _authentication_task g = None ->
  _security_token g = (Some old, refresh, Some expiry, last) ->
  now (world g) < expiry ->
  outcome (net (world g) (served (world g))) = Answered 401 reason0 body0 ->
  outcome (net (world g) (S (served (world g)))) = Answered st reason1 body1 ->
  st <> 200 ->
  let r := fst (request "json" rq false g) in
  let g' := snd (request "json" rq false g) in
  r = Raise (AuthenticationError
               ("Error trying to re-authenticate to snoo service: "
                ++ "Cognito authentication failed: " ++ string_of_Z st
                ++ " - " ++ text body1)) /\
  _security_token g' = (None, JNull, None, last) /\
  _authentication_task g' = None /\
  trace (world g') =
    trace (world g) ++ [Sent (authorized (Some old) rq);
                        Sent (cognito_request (Some u) (Some p))].
Proof.
  intros Hu Hp Hinv Htask Htok Hnow H401 Hlogin Hne r g'. subst r g'.
  set (w1 := exchanged (authorized (Some old) rq) (world g)).
  set (w2 := exchanged (cognito_request (Some u) (Some p)) w1).
  assert (Hrun : request "json" rq false g =
    (Raise (AuthenticationError
               ("Error trying to re-authenticate to snoo service: "
                ++ "Cognito authentication failed: " ++ string_of_Z st
                ++ " - " ++ text body1)),
     set_world w2 (set_security_token (None, JNull, None, last) g))).
  { unfold request.
    change (REQUEST_METHODS "json") with (Some request_json). cbv iota beta.
    unfold bind at 1. unfold gets at 1. rewrite Htask.
    unfold bind at 1. unfold ret at 1.
    unfold bind at 1. unfold gets at 1. rewrite Htok.
    unfold bind at 1. unfold gets at 1.
    cbn [token_2 token_0 fst snd].
    destruct (Z.leb_spec expiry (now (world g))) as [Hle|_]; [lia|].
    unfold bind at 1. unfold ret at 1.
    unfold bind at 1. unfold gets at 1. rewrite Htok. cbn [token_0 fst snd].
    unfold try_except at 1. unfold bind at 1. unfold try_except at 1.
    unfold bind at 1.
    rewrite (GateFacts.suspended_without_task _ g Htask).
    rewrite (TransportFacts.request_json_unauthorized _ _ _ _ H401). cbn [fst snd].
    change (401 =? 401) with true. cbv iota.
    unfold bind at 1. rewrite GateFacts.clear_security_token_spec.
    unfold bind at 1. unfold try_except at 1. unfold bind at 1.
    fold w1.
    rewrite (authenticate_blocking_rejected
               (set_security_token (None, JNull, None, token_3 (_security_token (set_world w1 g)))
                  (set_world w1 g))
               u p st reason1 body1);
      [ | exact Hu | exact Hp | exact Hinv | exact Htask | reflexivity
        | exact Hlogin | exact Hne ].
    cbn [reauthenticate_failed]. unfold raise. f_equal.
    unfold set_security_token, set_world. cbn. rewrite Htok. reflexivity. }
  rewrite Hrun. cbn [fst snd].
  split; [reflexivity|]. split; [reflexivity|]. split; [exact Htask|].
  cbn. rewrite <- !app_assoc. reflexivity.
Qed.

(** A client with a token good until 5000, at time 1000. *)
Definition trusted_client (replies : nat -> Reply) : Gateway :=
  {| username := Some "parent@example.com"; password := Some "secret";
     _authentication_task := None; _invalid_credentials := false;
     _security_token := (Some "Bearer t", JStr "refresh-0", Some 5000, Some 0);
     world := {| now := 1000; utc_offset := 0; served := 0; net := replies;
                 bg_done := fun _ => false; trace := [] |} |}.

Definition account_reply : Reply :=
  {| elapsed := 1;
     outcome := Answered 200 "OK"
       {| text := ""; decoded := Parsed (JDict [("userId", JStr "u1")]) |} |}.

Definition unauthorized_reply : Reply :=
  {| elapsed := 1;
     outcome := Answered 401 "Unauthorized" {| text := ""; decoded := Parsed JNull |} |}.

Definition rejected_login_reply : Reply :=
  {| elapsed := 1;
     outcome := Answered 400 "Bad Request"
       {| text := "NotAuthorizedException"; decoded := Parsed JNull |} |}.

Lemma request_with_a_valid_token_witness :
  request "json" GateFacts.get_account_request false (trusted_client (fun _ => account_reply))
  = (Ok ({| resp_status := 200; resp_reason := "OK";
            resp_body := {| text := "";
                            decoded := Parsed (JDict [("userId", JStr "u1")]) |} |},
         JDict [("userId", JStr "u1")]),
     set_world (exchanged (authorized (Some "Bearer t") GateFacts.get_account_request)
                  (world (trusted_client (fun _ => account_reply))))
       (trusted_client (fun _ => account_reply))).
Proof.
  apply (request_with_a_valid_token (trusted_client (fun _ => account_reply))
           GateFacts.get_account_request "Bearer t" (JStr "refresh-0") 5000 (Some 0)
           200 "OK" "" (JDict [("userId", JStr "u1")])).
  - reflexivity.
  - reflexivity.
  - cbn. lia.
  - reflexivity.
  - lia.
Defined.

(** The server rejects the token, Cognito accepts the login, and the
    server rejects the request again. *)
Definition twice_rejected : nat -> Reply :=
  fun n => match n with
           | 1%nat => GateFacts.login_reply 1 "Bearer" "new" "refresh-1" 10800
           | _ => unauthorized_reply
           end.

Lemma retry_rejected_again_witness :
  fst (request "json" GateFacts.get_account_request false (trusted_client twice_rejected))
    = Raise (AuthenticationError
               ("Error requesting data from " ++ url GateFacts.get_account_request
                ++ ": 401 - " ++ "Unauthorized")) /\
  token_0 (_security_token
             (snd (request "json" GateFacts.get_account_request false
                     (trusted_client twice_rejected)))) = None /\
  token_2 (_security_token
             (snd (request "json" GateFacts.get_account_request false
                     (trusted_client twice_rejected)))) = None /\
  _authentication_task
    (snd (request "json" GateFacts.get_account_request false
            (trusted_client twice_rejected))) = Some Scheduled /\
  trace (world (snd (request "json" GateFacts.get_account_request false
                       (trusted_client twice_rejected)))) =
    trace (world (trusted_client twice_rejected))
    ++ [Sent (authorized (Some "Bearer t") GateFacts.get_account_request);
        Sent (cognito_request (Some "parent@example.com") (Some "secret"));
        Sent (authorized (Some "Bearer t") GateFacts.get_account_request)].
Proof.
  apply (retry_rejected_again (trusted_client twice_rejected) GateFacts.get_account_request
           "parent@example.com" "secret" "Bearer t" (JStr "refresh-0") 5000 (Some 0)
           "Unauthorized" {| text := ""; decoded := Parsed JNull |}
           1 "OK" ""
           [("AuthenticationResult",
             JDict [("IdToken", JStr "new"); ("RefreshToken", JStr "refresh-1");
                    ("ExpiresIn", JInt 10800); ("TokenType", JStr "Bearer")])]
           [("IdToken", JStr "new"); ("RefreshToken", JStr "refresh-1");
            ("ExpiresIn", JInt 10800); ("TokenType", JStr "Bearer")]
           10800 "Unauthorized" {| text := ""; decoded := Parsed JNull |}).
  - reflexivity.
  - reflexivity.
  - reflexivity.
  - reflexivity.
  - reflexivity.
  - cbn. lia.
  - reflexivity.
  - reflexivity.
  - reflexivity.
  - reflexivity.
  - reflexivity.
  - cbn. lia.
  - unfold is_datetime, DATETIME_MIN, DATETIME_MAX. cbn. lia.
  - unfold is_datetime, DATETIME_MIN, DATETIME_MAX. cbn. lia.
  - reflexivity.
Defined.

(** The server rejects the token and Cognito rejects the login. *)
Definition locked_out : nat -> Reply :=
  fun n => match n with
           | O => unauthorized_reply
           | _ => rejected_login_reply
           end.

Lemma reauthentication_rejected_witness :
  fst (request "json" GateFacts.get_account_request false (trusted_client locked_out))
    = Raise (AuthenticationError
               ("Error trying to re-authenticate to snoo service: "
                ++ "Cognito authentication failed: " ++ string_of_Z 400
                ++ " - " ++ "NotAuthorizedException")) /\
  _security_token (snd (request "json" GateFacts.get_account_request false
                          (trusted_client locked_out)))
    = (None, JNull, None, Some 0) /\
  _authentication_task (snd (request "json" GateFacts.get_account_request false
                               (trusted_client locked_out))) = None /\
  trace (world (snd (request "json" GateFacts.get_account_request false
                       (trusted_client locked_out)))) =
    trace (world (trusted_client locked_out))
    ++ [Sent (authorized (Some "Bearer t") GateFacts.get_account_request);
        Sent (cognito_request (Some "parent@example.com") (Some "secret"))].
Proof.
  apply (reauthentication_rejected (trusted_client locked_out) GateFacts.get_account_request
           "parent@example.com" "secret" "Bearer t" (JStr "refresh-0") 5000 (Some 0)
           "Unauthorized" {| text := ""; decoded := Parsed JNull |}
           400 "Bad Request" {| text := "NotAuthorizedException"; decoded := Parsed JNull |}).
  - reflexivity.
  - reflexivity.
  - reflexivity.
  - reflexivity.
  - reflexivity.
  - cbn. lia.
  - reflexivity.
  - reflexivity.
  - lia.
Defined.

(** X9: a [returns] other than "json" and "response" makes [request]
    raise a Request error that names it, before anything is sent and with
    the client unchanged: also for a login request. *)
Theorem unknown_return_object returns rq login_request g :
  returns <> "json" -> returns <> "response" ->
  request returns rq login_request g
    = (Raise (RequestError ("Invalid return object requested: " ++ returns)), g).
Proof.
  intros Hj Hr. unfold request, REQUEST_METHODS.
  destruct (String.eqb_spec returns "json"); [contradiction|].
  destruct (String.eqb_spec returns "response"); [contradiction|].
  reflexivity.
Qed.

Lemma unknown_return_object_witness :
  request "text" GateFacts.get_account_request false (trusted_client (fun _ => account_reply))
  = (Raise (RequestError ("Invalid return object requested: " ++ "text")),
     trusted_client (fun _ => account_reply)).
Proof.
  apply (unknown_return_object "text" GateFacts.get_account_request false
           (trusted_client (fun _ => account_reply))).
  - discriminate.
  - discriminate.
Defined.

Lemma request_json_world rq w :
  snd (request_json rq w) = snd (_send_request rq w).
Proof.
  unfold request_json, bind. destruct (_send_request rq w) as [[resp|e] w']; [|reflexivity].
  unfold response_json. destruct (decoded (resp_body resp)); reflexivity.
Qed.

Lemma request_login_world call rq w :
  snd (request_login call rq w) = snd (call rq w).
Proof.
  unfold request_login, try_except. destruct (call rq w) as [[v|e] w']; [reflexivity|].
  destruct e; reflexivity.
Qed.

(** X10: a login request goes straight to Transport: the request is
    sent as given, without an [Authorization] header, between one and five
    times; nothing of the client changes but the environment; and aiohttp's
    [ClientError] and [ClientResponseError] never escape, they come out as
    Request errors. *)
Theorem login_request_bypasses_the_gateway rq g :
  let r := fst (request "json" rq true g) in
  let g' := snd (request "json" rq true g) in
  g' = set_world (world g') g /\
  (exists k, (1 <= k <= 5)%nat /\
     trace (world g') = trace (world g) ++ TransportFacts.attempts_log rq k) /\
  (forall st m, r <> Raise (ClientResponseError st m)) /\
  (forall m, r <> Raise (ClientError m)).
Proof.
  cbv zeta. unfold request.
  change (REQUEST_METHODS "json") with (Some request_json). cbv iota beta.
  unfold in_world, zoom.
  pose proof (request_login_world request_json rq (world g)) as Hw.
  rewrite request_json_world in Hw.
  destruct (request_login request_json rq (world g)) as [r w'] eqn:Hrun.
  cbn [fst snd] in *. subst w'.
  split; [reflexivity|]. split.
  - destruct (_send_request rq (world g)) as [r0 w0] eqn:Hs. unfold _send_request in Hs.
    destruct (TransportFacts.loop_spec _ _ _ _ _ _ _ Hs) as (_ & k & Hk & Htr & _ & Hcase).
    cbn [snd]. exists k. split; [|exact Htr].
    destruct Hcase as [(_ & Hz & _)|(Hk1 & _)]; [discriminate Hz|].
    unfold DEFAULT_REQUEST_RETRIES in Hk. lia.
  - unfold request_login, try_except in Hrun.
    destruct (request_json rq (world g)) as [[v|e] w1]; [inversion Hrun; subst|].
    + split; intros; discriminate.
    + destruct e; inversion Hrun; subst; split; intros; discriminate.
Qed.

End GatewayFacts.

(** ** The device registry: further properties *)

Module RegistryInvariants.
Import Transport Gate Registry RegistryFacts.

(** The serial numbers known to [a] are still known to [a'], in the same
    order, and new ones come after them. *)
Definition keeps_devices (a a' : API) : Prop :=
  exists new, map fst (devices a') = map fst (devices a) ++ new.

Lemma keeps_devices_refl a : keeps_devices a a.
Proof. exists []. now rewrite app_nil_r. Qed.

Lemma keeps_devices_trans a b c :
  keeps_devices a b -> keeps_devices b c -> keeps_devices a c.
Proof.
  intros [n1 H1] [n2 H2]. exists (n1 ++ n2). rewrite H2, H1, app_assoc. reflexivity.
Qed.

Lemma keeps_devices_same a a' : devices a' = devices a -> keeps_devices a a'.
Proof. intros H. exists []. rewrite H, app_nil_r. reflexivity. Qed.

Lemma devices_set_new ds k d :
  devices_find ds k = None -> map fst (devices_set ds k d) = map fst ds ++ [k].
Proof.
  induction ds as [|[k' d'] ds IH]; cbn; [reflexivity|].
  destruct (key_eqb k k'); [discriminate|]. intros H. cbn. rewrite (IH H). reflexivity.
Qed.

Lemma keeps_devices_set a k d :
  keeps_devices a (set_devices (devices_set (devices a) k d) a).
Proof.
  unfold keeps_devices. cbn [devices set_devices].
  destruct (devices_find (devices a) k) as [d0|] eqn:H.
  - exists []. rewrite (RegistryFacts.devices_set_keys _ _ _ _ H), app_nil_r. reflexivity.
  - exists [k]. apply devices_set_new. exact H.
Qed.

Lemma keeps_devices_gateway {A} (m : M Gateway A) : steps keeps_devices (in_gateway m).
Proof.
  intros a. apply keeps_devices_same. unfold in_gateway, zoom.
  destruct (m (gateway a)). reflexivity.
Qed.

Lemma keeps_devices_get_json url : steps keeps_devices (get_json url).
Proof.
  pose proof keeps_devices_refl. pose proof keeps_devices_trans.
  unfold get_json. steps_with ltac:(apply keeps_devices_gateway).
Qed.

Ltac devices_known :=
  idtac; lazymatch goal with
  | |- steps _ (get_json _) => apply keeps_devices_get_json
  | |- steps _ account_givenName =>
      apply steps_account_givenName;
      [apply keeps_devices_refl | apply keeps_devices_trans]
  | |- steps _ (modify _) =>
      apply steps_modify; intros ?; first
        [ apply keeps_devices_set
        | apply keeps_devices_same; reflexivity
        | match goal with
          | |- keeps_devices _ (match ?x with _ => _ end) =>
              destruct x; first [apply keeps_devices_set | apply keeps_devices_refl]
          end ]
  end.

Lemma keeps_devices_update : steps keeps_devices update_device_info.
Proof.
  pose proof keeps_devices_refl. pose proof keeps_devices_trans.
  unfold update_device_info, refresh_sessions, attach_session, _get_device_details,
    refresh_device, _add_new_device, get_account, get_baby_for_account,
    get_babies_v10, get_session_for_account, get_configs_for_device, utcnow.
  steps_with devices_known.
Qed.

Lemma devices_find_keys ds k :
  devices_find ds k <> None <-> In k (map fst ds).
Proof.
  induction ds as [|[k' d] ds IH]; cbn.
  - split; [intros H; contradiction|intros []].
  - destruct (RegistryFacts.key_eqb_spec k k') as [->|Hne].
    + split; [auto|intros _; discriminate].
    + rewrite IH. split; [auto|intros [E|H]; [congruence|exact H]].
Qed.

(** X11: [update_device_info] never forgets a device: whatever the
    vendor answers, and whether the call returns or raises, the serial
    numbers known before are still known after it, in the same order, and
    new ones come after them. *)
Theorem registry_never_forgets_a_device a :
  (exists new,
     map fst (devices (snd (update_device_info a))) = map fst (devices a) ++ new) /\
  (forall serial_number,
     devices_find (devices a) serial_number <> None ->
     devices_find (devices (snd (update_device_info a))) serial_number <> None).
Proof.
  destruct (keeps_devices_update a) as [new Hnew].
  split; [exists new; exact Hnew|].
  intros serial Hfind.
  apply devices_find_keys. rewrite Hnew. apply in_or_app. left.
  apply devices_find_keys. exact Hfind.
Qed.


(** The last full refresh is as it was, and time has not gone back. *)
Definition refresh_pending (a a' : API) : Prop :=
  last_state_update a' = last_state_update a /\ api_grows a a'.

Lemma refresh_pending_refl a : refresh_pending a a.
Proof. split; [reflexivity|apply api_grows_refl]. Qed.

Lemma refresh_pending_trans a b c :
  refresh_pending a b -> refresh_pending b c -> refresh_pending a c.
Proof.
  intros [L1 G1] [L2 G2]. split; [congruence|eapply api_grows_trans; eassumption].
Qed.

Ltac refresh_pending_side_conditions :=
  first
    [ exact grows_refl | exact grows_trans | exact grows_sleep
    | exact RequestFacts.gateway_grows_refl | exact RequestFacts.gateway_grows_trans
    | exact refresh_pending_refl | exact refresh_pending_trans
    | exact I
    | exact (fun _ => I)
    | solve [intros; apply grows_exchange]
    | solve [intros; exact I]
    | solve [intros; apply grows_refl]
    | solve [intros ? ? H; exact H]
    | solve [intros; split; [reflexivity|apply grows_refl]]
    | solve [intros ? ? H; split; [reflexivity|exact H]] ].

Lemma refresh_pending_get_account : steps refresh_pending get_account.
Proof.
  apply (steps_get_account grows) with (good_url := fun _ => True) (Rg := gateway_grows);
    refresh_pending_side_conditions.
Qed.

Lemma refresh_pending_get_baby : steps refresh_pending get_baby_for_account.
Proof.
  apply (steps_get_baby_for_account grows)
    with (good_url := fun _ => True) (Rg := gateway_grows);
    refresh_pending_side_conditions.
Qed.

Lemma refresh_pending_details : steps refresh_pending _get_device_details.
Proof.
  apply (steps_get_device_details grows)
    with (good_url := fun _ => True) (Rg := gateway_grows);
    refresh_pending_side_conditions.
Qed.

(** [on_raise R m]: when [m] raises, the state it leaves is related by
    [R] to the one it started from. *)
Definition on_raise {S A} (R : S -> S -> Prop) (m : M S A) : Prop :=
  forall s e s', m s = (Raise e, s') -> R s s'.

Lemma on_raise_bind {S A B} (R : S -> S -> Prop) (m : M S A) (k : A -> M S B) :
  (forall a b c, R a b -> R b c -> R a c) ->
  steps R m -> (forall x, on_raise R (k x)) -> on_raise R (bind m k).
Proof.
  intros Rtrans Hm Hk s e s' H.
  destruct (bind_inv _ _ _ _ _ H) as [(x & s1 & Hx & Hkx)|(e0 & He & _)].
  - apply (Rtrans _ s1).
    + specialize (Hm s). rewrite Hx in Hm. exact Hm.
    + exact (Hk x _ _ _ Hkx).
  - specialize (Hm s). rewrite He in Hm. exact Hm.
Qed.

Lemma full_refresh_on_raise : on_raise refresh_pending full_refresh.
Proof.
  pose proof refresh_pending_refl as Hrefl. pose proof refresh_pending_trans as Htrans.
  unfold full_refresh.
  apply on_raise_bind; [exact Htrans|apply steps_gets; exact Hrefl|intros acc].
  apply on_raise_bind; [exact Htrans| |intros _].
  { destruct acc;
      steps_with ltac:(first
        [ apply refresh_pending_get_account
        | apply steps_modify; intros ?; split; [reflexivity|apply grows_refl] ]). }
  apply on_raise_bind; [exact Htrans|apply steps_gets; exact Hrefl|intros b].
  apply on_raise_bind; [exact Htrans| |intros _].
  { destruct b;
      steps_with ltac:(first
        [ apply refresh_pending_get_baby
        | apply steps_modify; intros ?; split; [reflexivity|apply grows_refl] ]). }
  apply on_raise_bind; [exact Htrans|apply refresh_pending_details|intros _].
  intros s e s' H. discriminate H.
Qed.

(** X12: a full refresh that raises does not set the timestamp of the
    last full refresh to the time it ended, so the refresh is still due: the
    next call to [update_device_info], whenever it comes, is a full refresh
    again and not the cheap one. *)
Theorem failed_refresh_is_due_again a e :
  after_throttle_window a ->
  fst (update_device_info a) = Raise e ->
  after_throttle_window (snd (update_device_info a)) /\
  api_now a <= api_now (snd (update_device_info a)).
Proof.
  intros Hafter Hr. rewrite (update_device_info_full a Hafter) in *.
  set (a0 := match last_state_update a with
             | None => set_last_state_update
                         (Some (api_now a - DEFAULT_DEVICE_UPDATE_INTERVAL)) a
             | Some _ => a
             end) in *.
  assert (H0 : exists t, last_state_update a0 = Some t /\
                         DEFAULT_DEVICE_UPDATE_INTERVAL <= api_now a - t /\
                         api_world a0 = api_world a).
  { subst a0. unfold after_throttle_window in Hafter.
    destruct (last_state_update a) as [t|] eqn:Ht.
    - exists t. auto.
    - eexists. split; [reflexivity|]. split; [|reflexivity].
      unfold DEFAULT_DEVICE_UPDATE_INTERVAL. lia. }
  destruct H0 as (t & Ht & Hdue & Hw).
  destruct (full_refresh a0) as [r a'] eqn:Hrun. cbn [fst snd] in *. subst r.
  destruct (full_refresh_on_raise _ _ _ Hrun) as [Hlast Hgrow].
  unfold after_throttle_window. rewrite Hlast, Ht.
  destruct Hgrow as (_ & _ & Hnow & _).
  unfold api_now, api_world in *. rewrite Hw in Hnow.
  split; lia.
Qed.

(** The last full refresh was 200 seconds ago, and the network is down. *)
Definition cut_off : API :=
  {| gateway :=
       {| username := Some "parent@example.com"; password := Some "secret";
          _authentication_task := None; _invalid_credentials := false;
          _security_token := (Some "Bearer t", JStr "refresh-0", Some 5000, Some 0);
          world := TransportFacts.unreachable |};
     account := JDict [("givenName", JStr "Pat"); ("userId", JStr "u1")];
     baby := JDict [("_id", JStr "b1")];
     devices := [(KStr "SN1", Scenarios.snoo)];
     last_state_update := Some (-200) |}.

Lemma failed_refresh_is_due_again_witness :
  after_throttle_window (snd (update_device_info cut_off)) /\
  api_now cut_off <= api_now (snd (update_device_info cut_off)).
Proof.
  apply (failed_refresh_is_due_again cut_off
           (RequestError
              ("Error requesting data from " ++ BASE_ENDPOINT ++ DEVICES_URI ++ ": "
               ++ "Cannot connect to host"))).
  - vm_compute. discriminate.
  - vm_compute. reflexivity.
Defined.

(** X13: [get_account] changes nothing of the client but the gateway's
    state; what it returns is [None] or an account that has a [userId]
    (an answer without one is dropped); and it asks only the v10 account
    endpoint, the legacy one and the authentication endpoints. *)
Theorem get_account_needs_a_user_id a :
  snd (get_account a) = set_gateway (gateway (snd (get_account a))) a /\
  (forall acc, fst (get_account a) = Ok acc ->
     acc = JNull \/
     exists d v, acc = JDict d /\ dict_find d "userId" = Some v /\ v <> JNull) /\
  emits (fun rq => authentication_url (url rq) \/
                   url rq = (BASE_ENDPOINT ++ ACCOUNT_V10_URI)%string \/
                   url rq = (BASE_ENDPOINT ++ ACCOUNT_URI)%string)
        (world (gateway a)) (world (gateway (snd (get_account a)))).
Proof.
  split; [|split].
  - unfold get_account, bind, try_except.
    pose proof (RegistryFacts.get_json_frame (BASE_ENDPOINT ++ ACCOUNT_V10_URI) a) as H1.
    destruct (get_json (BASE_ENDPOINT ++ ACCOUNT_V10_URI) a) as [[j|e] a1] eqn:E1.
    + destruct (H1 _ _ eq_refl) as [Hf _].
      destruct j; cbn; try exact Hf.
      destruct (dict_get fields "userId"); cbn; exact Hf.
    + destruct (H1 _ _ eq_refl) as [Hf _].
      assert (Hleg : forall r a2, get_json (BASE_ENDPOINT ++ ACCOUNT_URI) a1 = (r, a2) ->
                                  a2 = set_gateway (gateway a2) a).
      { intros r a2 H2. destruct (RegistryFacts.get_json_frame _ _ _ _ H2) as [Hf2 _].
        rewrite Hf2, Hf. reflexivity. }
      destruct (is_Exception e); [|cbn; exact Hf].
      destruct (get_json (BASE_ENDPOINT ++ ACCOUNT_URI) a1) as [[j|e2] a2] eqn:E2;
        specialize (Hleg _ _ eq_refl).
      * destruct j; cbn; try exact Hleg.
        destruct (dict_get fields "userId"); cbn; exact Hleg.
      * cbn. exact Hleg.
  - intros acc H. destruct (get_account a) as [r a'] eqn:Hrun. cbn in H. subst r.
    unfold get_account in Hrun.
    apply bind_ok_inv in Hrun. destruct Hrun as (resp & a1 & _ & Hk).
    destruct resp; try (inversion Hk; left; reflexivity);
      try (cbn in Hk; discriminate Hk).
    cbn in Hk. unfold dict_get, dict_get_default in Hk.
    destruct (dict_find fields "userId") as [v|] eqn:Hv.
    + destruct v; inversion Hk; subst;
        first [left; reflexivity
              | right; eexists _, _; split; [reflexivity|split; [exact Hv|discriminate]]].
    + inversion Hk. left. reflexivity.
  - set (allowed := fun rq => authentication_url (url rq) \/
                   url rq = (BASE_ENDPOINT ++ ACCOUNT_V10_URI)%string \/
                   url rq = (BASE_ENDPOINT ++ ACCOUNT_URI)%string).
    set (R := fun x y : API => emits allowed (world (gateway x)) (world (gateway y))).
    assert (Hrefl : forall x, R x x) by (intros x; apply emits_refl).
    assert (Htrans : forall x y z, R x y -> R y z -> R x z)
      by (intros x y z; apply emits_trans).
    assert (Hjson : forall u, allowed (a_request "get" u) -> steps R (get_json u)).
    { intros u Hu.
      apply (steps_get_json (emits allowed) (emits_refl allowed) (emits_trans allowed)
               (emits_sleep allowed) (fun u' => allowed (a_request "get" u')))
        with (Rg := fun g g' => emits allowed (world g) (world g')).
      - intros rf rq w H. apply emits_exchange. exact H.
      - left. left. reflexivity.
      - left. right. reflexivity.
      - intros g. apply emits_refl.
      - intros x y z. apply emits_trans.
      - intros t g. apply emits_refl.
      - intros t g. apply emits_refl.
      - intros g w H. exact H.
      - exact Hrefl.
      - exact Htrans.
      - intros x g H. exact H.
      - exact Hu. }
    change (R a (snd (get_account a))).
    generalize a. change (steps R get_account). unfold get_account.
    steps_with ltac:(first
      [ apply Hjson; right; left; reflexivity
      | apply Hjson; right; right; reflexivity ]).
Qed.

End RegistryInvariants.


(** ** The journal client: further properties *)

Module EntryFacts.
Import Transport Gate Registry Journal.
Import PrimFloat.

(** X14: when the user id cannot be detected, [_get_user_id] raises a
    Value error whatever went wrong underneath (a Request error, an
    Authentication error, a malformed answer), a cancellation apart; and
    the id it returns is never empty or [None]. *)
Theorem user_id_detection_outcome baby_id a :
  (forall e, fst (_get_user_id baby_id a) = Raise e ->
     (exists message, e = ValueError message) \/ e = CancelledError) /\
  (forall user_id, fst (_get_user_id baby_id a) = Ok user_id -> truthy user_id = true).
Proof.
  destruct (_get_user_id baby_id a) as [r a'] eqn:Hrun. cbn [fst].
  unfold _get_user_id in Hrun.
  destruct (try_except_inv _ _ _ _ _ Hrun) as [(v & Hbody & ->)|(e0 & a1 & Hbody & Hh)].
  - split; [intros e E; discriminate E|].
    intros user_id E. inversion E; subst v; clear E.
    apply bind_ok_inv in Hbody. destruct Hbody as (end_date & s1 & _ & Hbody).
    apply bind_ok_inv in Hbody. destruct Hbody as (entries & s2 & _ & Hbody).
    apply bind_ok_inv in Hbody. destruct Hbody as (found & s3 & _ & Hbody).
    destruct (truthy found) eqn:Ht; [|discriminate Hbody].
    inversion Hbody; subst. exact Ht.
  - split; [|intros user_id E; subst r; destruct (is_Exception e0); discriminate Hh].
    intros e E. subst r. destruct e0; cbn in Hh; inversion Hh; eauto.
Qed.

(** The body of the POST of a weight, height or head entry. *)
Definition measure_record (journal_type imperial_key metric_key baby_id : string)
    (start_time : datetime) (imperial metric : option PrimFloat.float)
    (note : option string) (user_id : string) : Dict :=
  with_note note
    [("type", JStr journal_type);
     ("startTime", JStr (strftime_seconds start_time));
     ("babyId", JStr baby_id);
     ("userId", JStr user_id);
     ("data", JDict [(imperial_key, opt_float imperial); (metric_key, opt_float metric)])].

(** What a call of [self.api.request] may send: the request itself and
    what authentication needs. *)
Lemma api_request_emits http_method address query body a :
  emits (fun rq' => authentication_url (url rq') \/
                    (method rq' = http_method /\ url rq' = address /\
                     params rq' = query /\ json rq' = body))
        (world (gateway a))
        (world (gateway (snd (api_request http_method address query body a)))).
Proof.
  unfold api_request, bind, in_gateway, zoom.
  match goal with
  | |- context [request "json" ?rq false (gateway a)] =>
      pose proof (request_emits "json" rq false (gateway a)) as He;
      destruct (request "json" rq false (gateway a)) as [[[resp response]|e] g']
  end; cbn in *;
    (destruct He as (evs & Htr & Hall); exists evs; split; [exact Htr|];
     eapply Forall_impl; [|exact Hall];
     intros [rq|n]; [|auto];
     intros [Hauth|[->|[h ->]]]; [left; exact Hauth|right; auto|right; auto]).
Qed.

(** X15: a weight, height or head entry given in at least one unit, with
    a user id, is posted with both units filled in, neither of them
    [None]; and every request the call sends is an authentication exchange
    or that POST to the journal endpoint, with that record as its body. *)
Theorem measure_entry_is_posted_in_both_units
    journal_type imperial_key metric_key to_metric to_imperial missing
    baby_id start_time imperial metric note c user_id a :
  imperial <> None \/ metric <> None ->
  let filled := fill_missing_unit to_metric to_imperial imperial metric in
  let record := measure_record journal_type imperial_key metric_key baby_id start_time
                  (fst filled) (snd filled) note (String c user_id) in
  fst filled <> None /\ snd filled <> None /\
  create_measure_entry journal_type imperial_key metric_key to_metric to_imperial missing
      baby_id start_time imperial metric note (Some (String c user_id)) a
    = post_journal record a /\
  emits (fun rq => authentication_url (url rq) \/
                   (method rq = "post" /\
                    url rq = (BASE_ENDPOINT ++ JOURNALS_CREATE_URI)%string /\
                    json rq = Some (JDict record)))
        (world (gateway a)) (world (gateway (snd (post_journal record a)))).
Proof.
  intros Hgiven filled record.
  split; [|split; [|split]].
  - subst filled. unfold fill_missing_unit.
    destruct imperial, metric; cbn; try discriminate.
    destruct Hgiven as [H|H]; exact H.
  - subst filled. unfold fill_missing_unit.
    destruct imperial, metric; cbn; try discriminate.
    destruct Hgiven as [H|H]; exact H.
  - unfold create_measure_entry.
    destruct imperial as [x|], metric as [y|]; cbn;
      try (destruct Hgiven as [H|H]; contradiction); reflexivity.
  - unfold post_journal.
    destruct (api_request_emits "post" (BASE_ENDPOINT ++ JOURNALS_CREATE_URI) None
                (Some (JDict record)) a) as (evs & Htr & Hall).
    exists evs. split; [exact Htr|].
    eapply Forall_impl; [|exact Hall]. intros [rq|n]; [|auto].
    intros [Hauth|(Hm & Hu & _ & Hj)]; [left; exact Hauth|right; auto].
Qed.

Lemma measure_entry_is_posted_in_both_units_witness :
  create_weight_entry "b1" 86400 (Some 4.5%float) None None (Some "u1")
      (Scenarios.home None [])
  = post_journal
      (measure_record JOURNAL_TYPES_WEIGHT "weightImperial" "weightMetric" "b1" 86400
         (Some 4.5%float) (Some (oz_to_g 4.5%float)) None "u1")
      (Scenarios.home None []).
Proof.
  apply (measure_entry_is_posted_in_both_units
           JOURNAL_TYPES_WEIGHT "weightImperial" "weightMetric" oz_to_g g_to_oz
           "Either weight_imperial or weight_metric must be provided"
           "b1" 86400 (Some 4.5%float) None None "u" "1" (Scenarios.home None [])).
  left. discriminate.
Defined.

(** X16: a measure given in neither unit is refused at once, with the
    client as it was.  A bottle feeding given in neither unit is refused
    too, but only after the user id was looked up: the client is then in
    the state the lookup left, and the call never returns an entry. *)
Theorem missing_amounts_are_rejected baby_id start_time note user_id a :
  (forall journal_type imperial_key metric_key to_metric to_imperial missing,
     create_measure_entry journal_type imperial_key metric_key to_metric to_imperial
         missing baby_id start_time None None note user_id a
       = (Raise (ValueError missing), a)) /\
  (forall milk_type,
     mem_string milk_type FEEDING_TYPES = true ->
     let run := create_feeding_entry baby_id start_time JOURNAL_TYPES_BOTTLE_FEEDING
                  None None milk_type note user_id a in
     snd run = snd (user_id_or_detect baby_id user_id a) /\
     (forall entry, fst run <> Ok entry) /\
     (forall found, fst (user_id_or_detect baby_id user_id a) = Ok found ->
        fst run = Raise (ValueError
          "Either amount_imperial or amount_metric must be provided for bottle feeding")) /\
     (forall e, fst (user_id_or_detect baby_id user_id a) = Raise e -> fst run = Raise e)).
Proof.
  split; [reflexivity|].
  intros milk_type Hmilk. cbv zeta. unfold create_feeding_entry.
  change (mem_string JOURNAL_TYPES_BOTTLE_FEEDING
            [JOURNAL_TYPES_BOTTLE_FEEDING; JOURNAL_TYPES_BREAST_FEEDING]) with true.
  rewrite Hmilk. cbn [negb].
  change (JOURNAL_TYPES_BOTTLE_FEEDING =? JOURNAL_TYPES_BOTTLE_FEEDING)%string with true.
  unfold bind.
  destruct (user_id_or_detect baby_id user_id a) as [[found|e] a1]; cbn.
  - split; [reflexivity|]. split; [discriminate|]. split; [reflexivity|].
    intros e E. discriminate E.
  - split; [reflexivity|]. split; [discriminate|]. split; [intros f E; discriminate E|].
    intros e0 E. exact E.
Qed.

(** X17: an argument outside its enumeration never reaches the network:
    an unknown diaper type, feeding type, milk type or breast raises a
    Value error with the client exactly as it was.  The diaper error names
    a type of the list that is not a diaper type. *)
Theorem invalid_choices_never_reach_the_network baby_id start_time note user_id a :
  (forall diaper_types,
     (exists t, In t diaper_types /\ mem_string t DIAPER_TYPES = false) ->
     exists bad, In bad diaper_types /\ mem_string bad DIAPER_TYPES = false /\
       create_diaper_entry baby_id start_time diaper_types note user_id a
         = (Raise (ValueError ("Invalid diaper type: " ++ bad)), a)) /\
  (forall feeding_type amount_imperial amount_metric milk_type,
     feeding_type <> "bottlefeeding" -> feeding_type <> "breastfeeding" ->
     create_feeding_entry baby_id start_time feeding_type amount_imperial amount_metric
         milk_type note user_id a
       = (Raise (ValueError ("Invalid feeding type: " ++ feeding_type)), a)) /\
  (forall feeding_type amount_imperial amount_metric milk_type,
     feeding_type = "bottlefeeding" \/ feeding_type = "breastfeeding" ->
     milk_type <> "breastmilk" -> milk_type <> "formula" ->
     create_feeding_entry baby_id start_time feeding_type amount_imperial amount_metric
         milk_type note user_id a
       = (Raise (ValueError ("Invalid milk type: " ++ milk_type)), a)) /\
  (forall end_time left_duration right_duration last_used_breast,
     last_used_breast <> "left" -> last_used_breast <> "right" ->
     create_breast_feeding_entry baby_id start_time end_time left_duration right_duration
         last_used_breast note user_id a
       = (Raise (ValueError "last_used_breast must be 'left' or 'right'"), a)) /\
  (forall to_datetime feeding_type,
     feeding_type <> "bottlefeeding" -> feeding_type <> "breastfeeding" ->
     get_feeding_tracking baby_id start_time to_datetime feeding_type a
       = (Raise (ValueError ("Invalid feeding type: " ++ feeding_type)), a)).
Proof.
  assert (Hmem2 : forall s x y, s <> x -> s <> y -> mem_string s [x; y] = false).
  { intros s x y Hx Hy. unfold mem_string. cbn.
    destruct (String.eqb_spec s x); [contradiction|].
    destruct (String.eqb_spec s y); [contradiction|]. reflexivity. }
  split; [|split; [|split; [|split]]].
  - intros diaper_types (t & Hin & Hbad). unfold create_diaper_entry.
    destruct (find (fun t0 => negb (mem_string t0 DIAPER_TYPES)) diaper_types)
      as [bad|] eqn:Hfind.
    + apply find_some in Hfind. destruct Hfind as [Hin' Hneg].
      exists bad. split; [exact Hin'|]. split; [|reflexivity].
      destruct (mem_string bad DIAPER_TYPES); [discriminate Hneg|reflexivity].
    + pose proof (find_none _ _ Hfind t Hin) as Hn. cbn beta in Hn.
      rewrite Hbad in Hn. discriminate Hn.
  - intros feeding_type ai am milk Hb Hr. unfold create_feeding_entry.
    unfold JOURNAL_TYPES_BOTTLE_FEEDING, JOURNAL_TYPES_BREAST_FEEDING.
    rewrite (Hmem2 feeding_type _ _ Hb Hr). reflexivity.
  - intros feeding_type ai am milk Hf Hb Hr. unfold create_feeding_entry.
    assert (Hok : mem_string feeding_type
                    [JOURNAL_TYPES_BOTTLE_FEEDING; JOURNAL_TYPES_BREAST_FEEDING] = true)
      by (destruct Hf as [-> | ->]; reflexivity).
    rewrite Hok. cbn [negb]. unfold FEEDING_TYPES.
    rewrite (Hmem2 milk _ _ Hb Hr). reflexivity.
  - intros end_time l r last Hl Hr. unfold create_breast_feeding_entry.
    rewrite (Hmem2 last _ _ Hl Hr). reflexivity.
  - intros to_datetime feeding_type Hb Hr. unfold get_feeding_tracking.
    unfold JOURNAL_TYPES_BOTTLE_FEEDING, JOURNAL_TYPES_BREAST_FEEDING.
    rewrite (Hmem2 feeding_type _ _ Hb Hr). reflexivity.
Qed.

(** [n or 0] for an optional duration *)
Definition seconds (duration : option Z) : Z :=
  match duration with Some n => n | None => 0 end.

(** X18: the record of a breast feeding carries the sum of the two
    durations as [totalDuration], a missing side counting for nothing; a
    side is written when its duration is given, also when it is 0, and left
    out when it is not given. *)
Theorem breast_feeding_record
    baby_id start_time end_time left_duration right_duration last_used_breast
    note c user_id a :
  last_used_breast = "left" \/ last_used_breast = "right" ->
  exists inner,
    create_breast_feeding_entry baby_id start_time end_time left_duration right_duration
        last_used_breast note (Some (String c user_id)) a
      = post_journal
          (with_note note
             [("type", JStr JOURNAL_TYPES_BREAST_FEEDING);
              ("startTime", JStr (strftime_seconds start_time));
              ("endTime", JStr (strftime_seconds end_time));
              ("babyId", JStr baby_id);
              ("userId", JStr (String c user_id));
              ("data", JDict inner)]) a /\
    dict_find inner "lastUsedBreast" = Some (JStr last_used_breast) /\
    dict_find inner "totalDuration"
      = Some (JInt (seconds left_duration + seconds right_duration)) /\
    dict_find inner "left"
      = option_map (fun n => JDict [("duration", JInt n)]) left_duration /\
    dict_find inner "right"
      = option_map (fun n => JDict [("duration", JInt n)]) right_duration.
Proof.
  intros Hlast.
  assert (Hsum : add_duration right_duration (add_duration left_duration 0)
                 = seconds left_duration + seconds right_duration).
  { unfold add_duration, seconds.
    destruct left_duration as [l|], right_duration as [r|];
      repeat match goal with
             | |- context [?n =? 0] => destruct (Z.eqb_spec n 0)
             end; lia. }
  eexists. split.
  - unfold create_breast_feeding_entry.
    assert (Hok : mem_string last_used_breast ["left"; "right"] = true)
      by (destruct Hlast as [-> | ->]; reflexivity).
    rewrite Hok. cbn [negb]. rewrite Hsum. reflexivity.
  - destruct left_duration as [l|], right_duration as [r|]; cbn; auto.
Qed.

Lemma breast_feeding_record_witness :
  exists inner,
    create_breast_feeding_entry "b1" 0 600 (Some 0) (Some 540) "right" None (Some "u1")
        (Scenarios.home None [])
      = post_journal
          (with_note None
             [("type", JStr JOURNAL_TYPES_BREAST_FEEDING);
              ("startTime", JStr (strftime_seconds 0));
              ("endTime", JStr (strftime_seconds 600));
              ("babyId", JStr "b1");
              ("userId", JStr "u1");
              ("data", JDict inner)]) (Scenarios.home None []) /\
    dict_find inner "lastUsedBreast" = Some (JStr "right") /\
    dict_find inner "totalDuration" = Some (JInt (seconds (Some 0) + seconds (Some 540))) /\
    dict_find inner "left" = option_map (fun n => JDict [("duration", JInt n)]) (Some 0) /\
    dict_find inner "right" = option_map (fun n => JDict [("duration", JInt n)]) (Some 540).
Proof.
  apply (breast_feeding_record "b1" 0 600 (Some 0) (Some 540) "right" None "u" "1"
           (Scenarios.home None [])).
  right. reflexivity.
Defined.

(** The DELETE of [delete_journal_entry]. *)
Definition delete_entry (entry_id : string) : Request :=
  {| method := "delete";
     url := (BASE_ENDPOINT ++ JOURNALS_CREATE_URI ++ "/" ++ entry_id)%string;
     headers := None; params := None; data := None; json := None;
     allow_redirects := true |}.

(** X19: when [delete_journal_entry] returns, the DELETE was sent with
    an [Authorization] header and the reply to that very exchange was an
    answer below 400 with a JSON body; the result is [False] exactly when
    that body is [null]; and the registry's own attributes are as they
    were. *)
Theorem delete_reports_a_null_answer entry_id a deleted a' :
  delete_journal_entry entry_id a = (Ok deleted, a') ->
  a' = set_gateway (gateway a') a /\
  exists token j,
    was_answered (authorized token (delete_entry entry_id)) j
      (world (gateway a)) (world (gateway a')) /\
    (deleted = false <-> j = JNull).
Proof.
  unfold delete_journal_entry, api_request. intros H.
  apply bind_ok_inv in H. destruct H as (response & a1 & H & Hret).
  apply bind_ok_inv in H. destruct H as ([resp j] & a2 & Hreq & Hj).
  unfold ret in Hj, Hret. inversion Hj; subst response a2; clear Hj.
  inversion Hret; subst deleted a'; clear Hret.
  unfold in_gateway, zoom in Hreq.
  destruct (request "json" _ false (gateway a)) as [[v|e] g'] eqn:Hrun;
    inversion Hreq; subst v a1; clear Hreq.
  split; [destruct a; reflexivity|].
  destruct (RequestFacts.request_ok _ _ _ _ _ Hrun) as (token & Hans).
  exists token, j. split; [exact Hans|].
  destruct j; split; intros E; try discriminate E; reflexivity.
Qed.

Lemma delete_reports_a_null_answer_witness :
  snd (delete_journal_entry "e1" (Scenarios.home None [JNull]))
    = set_gateway (gateway (snd (delete_journal_entry "e1" (Scenarios.home None [JNull]))))
        (Scenarios.home None [JNull]) /\
  exists token j,
    was_answered (authorized token (delete_entry "e1")) j
      (world (gateway (Scenarios.home None [JNull])))
      (world (gateway (snd (delete_journal_entry "e1" (Scenarios.home None [JNull]))))) /\
    (false = false <-> j = JNull).
Proof.
  apply (delete_reports_a_null_answer "e1" (Scenarios.home None [JNull]) false
           (snd (delete_journal_entry "e1" (Scenarios.home None [JNull])))).
  vm_compute. reflexivity.
Defined.



End EntryFacts.


(** ** Where the client's requests go *)

Module HostFacts.
Import Transport Gate Registry Journal.

(** The two hosts of the vendor: Cognito, and the API under
    [BASE_ENDPOINT]. *)
Definition vendor_url (u : string) : Prop :=
  u = COGNITO_ENDPOINT \/ String.prefix BASE_ENDPOINT u = true.

Definition to_vendor (rq : Request) : Prop := vendor_url (url rq).

Definition only_vendor (a a' : API) : Prop :=
  emits to_vendor (world (gateway a)) (world (gateway a')).

(** A method of the client or of its journal manager, with its
    arguments, other than [request], which takes the URL from its caller. *)
Inductive Call :=
| SetUsername (username : option string)
| SetPassword (password : option string)
| Authenticate (wait : bool)
| AuthenticateCoroutine
| ApiAuthenticate
| RefreshToken
| UpdateDeviceInfo
| GetDeviceDetails
| AddNewDevice (device_json : Json)
| GetAccount
| GetAccountV10
| GetBabies
| GetBabiesV10
| GetBabyForAccount
| GetDevicesV11
| GetSessionForAccount
| GetSessionLastV10 (baby_id : string)
| GetSessionStatsDailyForAccount (startTime : datetime) (detailedLevels levels : Json)
| GetSessionStatsAvgForAccount (startTime : datetime) (days interval : Json)
| GetSessionDailyV11 (baby_id : string) (start_time : datetime) (timezone : string)
    (detailed_levels levels : Json)
| GetConfigsForDevice (snoodevice : SnooDevice)
| GetJournalTracking (baby_id : string) (from_datetime to_datetime : datetime)
    (journal_type : string)
| GetGroupedTracking (baby_id : string) (from_datetime to_datetime : datetime)
    (group : string)
| GetDiaperTracking (baby_id : string) (from_datetime to_datetime : datetime)
| GetFeedingTracking (baby_id : string) (from_datetime to_datetime : datetime)
    (feeding_type : string)
| GetWeightTracking (baby_id : string) (from_datetime to_datetime : datetime)
| GetHeightTracking (baby_id : string) (from_datetime to_datetime : datetime)
| GetHeadTracking (baby_id : string) (from_datetime to_datetime : datetime)
| GetSolidFoodTracking (baby_id : string) (from_datetime to_datetime : datetime)
| GetPumpingTracking (baby_id : string) (from_datetime to_datetime : datetime)
| GetLastPumpingJournal
| GetLastJournals (baby_id : string)
| CreateDiaperEntry (baby_id : string) (start_time : datetime)
    (diaper_types : list string) (note user_id : option string)
| CreateFeedingEntry (baby_id : string) (start_time : datetime) (feeding_type : string)
    (amount_imperial amount_metric : option PrimFloat.float) (milk_type : string)
    (note user_id : option string)
| CreateWeightEntry (baby_id : string) (start_time : datetime)
    (weight_imperial weight_metric : option PrimFloat.float) (note user_id : option string)
| CreateHeightEntry (baby_id : string) (start_time : datetime)
    (height_imperial height_metric : option PrimFloat.float) (note user_id : option string)
| CreateHeadEntry (baby_id : string) (start_time : datetime)
    (circumference_imperial circumference_metric : option PrimFloat.float)
    (note user_id : option string)
| CreateBreastFeedingEntry (baby_id : string) (start_time end_time : datetime)
    (left_duration right_duration : option Z) (last_used_breast : string)
    (note user_id : option string)
| UpdateJournalEntry (entry_id : string) (updates : Dict)
| DeleteJournalEntry (entry_id : string)
| GetUserId (baby_id : string).

(** [_api_authenticate] and [_refresh_token] as methods: they read the
    credentials and the refresh token from the client. *)
Definition api_authenticate_method : M Gateway (option string * Json * Json) :=
  fun g => in_world (_api_authenticate (username g) (password g)) g.

Definition refresh_token_method : M Gateway (option string * Json * Z) :=
  fun g => in_world (_refresh_token (token_1 (_security_token g))) g.

(** The client after the call, whether it returned or raised. *)
Definition after (c : Call) (a : API) : API :=
  match c with
  | SetUsername u => snd (in_gateway (username_setter u) a)
  | SetPassword p => snd (in_gateway (password_setter p) a)
  | Authenticate wait => snd (in_gateway (authenticate wait) a)
  | AuthenticateCoroutine => snd (in_gateway _authenticate a)
  | ApiAuthenticate => snd (in_gateway api_authenticate_method a)
  | RefreshToken => snd (in_gateway refresh_token_method a)
  | UpdateDeviceInfo => snd (update_device_info a)
  | GetDeviceDetails => snd (_get_device_details a)
  | AddNewDevice device_json => snd (_add_new_device device_json a)
  | GetAccount => snd (get_account a)
  | GetAccountV10 => snd (get_account_v10 a)
  | GetBabies => snd (get_babies a)
  | GetBabiesV10 => snd (get_babies_v10 a)
  | GetBabyForAccount => snd (get_baby_for_account a)
  | GetDevicesV11 => snd (get_devices_v11 a)
  | GetSessionForAccount => snd (get_session_for_account a)
  | GetSessionLastV10 baby_id => snd (get_session_last_v10 baby_id a)
  | GetSessionStatsDailyForAccount t d l =>
      snd (get_session_stats_daily_for_account t d l a)
  | GetSessionStatsAvgForAccount t d i => snd (get_session_stats_avg_for_account t d i a)
  | GetSessionDailyV11 b t tz d l => snd (get_session_daily_v11 b t tz d l a)
  | GetConfigsForDevice snoodevice => snd (get_configs_for_device snoodevice a)
  | GetJournalTracking b f t ty => snd (get_journal_tracking b f t ty a)
  | GetGroupedTracking b f t g => snd (get_grouped_tracking b f t g a)
  | GetDiaperTracking b f t => snd (get_diaper_tracking b f t a)
  | GetFeedingTracking b f t ty => snd (get_feeding_tracking b f t ty a)
  | GetWeightTracking b f t => snd (get_weight_tracking b f t a)
  | GetHeightTracking b f t => snd (get_height_tracking b f t a)
  | GetHeadTracking b f t => snd (get_head_tracking b f t a)
  | GetSolidFoodTracking b f t => snd (get_solid_food_tracking b f t a)
  | GetPumpingTracking b f t => snd (get_pumping_tracking b f t a)
  | GetLastPumpingJournal => snd (get_last_pumping_journal a)
  | GetLastJournals b => snd (get_last_journals b a)
  | CreateDiaperEntry b t tys n u => snd (create_diaper_entry b t tys n u a)
  | CreateFeedingEntry b t ty i m milk n u => snd (create_feeding_entry b t ty i m milk n u a)
  | CreateWeightEntry b t i m n u => snd (create_weight_entry b t i m n u a)
  | CreateHeightEntry b t i m n u => snd (create_height_entry b t i m n u a)
  | CreateHeadEntry b t i m n u => snd (create_head_entry b t i m n u a)
  | CreateBreastFeedingEntry b s e l r last n u =>
      snd (create_breast_feeding_entry b s e l r last n u a)
  | UpdateJournalEntry e u => snd (update_journal_entry e u a)
  | DeleteJournalEntry e => snd (delete_journal_entry e a)
  | GetUserId b => snd (_get_user_id b a)
  end.

Lemma prefix_app s t : String.prefix s (s ++ t) = true.
Proof.
  induction s as [|c s IH]; cbn; [destruct t; reflexivity|].
  destruct (ascii_dec c c); [exact IH|congruence].
Qed.

Lemma vendor_path path : vendor_url (BASE_ENDPOINT ++ path).
Proof. right. apply prefix_app. Qed.

Lemma only_vendor_refl a : only_vendor a a.
Proof. apply emits_refl. Qed.

Lemma only_vendor_trans a b c : only_vendor a b -> only_vendor b c -> only_vendor a c.
Proof. apply emits_trans. Qed.

Lemma only_vendor_request returns rq :
  vendor_url (url rq) -> steps only_vendor (in_gateway (request returns rq false)).
Proof.
  intros Hurl.
  apply (steps_gateway_request
           (emits to_vendor) (emits_refl _) (emits_trans _) (emits_sleep _)
           vendor_url
           (fun rf rq w => emits_exchange to_vendor rf rq w)
           ltac:(left; reflexivity)
           ltac:(apply vendor_path)
           (fun g g' => emits to_vendor (world g) (world g'))
           (fun g => emits_refl _ (world g))
           (fun x y z => emits_trans _ (world x) (world y) (world z))
           ltac:(intros t g; apply emits_refl)
           ltac:(intros t g; apply emits_refl)
           ltac:(intros g w H; exact H)
           only_vendor
           ltac:(intros x g H; exact H)).
  exact Hurl.
Qed.

Lemma only_vendor_authenticate wait : steps only_vendor (in_gateway (authenticate wait)).
Proof.
  apply (steps_zoom only_vendor (fun g g' => emits to_vendor (world g) (world g'))).
  - intros a g H. exact H.
  - apply (steps_authenticate
             (emits to_vendor) (emits_refl _) (emits_trans _) (emits_sleep _)
             to_vendor
             (fun rf rq w => emits_exchange to_vendor rf rq w)
             ltac:(intros rq H; left; exact H)
             ltac:(intros rq H; unfold to_vendor; rewrite H; apply vendor_path)
             (fun g g' => emits to_vendor (world g) (world g'))
             (fun g => emits_refl _ (world g))
             (fun x y z => emits_trans _ (world x) (world y) (world z))
             ltac:(intros t g; apply emits_refl)
             ltac:(intros t g; apply emits_refl)
             ltac:(intros g w H; exact H)).
Qed.

Ltac vendor_side_conditions :=
  first
    [ exact (emits_refl to_vendor) | exact (emits_trans to_vendor)
    | exact (emits_sleep to_vendor)
    | solve [intros; apply emits_exchange; assumption]
    | solve [intros rq H; left; exact H]
    | solve [intros rq H; unfold to_vendor; rewrite H; apply vendor_path]
    | solve [intros; apply emits_refl]
    | solve [intros x y z; apply emits_trans]
    | solve [intros g w H; exact H] ].

Lemma only_vendor_authenticate_coroutine : steps only_vendor (in_gateway _authenticate).
Proof.
  apply (steps_zoom only_vendor (fun g g' => emits to_vendor (world g) (world g'))).
  - intros a g H. exact H.
  - apply (steps_authenticate_coroutine (emits to_vendor)) with (allowed := to_vendor);
      vendor_side_conditions.
Qed.

Lemma only_vendor_api_authenticate : steps only_vendor (in_gateway api_authenticate_method).
Proof.
  intros a. unfold only_vendor, in_gateway, api_authenticate_method, in_world, zoom.
  assert (H : steps (emits to_vendor)
                (_api_authenticate (username (gateway a)) (password (gateway a))))
    by (apply (steps_api_authenticate (emits to_vendor)) with (allowed := to_vendor);
        vendor_side_conditions).
  specialize (H (world (gateway a))).
  destruct (_api_authenticate _ _ _) as [r w']. exact H.
Qed.

Lemma only_vendor_refresh_token : steps only_vendor (in_gateway refresh_token_method).
Proof.
  intros a. unfold only_vendor, in_gateway, refresh_token_method, in_world, zoom.
  assert (H : steps (emits to_vendor) (_refresh_token (token_1 (_security_token (gateway a)))))
    by (apply (steps_refresh_token (emits to_vendor)) with (allowed := to_vendor);
        vendor_side_conditions).
  specialize (H (world (gateway a))).
  destruct (_refresh_token _ _) as [r w']. exact H.
Qed.

Lemma only_vendor_username_setter u : steps only_vendor (in_gateway (username_setter u)).
Proof. intros a. apply emits_refl. Qed.

Lemma only_vendor_password_setter p : steps only_vendor (in_gateway (password_setter p)).
Proof. intros a. apply emits_refl. Qed.

Lemma emits_weaken (allowed allowed' : Request -> Prop) w w' :
  (forall rq, allowed rq -> allowed' rq) -> emits allowed w w' -> emits allowed' w w'.
Proof.
  intros Himp (evs & Htr & Hall). exists evs. split; [exact Htr|].
  eapply Forall_impl; [|exact Hall]. intros [rq|n]; auto.
Qed.

Ltac vendor_known :=
  idtac; lazymatch goal with
  | |- steps _ (in_gateway (request _ _ false)) =>
      apply only_vendor_request; apply vendor_path
  | |- steps _ (modify _) =>
      apply steps_modify; intros ?; unfold only_vendor;
      repeat match goal with
             | |- context [match ?x with _ => _ end] => destruct x
             end;
      apply emits_refl
  end.

Lemma only_vendor_update_device_info : steps only_vendor update_device_info.
Proof.
  pose proof only_vendor_refl. pose proof only_vendor_trans.
  unfold update_device_info, refresh_sessions, attach_session, _get_device_details,
    refresh_device, _add_new_device, get_account, get_baby_for_account,
    get_babies_v10, get_session_for_account, get_configs_for_device, utcnow,
    account_givenName, get_json.
  steps_with vendor_known.
Qed.

Lemma only_vendor_call c a : only_vendor a (after c a).
Proof.
  pose proof only_vendor_refl. pose proof only_vendor_trans.
  revert a. destruct c; cbn [after];
    match goal with
    | |- forall a, only_vendor a (snd (?m a)) => change (steps only_vendor m)
    end;
    try apply only_vendor_authenticate; try apply only_vendor_update_device_info;
    try apply only_vendor_username_setter; try apply only_vendor_password_setter;
    try apply only_vendor_authenticate_coroutine;
    try apply only_vendor_api_authenticate; try apply only_vendor_refresh_token;
    unfold _get_device_details, refresh_device, _add_new_device, utcnow;
    unfold get_session_stats_daily_for_account, get_session_stats_avg_for_account,
      get_session_daily_v11, get_json_with, load_account_and_baby, baby_id_text,
      get_account, get_account_v10, get_babies, get_baby_for_account,
      get_devices_v11, get_session_for_account, get_session_last_v10,
      get_configs_for_device, get_babies_v10, account_givenName, get_json,
      get_grouped_tracking, get_diaper_tracking, get_feeding_tracking,
      get_weight_tracking, get_height_tracking, get_head_tracking,
      get_solid_food_tracking, get_pumping_tracking, get_last_pumping_journal,
      get_last_journals, create_diaper_entry, create_feeding_entry,
      create_weight_entry, create_height_entry, create_head_entry,
      create_measure_entry, create_breast_feeding_entry, update_journal_entry,
      delete_journal_entry, post_journal, user_id_or_detect, _get_user_id,
      get_diaper_tracking, get_journal_tracking, api_request;
    steps_with vendor_known.
Qed.

(** X20: every request the client sends goes to Cognito or to a URL
    under [BASE_ENDPOINT], but for the requests of [API.request] itself,
    which sends its caller's request, with the bearer token, to the URL the
    caller gives.  That is: whatever method of the client or of its
    journal manager other than [request] is called, with whatever arguments,
    and whatever the vendor answers, and for [login], every request sent
    goes to the vendor; and [request] sends to the vendor and to the URL of
    its argument only. *)
Theorem requests_go_only_to_the_vendor :
  (forall c a, emits to_vendor (world (gateway a)) (world (gateway (after c a)))) /\
  (forall username password w, emits to_vendor w (snd (login username password w))) /\
  (forall returns rq login_request g,
     emits (fun rq' => vendor_url (url rq') \/ url rq' = url rq)
           (world g) (world (snd (request returns rq login_request g)))).
Proof.
  split; [|split].
  - intros c a. apply only_vendor_call.
  - intros u p w. unfold login.
    assert (Hs : steps only_vendor (in_gateway (authenticate true) ;; update_device_info)).
    { apply steps_bind.
      - apply only_vendor_trans.
      - apply only_vendor_authenticate.
      - intros _. apply only_vendor_update_device_info. }
    specialize (Hs (init u p w)). unfold only_vendor in Hs.
    change (world (gateway (init u p w))) with w in Hs.
    destruct ((in_gateway (authenticate true) ;; update_device_info) (init u p w))
      as [[v|e] a']; exact Hs.
  - intros returns rq login_request g.
    eapply emits_weaken; [|apply request_emits].
    intros rq' [[Hc|Hr]|[->|(h & ->)]].
    + left. left. exact Hc.
    + left. rewrite Hr. apply vendor_path.
    + right. reflexivity.
    + right. reflexivity.
Qed.

(** A request for a URL that is not the vendor's is sent there, with the
    stored token. *)
Example request_reaches_any_host :
  let rq := a_request "get" "https://example.org/" in
  let g := GatewayFacts.trusted_client (fun _ => GatewayFacts.account_reply) in
  trace (world (snd (request "json" rq false g)))
    = [Sent (authorized (Some "Bearer t") rq)] /\
  url (authorized (Some "Bearer t") rq) = "https://example.org/" /\
  ~ vendor_url "https://example.org/".
Proof.
  cbv zeta. split; [vm_compute; reflexivity|]. split; [reflexivity|].
  intros [H|H]; [discriminate H|vm_compute in H; discriminate H].
Qed.

End HostFacts.


(** ** Transport's two return objects *)

Module DecodingFacts.
Import Transport.

(** X21: a body that is not JSON is not sent for again: [request_json]
    and [request_response] make exactly the exchanges of the one send, an
    error of the send comes out of both unchanged, [request_response] hands
    back the response without looking at its body, and [request_json]
    returns the decoded body or, when it does not decode, raises a Request
    error. *)
Theorem decoding_is_not_retried rq w :
  snd (request_json rq w) = snd (_send_request rq w) /\
  snd (request_response rq w) = snd (_send_request rq w) /\
  (forall e, fst (_send_request rq w) = Raise e ->
     fst (request_json rq w) = Raise e /\ fst (request_response rq w) = Raise e) /\
  (forall resp, fst (_send_request rq w) = Ok resp ->
     fst (request_response rq w) = Ok (resp, JNull) /\
     (forall j, decoded (resp_body resp) = Parsed j ->
        fst (request_json rq w) = Ok (resp, j)) /\
     (forall err, decoded (resp_body resp) = Undecodable err ->
        exists message, fst (request_json rq w) = Raise (RequestError message))).
Proof.
  unfold request_json, request_response, response_json, bind.
  destruct (_send_request rq w) as [[resp|e] w']; cbn [fst snd].
  - split; [destruct (decoded (resp_body resp)); reflexivity|].
    split; [reflexivity|]. split; [intros e E; discriminate E|].
    intros resp0 E. inversion E; subst resp0; clear E.
    split; [reflexivity|]. split.
    + intros j Hj. rewrite Hj. reflexivity.
    + intros err Herr. rewrite Herr. eexists. reflexivity.
  - split; [reflexivity|]. split; [reflexivity|].
    split; [intros e0 E; inversion E; auto|intros resp E; discriminate E].
Qed.

End DecodingFacts.

(** ** Logging in *)

Module LoginFacts.
Import Transport Gate Registry RegistryFacts.

(** The first authentication of a new client. *)
Lemma first_authentication user pass w r g :
  authenticate true (Gate.init (Some user) (Some pass) w) = (r, g) ->
  world g = exchanged (cognito_request (Some user) (Some pass)) w /\
  (forall e, fst (_api_authenticate (Some user) (Some pass) w) = Raise e ->
     exists e', r = Raise e').
Proof.
  unfold authenticate, Gate.init, bind, gets.
  cbn [username password _invalid_credentials _authentication_task].
  unfold modify at 1. cbn [fst snd].
  unfold try_except, await_task, bind, gets.
  cbn [_authentication_task set_authentication_task].
  unfold task_finish, _authenticate, bind, gets, _authenticate_begin.
  cbn [_security_token set_authentication_task token_2 fst snd username password world].
  unfold _authenticate_resume, bind, in_world, zoom.
  cbn [world set_authentication_task].
  destruct (_api_authenticate (Some user) (Some pass) w) as [ra w1] eqn:Hlogin.
  destruct (AuthenticationFacts.api_authenticate_cases _ _ _ _ _ Hlogin) as [Hw1 _].
  subst w1. cbn [fst].
  destruct ra as [[[tok rt] ex]|e].
  - destruct tok as [tok|].
    + unfold lift, gets. destruct (py_int_half ex) as [half|e]; cbn.
      * destruct (py_add_seconds _ half) as [expiry|e]; cbn; intros H.
        -- inversion H; subst. cbn. split; [reflexivity|].
           intros e E. discriminate E.
        -- destruct e; inversion H; subst; cbn; (split; [reflexivity|]);
             intros e0 E; discriminate E.
      * intros H. destruct e; inversion H; subst; cbn; (split; [reflexivity|]);
          intros e0 E; discriminate E.
    + cbn. intros H. inversion H; subst. cbn. split; [reflexivity|].
      intros e E. discriminate E.
  - cbn. intros H.
    destruct e; inversion H; subst; cbn; (split; [reflexivity|]);
      intros e0 E; eexists; reflexivity.
Qed.

Lemma update_device_info_grows : steps api_grows update_device_info.
Proof.
  apply (steps_update_device_info grows)
    with (good_url := fun _ => True) (Rg := gateway_grows);
    api_grows_side_conditions.
Qed.

(** X22: [login] authenticates before anything else: the first request
    of a login with a user name and a password is the Cognito login; when
    that login fails, [login] raises and no other request is made; and when
    [login] returns a client, the device list was fetched and the client's
    last full refresh is the time the login ended. *)
Theorem login_authenticates_before_loading user pass w :
  let run := login (Some user) (Some pass) w in
  (exists rest,
     trace (snd run)
       = trace w ++ Sent (cognito_request (Some user) (Some pass)) :: rest) /\
  (forall e, fst (_api_authenticate (Some user) (Some pass) w) = Raise e ->
     snd run = exchanged (cognito_request (Some user) (Some pass)) w /\
     exists e', fst run = Raise e') /\
  (forall api, fst run = Ok api ->
     world (gateway api) = snd run /\
     last_state_update api = Some (now (snd run)) /\
     exists rq j, device_list_url (url rq) /\ was_answered rq j w (snd run)).
Proof.
  cbv zeta.
  destruct (login (Some user) (Some pass) w) as [res w'] eqn:Hrun. cbn [fst snd].
  unfold login in Hrun.
  set (a0 := init (Some user) (Some pass) w) in Hrun.
  unfold bind, in_gateway, zoom in Hrun.
  change (gateway a0) with (Gate.init (Some user) (Some pass) w) in Hrun.
  destruct (authenticate true (Gate.init (Some user) (Some pass) w)) as [r g] eqn:Hauth.
  destruct (first_authentication _ _ _ _ _ Hauth) as (Hw & Hfail).
  set (a1 := set_gateway g a0) in Hrun.
  assert (Hstart : exists rest0,
            trace (world g) = trace w ++ Sent (cognito_request (Some user) (Some pass)) :: rest0).
  { exists []. rewrite Hw. reflexivity. }
  destruct r as [t|e].
  - pose proof (update_device_info_grows a1) as Hgrow.
    assert (Hafter : after_throttle_window a1) by exact I.
    pose proof (update_device_info_full a1 Hafter) as Hfull.
    destruct (update_device_info a1) as [r2 a2] eqn:Hupd. cbn [snd] in Hgrow.
    unfold api_grows in Hgrow. change (world (gateway a1)) with (world g) in Hgrow.
    assert (Htrace : exists rest,
              trace (world (gateway a2))
                = trace w ++ Sent (cognito_request (Some user) (Some pass)) :: rest).
    { destruct Hgrow as (_ & _ & _ & evs & Hevs & _). destruct Hstart as (rest0 & H0).
      exists (rest0 ++ evs). rewrite Hevs, H0, <- app_assoc. reflexivity. }
    destruct r2 as [[]|e2]; inversion Hrun; subst res w'; clear Hrun.
    + split; [exact Htrace|]. split.
      * intros e E. destruct (Hfail e E) as (e' & He'). discriminate He'.
      * intros api E. inversion E as [Eapi]. clear E. subst api.
        split; [reflexivity|].
        symmetry in Hfull.
        destruct (full_refresh_ok _ _ Hfull) as (Hlast & Hg2 & rq & j & Hurl & Hans).
        split; [exact Hlast|].
        exists rq, j. split; [exact Hurl|].
        eapply was_answered_after; [|exact Hans].
        unfold api_world. cbn. rewrite Hw. apply (grows_exchange false).
    + split; [exact Htrace|]. split.
      * intros e E. destruct (Hfail e E) as (e' & He'). discriminate He'.
      * intros api E. discriminate E.
  - inversion Hrun; subst res w'; clear Hrun.
    split; [exact Hstart|]. split.
    + intros e0 E. split; [exact Hw|]. eexists. reflexivity.
    + intros api E. discriminate E.
Qed.

End LoginFacts.


(** ** A refresh without an account *)

Module AccountFacts.
Import Transport Gate Registry RegistryFacts.

(** [get_json] and [get_account] read and write the gateway only. *)
Lemma get_json_through url a :
  exists r g, get_json url a = (r, set_gateway g a) /\
    forall t, get_json url (set_last_state_update t a)
              = (r, set_gateway g (set_last_state_update t a)).
Proof.
  unfold get_json, bind, in_gateway, zoom. cbn [gateway set_last_state_update].
  destruct (request "json" (a_request "get" url) false (gateway a)) as [[[resp j]|e] g'];
    eexists _, g'; split; try reflexivity; intros t; reflexivity.
Qed.

Lemma get_account_through a :
  exists r g, get_account a = (r, set_gateway g a) /\
    forall t, get_account (set_last_state_update t a)
              = (r, set_gateway g (set_last_state_update t a)).
Proof.
  unfold get_account, bind, try_except.
  destruct (get_json_through (BASE_ENDPOINT ++ ACCOUNT_V10_URI) a) as (r1 & g1 & H1 & T1).
  assert (Hpure : forall resp : Json, exists r,
            forall a2 : API,
            match resp with
            | JNull => ret JNull
            | _ => d <- lift (py_as_dict resp) ;;
                   match dict_get d "userId" with
                   | JNull => ret JNull
                   | _ => ret resp
                   end
            end a2 = (r, a2)).
  { intros resp. destruct resp; try (eexists; intros; reflexivity).
    unfold bind, lift. cbn. destruct (dict_get fields "userId"); eexists; intros; reflexivity. }
  rewrite H1.
  destruct r1 as [resp|e].
  - destruct (Hpure resp) as (r & Hr).
    exists r, g1. split; [apply Hr|]. intros t. rewrite T1. apply Hr.
  - destruct (is_Exception e) eqn:Hexc.
    + destruct (get_json_through (BASE_ENDPOINT ++ ACCOUNT_URI) (set_gateway g1 a))
        as (r2 & g2 & H2 & T2).
      rewrite H2.
      destruct r2 as [resp|e2].
      * destruct (Hpure resp) as (r & Hr).
        exists r, g2. split; [apply Hr|]. intros t. rewrite T1. cbv beta iota. rewrite Hexc.
        change (set_gateway g1 (set_last_state_update t a))
          with (set_last_state_update t (set_gateway g1 a)).
        rewrite T2. apply Hr.
      * exists (Raise e2), g2. split; [reflexivity|]. intros t. rewrite T1. cbv beta iota. rewrite Hexc.
        change (set_gateway g1 (set_last_state_update t a))
          with (set_last_state_update t (set_gateway g1 a)).
        rewrite T2. reflexivity.
    + exists (Raise e), g1. split; [reflexivity|]. intros t. rewrite T1.
      cbv beta iota. rewrite Hexc. reflexivity.
Qed.

(** X23: a full refresh of a client that has no account, when the
    account endpoint gives none (its answer has no [userId]), does not
    return: it raises the Type error of [self.account['givenName']] on
    [None], having asked for the account only; the devices are as they
    were and the refresh stays due. *)
Theorem refresh_without_an_account a :
  after_throttle_window a ->
  account a = JNull ->
  fst (get_account a) = Ok JNull ->
  fst (update_device_info a)
    = Raise (TypeError "'NoneType' object is not subscriptable") /\
  gateway (snd (update_device_info a)) = gateway (snd (get_account a)) /\
  account (snd (update_device_info a)) = JNull /\
  devices (snd (update_device_info a)) = devices a /\
  after_throttle_window (snd (update_device_info a)).
Proof.
  intros Hafter Hacc Hget.
  rewrite (update_device_info_full a Hafter).
  destruct (get_account_through a) as (r & g & Hrun & Hlast).
  assert (Hnow : now (world (gateway a)) <= now (world g)).
  { pose proof (get_account_grows a) as Hg. rewrite Hrun in Hg. cbn in Hg.
    destruct Hg as (_ & _ & Hn & _). exact Hn. }
  rewrite Hrun in *. cbn [fst snd] in *. subst r.
  unfold full_refresh, bind, gets.
  destruct (last_state_update a) as [t|] eqn:Ht.
  - rewrite Hacc, Hrun. unfold modify. cbn [fst snd baby set_account set_gateway].
    unfold after_throttle_window in *. rewrite Ht in Hafter.
    destruct (baby a) eqn:Hb;
      unfold get_baby_for_account, _get_device_details, bind, account_givenName, gets, lift;
      cbn; rewrite ?Hb, ?Ht; cbn;
      (split; [reflexivity|]); (split; [reflexivity|]); (split; [reflexivity|]);
      (split; [reflexivity|]);
      unfold api_now, api_world in *; cbn; lia.
  - cbn [account set_last_state_update]. rewrite Hacc, Hlast.
    unfold modify. cbn [fst snd baby set_account set_gateway set_last_state_update].
    unfold after_throttle_window.
    destruct (baby a) eqn:Hb;
      unfold get_baby_for_account, _get_device_details, bind, account_givenName, gets, lift;
      cbn; rewrite ?Hb; cbn;
      (split; [reflexivity|]); (split; [reflexivity|]); (split; [reflexivity|]);
      (split; [reflexivity|]);
      unfold api_now, api_world, DEFAULT_DEVICE_UPDATE_INTERVAL; cbn; lia.
Qed.

(** A new client whose account endpoint answers without a [userId]. *)
Definition nameless : API :=
  {| gateway :=
       {| username := Some "parent@example.com"; password := Some "secret";
          _authentication_task := None; _invalid_credentials := false;
          _security_token := (Some "Bearer t", JStr "refresh-0", Some 5000, Some 0);
          world := {| now := 1000; utc_offset := 0; served := 0;
                      net := fun _ => Scenarios.answer (JDict [("email", JStr "p@example.com")]);
                      bg_done := fun _ => false; trace := [] |} |};
     account := JNull; baby := JNull; devices := []; last_state_update := None |}.

Lemma refresh_without_an_account_witness :
  fst (update_device_info nameless)
    = Raise (TypeError "'NoneType' object is not subscriptable") /\
  gateway (snd (update_device_info nameless)) = gateway (snd (get_account nameless)) /\
  account (snd (update_device_info nameless)) = JNull /\
  devices (snd (update_device_info nameless)) = devices nameless /\
  after_throttle_window (snd (update_device_info nameless)).
Proof.
  apply (refresh_without_an_account nameless).
  - exact I.
  - reflexivity.
  - vm_compute. reflexivity.
Defined.

End AccountFacts.


(** ** The device list *)

Module DeviceListFacts.
Import Transport Gate Registry RegistryFacts RegistryInvariants.

(** The request for the configuration of the device whose serial number
    is [serial_number]. *)
Definition config_request (serial_number : Json) : Request :=
  a_request "get" (BASE_ENDPOINT ++ DEVICE_CONFIGS_URI (py_str serial_number))%string.

(** The entry [d] of the device list [items] has a serial number, which is
    the key [k]. *)
Definition listed (items : list Json) (k : Key) (d : Dict) : Prop :=
  In (JDict d) items /\
  dict_get d "serialNumber" <> JNull /\
  serial_key (dict_get d "serialNumber") = Ok k.

(** What the device [dev], stored under [k], holds after a loop over
    [items] that took the client from [a] to [a']: an entry of the list with
    that serial number, the timestamp of the loop, as configuration the
    answer to the request for the configuration of the device (made for the
    serial number of an entry of the list, or of the device that was stored
    under [k] before), as session the answer to a request for the session,
    and the account and baby it had, or the client's if it is new. *)
Definition refreshed (ts : Z) (items : list Json) (a a' : API) (k : Key)
    (dev : SnooDevice) : Prop :=
  (exists d, listed items k d /\ device dev = JDict d) /\
  device_state_update dev = Some ts /\
  (exists token serial_number,
     was_answered (authorized token (config_request serial_number)) (config dev)
       (api_world a) (api_world a') /\
     ((exists d, listed items k d /\ serial_number = dict_get d "serialNumber") \/
      (exists dev0, devices_find (devices a) k = Some dev0 /\
                    device_id dev0 = Ok serial_number))) /\
  (exists token,
     was_answered (authorized token session_request) (session dev)
       (api_world a) (api_world a')) /\
  match devices_find (devices a) k with
  | Some dev0 => dev_account dev = dev_account dev0 /\ dev_baby dev = dev_baby dev0
  | None => dev_account dev = account a' /\ dev_baby dev = baby a'
  end.

(** The key under which the loop stores an entry, if it stores it. *)
Definition entry_key (x : Json) : option Key :=
  match x with
  | JDict d =>
      match dict_get d "serialNumber" with
      | JNull => None
      | serial_number =>
          match serial_key serial_number with Ok k => Some k | Raise _ => None end
      end
  | _ => None
  end.

Lemma entry_key_listed items k d :
  listed items k d <-> In (JDict d) items /\ entry_key (JDict d) = Some k.
Proof.
  unfold listed, entry_key. split.
  - intros (Hin & Hsn & Hkey). split; [exact Hin|]. revert Hsn Hkey.
    destruct (dict_get d "serialNumber"); intros Hsn Hkey;
      [contradiction|rewrite Hkey; reflexivity..].
  - intros (Hin & Hk). split; [exact Hin|].
    destruct (dict_get d "serialNumber") eqn:E; try discriminate Hk;
      (split; [discriminate|]);
      destruct (serial_key _) as [k0|e]; inversion Hk; reflexivity.
Qed.

(** The turn of an entry without a serial number changes nothing; an
    entry that is not a dict, or whose serial number cannot be a key, makes
    the loop raise. *)
Lemma refresh_device_returns ts x a a' :
  refresh_device ts x a = (Ok tt, a') ->
  exists d, x = JDict d /\
    (dict_get d "serialNumber" = JNull -> a' = a) /\
    (dict_get d "serialNumber" <> JNull -> exists k, entry_key x = Some k).
Proof.
  unfold refresh_device. intros H.
  apply bind_ok_inv in H. destruct H as (d & a0 & Hd & H).
  unfold lift in Hd. destruct x; try discriminate Hd.
  cbn in Hd. inversion Hd; subst d a0; clear Hd.
  exists fields. split; [reflexivity|]. split.
  - intros E. rewrite E in H. inversion H. reflexivity.
  - intros Hsn. unfold entry_key.
    destruct (dict_get fields "serialNumber") eqn:E; try contradiction;
      apply bind_ok_inv in H; destruct H as (k & a1 & Hk & _);
      unfold lift in Hk; first [discriminate Hk | eexists; reflexivity].
Qed.

(** The body of the loop after its test on the serial number. *)
Definition refresh_known (ts : Z) (device_json : Json) (serial : Key) : M API unit :=
  known <- gets (fun a => devices_find (devices a) serial) ;;
  snoodevice <- match known with
                | None => _add_new_device device_json
                | Some snoodevice => ret snoodevice
                end ;;
  config_json <- get_configs_for_device snoodevice ;;
  session_json <- get_session_for_account ;;
  modify (fun a =>
    match devices_find (devices a) serial with
    | None => a
    | Some snoodevice =>
        set_devices
          (devices_set (devices a) serial
             {| dev_account := dev_account snoodevice;
                dev_baby := dev_baby snoodevice;
                device := device_json; config := config_json;
                session := session_json;
                device_state_update := Some ts |}) a
    end).

Lemma refresh_device_known ts d a k :
  dict_get d "serialNumber" <> JNull ->
  serial_key (dict_get d "serialNumber") = Ok k ->
  refresh_device ts (JDict d) a = refresh_known ts (JDict d) k a.
Proof.
  intros Hsn Hkey. unfold refresh_device, refresh_known.
  unfold bind at 1. unfold lift at 1. cbn [py_as_dict].
  revert Hsn Hkey.
  destruct (dict_get d "serialNumber"); intros Hsn Hkey; try contradiction;
    unfold bind at 1; unfold lift at 1; rewrite Hkey; reflexivity.
Qed.

(** The turn of an entry with a serial number, when it returns. *)
Lemma refresh_device_turn ts d a a' k :
  refresh_device ts (JDict d) a = (Ok tt, a') ->
  dict_get d "serialNumber" <> JNull ->
  serial_key (dict_get d "serialNumber") = Ok k ->
  api_grows a a' /\ same_registry a a' /\
  (forall k', k' <> k -> devices_find (devices a') k' = devices_find (devices a) k') /\
  exists dev token serial_number token',
    devices_find (devices a') k = Some dev /\
    device dev = JDict d /\ device_state_update dev = Some ts /\
    was_answered (authorized token (config_request serial_number)) (config dev)
      (api_world a) (api_world a') /\
    was_answered (authorized token' session_request) (session dev)
      (api_world a) (api_world a') /\
    match devices_find (devices a) k with
    | Some dev0 => device_id dev0 = Ok serial_number /\
                   dev_account dev = dev_account dev0 /\ dev_baby dev = dev_baby dev0
    | None => serial_number = dict_get d "serialNumber" /\
              dev_account dev = account a /\ dev_baby dev = baby a
    end.
Proof.
  intros H Hsn Hkey. rewrite (refresh_device_known ts d a k Hsn Hkey) in H.
  unfold refresh_known in H.
  apply bind_ok_inv in H. destruct H as (known & a0 & Hk & H).
  unfold gets in Hk. inversion Hk; subst known a0; clear Hk.
  apply bind_ok_inv in H. destruct H as (snoodevice & a1 & Hadd & H).
  (* the device the turn works on, and the client once it is stored *)
  assert (Hstored :
    devices_find (devices a1) k = Some snoodevice /\
    gateway a1 = gateway a /\ same_registry a a1 /\
    (forall k', k' <> k -> devices_find (devices a1) k' = devices_find (devices a) k') /\
    match devices_find (devices a) k with
    | Some dev0 => snoodevice = dev0
    | None => snoodevice =
        {| dev_account := account a; dev_baby := baby a; device := JDict d;
           config := JNull; session := JNull; device_state_update := None |}
    end).
  { destruct (devices_find (devices a) k) as [dev0|] eqn:Hfind.
    - unfold ret in Hadd. inversion Hadd; subst snoodevice a1.
      split; [exact Hfind|]. split; [reflexivity|].
      split; [apply same_registry_refl|]. split; [reflexivity|reflexivity].
    - unfold _add_new_device, bind, lift, gets, modify, ret in Hadd.
      cbn [py_as_dict] in Hadd. rewrite Hkey in Hadd.
      inversion Hadd; subst snoodevice a1. cbn [devices set_devices gateway].
      split; [apply devices_find_set_same|]. split; [reflexivity|].
      split; [unfold same_registry; cbn; auto|]. split; [|reflexivity].
      intros k' Hne. apply devices_find_set_other. exact Hne. }
  destruct Hstored as (Hfind1 & Hgw1 & Hreg1 & Hother1 & Hwhich).
  apply bind_ok_inv in H. destruct H as (config_json & a2 & Hcfg & H).
  unfold get_configs_for_device in Hcfg.
  apply bind_ok_inv in Hcfg. destruct Hcfg as (serial_number & a1' & Hid & Hcfg).
  unfold lift in Hid. inversion Hid as [[Hid' Ha1']]. subst a1'. clear Hid.
  destruct (get_json_frame _ _ _ _ Hcfg) as (Hf2 & Hg2).
  destruct (get_json_ok _ _ _ _ Hcfg) as (token & Hans2).
  apply bind_ok_inv in H. destruct H as (session_json & a3 & Hses & H).
  destruct (get_session_frame _ _ _ Hses) as (Hf3 & Hg3).
  destruct (get_session_ok _ _ _ Hses) as (token' & Hans3).
  assert (Hd3 : devices a3 = devices a1).
  { rewrite Hf3. cbn [devices set_gateway]. rewrite Hf2. reflexivity. }
  assert (Hr3 : same_registry a a3).
  { eapply same_registry_trans; [exact Hreg1|].
    unfold same_registry. rewrite Hf3. cbn. rewrite Hf2. cbn. auto. }
  assert (Hw1 : api_world a1 = api_world a) by (unfold api_world; rewrite Hgw1; reflexivity).
  unfold modify in H. rewrite Hd3, Hfind1 in H. inversion H; subst a'; clear H.
  assert (Hw' : forall ds, api_world (set_devices ds a3) = api_world a3) by reflexivity.
  split.
  { unfold api_grows. change (world (gateway (set_devices ?ds a3))) with (api_world a3).
    fold (api_world a). rewrite <- Hw1. eapply grows_trans; [exact Hg2|exact Hg3]. }
  split; [exact Hr3|]. split.
  { intros k' Hne. cbn [devices set_devices].
    rewrite devices_find_set_other by exact Hne. apply Hother1. exact Hne. }
  eexists _, token, serial_number, token'.
  cbn [devices set_devices]. rewrite devices_find_set_same.
  split; [reflexivity|]. split; [reflexivity|]. split; [reflexivity|].
  cbn [config session dev_account dev_baby]. rewrite !Hw', <- Hw1.
  split; [eapply was_answered_before; [exact Hans2|exact Hg3]|].
  split; [eapply was_answered_after; [exact Hg2|exact Hans3]|].
  destruct (devices_find (devices a) k) as [dev0|]; subst snoodevice.
  - auto.
  - cbn in Hid'. inversion Hid'. cbn. auto.
Qed.

Lemma listed_more x items k d : listed items k d -> listed (x :: items) k d.
Proof. intros (Hin & H). split; [right; exact Hin|exact H]. Qed.

(** Is [k] the key of an entry of [items]? *)
Definition lists_key (k : Key) (items : list Json) : bool :=
  existsb (fun x => match entry_key x with
                    | Some k' => key_eqb k k'
                    | None => false
                    end) items.

Lemma lists_key_true k items :
  lists_key k items = true -> exists d, listed items k d.
Proof.
  unfold lists_key. intros H. apply existsb_exists in H.
  destruct H as (x & Hin & Hx).
  destruct (entry_key x) as [k'|] eqn:Hk; [|discriminate Hx].
  destruct (key_eqb_spec k k') as [->|]; [|discriminate Hx].
  destruct x; try discriminate Hk.
  exists fields. apply entry_key_listed. auto.
Qed.

Lemma lists_key_false k items :
  lists_key k items = false -> forall x, In x items -> entry_key x <> Some k.
Proof.
  unfold lists_key. intros H x Hin Hk.
  assert (Ht : existsb (fun x => match entry_key x with
                                 | Some k' => key_eqb k k'
                                 | None => false
                                 end) items = true).
  { apply existsb_exists. exists x. split; [exact Hin|].
    rewrite Hk. apply key_eqb_refl. }
  rewrite Ht in H. discriminate H.
Qed.

Lemma not_listed_key items k :
  (forall d, ~ listed items k d) -> forall x, In x items -> entry_key x <> Some k.
Proof.
  intros H x Hin Hk. destruct x; try discriminate Hk.
  apply (H fields). apply entry_key_listed. auto.
Qed.

(** [refreshed] over a longer run: more entries before, steps before and
    after. *)
Lemma refreshed_later ts x items a a1 a' k dev :
  api_grows a a1 -> same_registry a1 a' ->
  (match devices_find (devices a1) k with
   | Some dev1 =>
       (exists d, listed (x :: items) k d /\ device dev1 = JDict d) \/
       devices_find (devices a) k = Some dev1
   | None => devices_find (devices a) k = None
   end) ->
  (forall dev1, devices_find (devices a1) k = Some dev1 ->
     match devices_find (devices a) k with
     | Some dev0 => dev_account dev1 = dev_account dev0 /\ dev_baby dev1 = dev_baby dev0
     | None => dev_account dev1 = account a' /\ dev_baby dev1 = baby a'
     end) ->
  refreshed ts items a1 a' k dev -> refreshed ts (x :: items) a a' k dev.
Proof.
  intros G1 R2 Hwas Hacc ((d & Hl & Hdev) & Hts & (token & sn & Hcfg & Hsn) & (token' & Hses) & Hown).
  split; [exists d; split; [apply listed_more; exact Hl|exact Hdev]|].
  split; [exact Hts|]. split; [|split].
  - exists token, sn. split; [eapply was_answered_after; [exact G1|exact Hcfg]|].
    destruct Hsn as [(d1 & Hl1 & E)|(dev1 & Hf1 & Hid)].
    + left. exists d1. split; [apply listed_more; exact Hl1|exact E].
    + rewrite Hf1 in Hwas. destruct Hwas as [(d1 & Hl1 & Hd1)|Hf0].
      * left. exists d1. split; [exact Hl1|].
        unfold device_id in Hid. rewrite Hd1 in Hid. cbn in Hid. inversion Hid. reflexivity.
      * right. exists dev1. auto.
  - exists token'. eapply was_answered_after; [exact G1|exact Hses].
  - destruct (devices_find (devices a1) k) as [dev1|] eqn:Hf1.
    + specialize (Hacc dev1 eq_refl).
      destruct (devices_find (devices a) k) as [dev0|];
        destruct Hown as [E1 E2], Hacc as [E3 E4]; split; congruence.
    + rewrite Hwas. exact Hown.
Qed.

(** The loop of [_get_device_details], when it returns: the devices whose
    serial number is not in the list are as they were, and every entry with
    a serial number has a device, refreshed. *)
Lemma refresh_loop_spec ts items : forall a a',
  for_each items (refresh_device ts) a = (Ok tt, a') ->
  api_grows a a' /\ same_registry a a' /\
  (forall k, (forall x, In x items -> entry_key x <> Some k) ->
     devices_find (devices a') k = devices_find (devices a) k) /\
  (forall k d, listed items k d ->
     exists dev, devices_find (devices a') k = Some dev /\
                 refreshed ts items a a' k dev).
Proof.
  induction items as [|x items IH]; intros a a' H.
  - inversion H; subst a'. split; [apply api_grows_refl|].
    split; [apply same_registry_refl|]. split; [reflexivity|].
    intros k d (Hin & _). contradiction.
  - cbn [for_each] in H.
    apply bind_ok_inv in H. destruct H as ([] & a1 & Hx & Hrest).
    destruct (IH _ _ Hrest) as (G2 & R2 & F2 & L2).
    destruct (refresh_device_returns _ _ _ _ Hx) as (dx & -> & Hnull & Hkeyed).
    destruct (entry_key (JDict dx)) as [kx|] eqn:Hkx.
    + (* the entry is stored under [kx] *)
      assert (Hlx : listed (JDict dx :: items) kx dx)
        by (apply entry_key_listed; split; [left; reflexivity|exact Hkx]).
      destruct Hlx as (_ & Hsn & Hkey).
      destruct (refresh_device_turn _ _ _ _ _ Hx Hsn Hkey)
        as (G1 & R1 & F1 & dev1 & token & sn & token' & Hf1 & Hd1 & Hts1 & Hcfg1 & Hses1 & Hown1).
      assert (R : same_registry a a') by (eapply same_registry_trans; eassumption).
      split; [eapply api_grows_trans; eassumption|]. split; [exact R|]. split.
      * intros k Hnone.
        assert (Hne : k <> kx).
        { intros ->. apply (Hnone (JDict dx)); [left; reflexivity|exact Hkx]. }
        rewrite F2 by (intros y Hy; apply Hnone; right; exact Hy).
        apply F1. exact Hne.
      * intros k d Hl.
        destruct (lists_key k items) eqn:Hlk.
        -- destruct (lists_key_true _ _ Hlk) as (d2 & Hl2).
           destruct (L2 _ _ Hl2) as (dev & Hf & Hr).
           exists dev. split; [exact Hf|].
           apply (refreshed_later ts (JDict dx) items a a1 a' k dev G1 R2); [| |exact Hr].
           ++ destruct (key_eqb_spec k kx) as [->|Hne].
              ** rewrite Hf1. left. exists dx. split; [|exact Hd1].
                 apply entry_key_listed. split; [left; reflexivity|exact Hkx].
              ** rewrite (F1 _ Hne).
                 destruct (devices_find (devices a) k); [right|]; reflexivity.
           ++ intros dev2 Hf2. destruct R as (Ra & Rb & _).
              destruct (key_eqb_spec k kx) as [->|Hne].
              ** rewrite Hf1 in Hf2. inversion Hf2; subst dev2.
                 destruct (devices_find (devices a) kx) as [dev0|].
                 --- destruct Hown1 as (_ & E1 & E2). auto.
                 --- destruct Hown1 as (_ & E1 & E2). rewrite Ra, Rb. auto.
              ** rewrite (F1 _ Hne) in Hf2. rewrite Hf2. auto.
        -- pose proof (lists_key_false _ _ Hlk) as Hnone.
           apply entry_key_listed in Hl. destruct Hl as ([E|Hin] & Hk).
           2:{ exfalso. exact (Hnone _ Hin Hk). }
           inversion E; subst d. rewrite Hkx in Hk. inversion Hk; subst k.
           exists dev1. split; [rewrite (F2 _ Hnone); exact Hf1|].
           assert (Hlx : listed (JDict dx :: items) kx dx)
             by (apply entry_key_listed; split; [left; reflexivity|exact Hkx]).
           split; [exists dx; auto|]. split; [exact Hts1|]. split; [|split].
           ++ exists token, sn. split; [eapply was_answered_before; [exact Hcfg1|exact G2]|].
              destruct (devices_find (devices a) kx) as [dev0|].
              ** right. exists dev0. destruct Hown1 as (E0 & _). auto.
              ** left. exists dx. destruct Hown1 as (E0 & _). auto.
           ++ exists token'. eapply was_answered_before; [exact Hses1|exact G2].
           ++ destruct R as (Ra & Rb & _).
              destruct (devices_find (devices a) kx) as [dev0|];
                destruct Hown1 as (_ & E1 & E2); [auto|rewrite Ra, Rb; auto].
    + (* the entry has no serial number *)
      assert (Hsn : dict_get dx "serialNumber" = JNull).
      { destruct (dict_get dx "serialNumber") eqn:E; [reflexivity|..];
          (destruct Hkeyed as (k & Hk); [discriminate|discriminate Hk]). }
      rewrite (Hnull Hsn) in *.
      split; [exact G2|]. split; [exact R2|]. split.
      * intros k Hnone. apply F2. intros y Hy. apply Hnone. right. exact Hy.
      * intros k d Hl. apply entry_key_listed in Hl. destruct Hl as ([E|Hin] & Hk).
        { inversion E; subst d. rewrite Hkx in Hk. discriminate Hk. }
        destruct (L2 k d) as (dev & Hf & Hr); [apply entry_key_listed; auto|].
        exists dev. split; [exact Hf|].
        apply (refreshed_later ts (JDict dx) items a a a' k dev (api_grows_refl a) R2);
          [| |exact Hr].
        -- destruct (devices_find (devices a) k); [right|]; reflexivity.
        -- intros dev2 Hf2. rewrite Hf2. auto.
Qed.

(** What a fetch of the device list has done between [a] and [a']: the
    list [j] is the answer to a GET of one of the two device-list URLs;
    without a list the devices are as they were; with one, the devices whose
    serial number is not listed are as they were, and every entry with a
    serial number has a device, refreshed at [ts], a time during the
    fetch. *)
Definition device_list_refreshed (a a' : API) : Prop :=
  exists token u j ts,
    device_list_url u /\
    was_answered (authorized token (a_request "get" u)) j (api_world a) (api_world a') /\
    api_now a <= ts <= api_now a' /\
    (j = JNull -> devices a' = devices a) /\
    forall items, py_iter j = Ok items ->
      (forall k, (forall d, ~ listed items k d) ->
         devices_find (devices a') k = devices_find (devices a) k) /\
      (forall k d, listed items k d ->
         exists dev, devices_find (devices a') k = Some dev /\
                     refreshed ts items a a' k dev).

Lemma refreshed_widen ts items a0 a1 a2 a3 k dev :
  devices a1 = devices a0 -> api_grows a0 a1 -> api_grows a2 a3 ->
  account a3 = account a2 -> baby a3 = baby a2 ->
  refreshed ts items a1 a2 k dev -> refreshed ts items a0 a3 k dev.
Proof.
  intros Hd G0 G3 Ha Hb (Hdev & Hts & (token & sn & Hcfg & Hsn) & (token' & Hses) & Hown).
  unfold refreshed. rewrite <- Hd, Ha, Hb.
  split; [exact Hdev|]. split; [exact Hts|]. split; [|split; [|exact Hown]].
  - exists token, sn. split; [|exact Hsn].
    eapply was_answered_after; [exact G0|].
    eapply was_answered_before; [exact Hcfg|exact G3].
  - exists token'.
    eapply was_answered_after; [exact G0|].
    eapply was_answered_before; [exact Hses|exact G3].
Qed.

Lemma device_list_refreshed_widen a0 a1 a2 a3 :
  devices a1 = devices a0 -> api_grows a0 a1 -> api_grows a2 a3 ->
  devices a3 = devices a2 -> account a3 = account a2 -> baby a3 = baby a2 ->
  device_list_refreshed a1 a2 -> device_list_refreshed a0 a3.
Proof.
  intros Hd G0 G3 Hd3 Ha Hb (token & u & j & ts & Hurl & Hans & Hts & Hnull & Hitems).
  exists token, u, j, ts. split; [exact Hurl|]. split.
  { eapply was_answered_after; [exact G0|].
    eapply was_answered_before; [exact Hans|exact G3]. }
  split.
  { destruct G0 as (_ & _ & T0 & _), G3 as (_ & _ & T3 & _).
    unfold api_now, api_world in *. lia. }
  split; [intros E; rewrite Hd3, <- Hd; exact (Hnull E)|].
  intros items Hiter. destruct (Hitems items Hiter) as (Hframe & Hlisted).
  rewrite Hd3, <- Hd. split; [exact Hframe|].
  intros k d Hl. destruct (Hlisted k d Hl) as (dev & Hf & Hr).
  exists dev. split; [exact Hf|].
  eapply refreshed_widen; eassumption.
Qed.

(** [_get_device_details], when it returns. *)
Lemma get_device_details_spec a a' :
  _get_device_details a = (Ok tt, a') ->
  same_registry a a' /\ api_grows a a' /\ device_list_refreshed a a'.
Proof.
  intros H. unfold _get_device_details in H.
  destruct (bind_ok_inv _ _ _ _ _ H) as (x & a1 & H1 & H2). clear H.
  apply account_givenName_frame in H1. subst a1.
  destruct (bind_ok_inv _ _ _ _ _ H2) as (devices_resp & a2 & Hlist & H3). clear H2.
  assert (Hfetched : exists token u,
            device_list_url u /\
            was_answered (authorized token (a_request "get" u)) devices_resp
              (api_world a) (api_world a2) /\
            a2 = set_gateway (gateway a2) a).
  { destruct (try_except_inv _ _ _ _ _ Hlist) as [(j & Hv11 & Hj)|(e & s1 & Hv11 & Hh)].
    - inversion Hj; subst j.
      destruct (get_json_ok _ _ _ _ Hv11) as (token & Hans).
      destruct (get_json_frame _ _ _ _ Hv11) as (Hf & _).
      exists token, (BASE_ENDPOINT ++ DEVICES_V11_URI)%string.
      split; [left; reflexivity|]. split; [exact Hans|exact Hf].
    - destruct (is_Exception e); [|discriminate Hh].
      destruct (get_json_frame _ _ _ _ Hv11) as (Hf1 & Hg).
      destruct (get_json_ok _ _ _ _ Hh) as (token & Hans).
      destruct (get_json_frame _ _ _ _ Hh) as (Hf2 & _).
      exists token, (BASE_ENDPOINT ++ DEVICES_URI)%string.
      split; [right; reflexivity|]. split.
      + eapply was_answered_after; [exact Hg|exact Hans].
      + rewrite Hf2, Hf1. reflexivity. }
  destruct Hfetched as (token & u & Hurl & Hans & Hf2).
  assert (Hd2 : devices a2 = devices a) by (rewrite Hf2; reflexivity).
  assert (Hr2 : same_registry a a2) by (unfold same_registry; rewrite Hf2; cbn; auto).
  assert (G2 : api_grows a a2) by (destruct Hans as (Hg & _); exact Hg).
  destruct (bind_ok_inv _ _ _ _ _ H3) as (ts & a3 & Hts & H4). clear H3.
  inversion Hts; subst a3 ts. clear Hts.
  (* what follows the fetch *)
  assert (Hloop :
    api_grows a2 a' /\ same_registry a2 a' /\
    (devices_resp = JNull -> devices a' = devices a2) /\
    forall items, py_iter devices_resp = Ok items ->
      for_each items (refresh_device (now (world (gateway a2)))) a2 = (Ok tt, a')).
  { destruct devices_resp.
    - apply bind_ok_inv in H4. destruct H4 as (x0 & a3 & Hn & Hret).
      apply account_givenName_frame in Hn. subst a3. inversion Hret; subst a'.
      split; [apply api_grows_refl|]. split; [apply same_registry_refl|].
      split; [reflexivity|]. intros items E. discriminate E.
    - discriminate H4.
    - discriminate H4.
    - discriminate H4.
    - apply bind_ok_inv in H4. destruct H4 as (its & a3 & Hi & Hrun).
      unfold lift in Hi.
      assert (E3 : a3 = a2) by (inversion Hi; reflexivity). subst a3.
      destruct (refresh_loop_spec _ _ _ _ Hrun) as (G & R & _).
      split; [exact G|]. split; [exact R|]. split; [discriminate|].
      intros items0 E. rewrite E in Hi. inversion Hi. subst items0. exact Hrun.
    - apply bind_ok_inv in H4. destruct H4 as (its & a3 & Hi & Hrun).
      unfold lift in Hi.
      assert (E3 : a3 = a2) by (inversion Hi; reflexivity). subst a3.
      destruct (refresh_loop_spec _ _ _ _ Hrun) as (G & R & _).
      split; [exact G|]. split; [exact R|]. split; [discriminate|].
      intros items0 E. rewrite E in Hi. inversion Hi. subst items0. exact Hrun.
    - apply bind_ok_inv in H4. destruct H4 as (its & a3 & Hi & Hrun).
      unfold lift in Hi.
      assert (E3 : a3 = a2) by (inversion Hi; reflexivity). subst a3.
      destruct (refresh_loop_spec _ _ _ _ Hrun) as (G & R & _).
      split; [exact G|]. split; [exact R|]. split; [discriminate|].
      intros items0 E. rewrite E in Hi. inversion Hi. subst items0. exact Hrun. }
  destruct Hloop as (G3 & R3 & Hnull & Hrun).
  split; [eapply same_registry_trans; eassumption|].
  split; [eapply api_grows_trans; eassumption|].
  exists token, u, devices_resp, (now (world (gateway a2))).
  split; [exact Hurl|]. split; [eapply was_answered_before; [exact Hans|exact G3]|].
  split.
  { destruct G2 as (_ & _ & T2 & _), G3 as (_ & _ & T3 & _).
    unfold api_now, api_world. lia. }
  split; [intros E; rewrite (Hnull E); exact Hd2|].
  intros items Hiter.
  destruct (refresh_loop_spec _ _ _ _ (Hrun items Hiter)) as (_ & _ & F & L).
  rewrite <- Hd2. split.
  - intros k Hnone. apply F. apply not_listed_key. exact Hnone.
  - intros k d Hl. destruct (L k d Hl) as (dev & Hf & Hr).
    exists dev. split; [exact Hf|].
    apply (refreshed_widen _ _ a a2 a' a' k dev Hd2 G2 (api_grows_refl a') eq_refl eq_refl Hr).
Qed.

(** X24: when [_get_device_details] returns, the device list it worked
    on is the answer to its GET of the v11 endpoint or of the legacy one;
    the devices whose serial number is not in the list are as they were; and
    every entry of the list that has a serial number has its device in the
    registry, under that serial number, holding an entry with that serial
    number, the answers to the requests for its configuration and for the
    session, and the time of the fetch. *)
Theorem listed_devices_are_registered a a' :
  _get_device_details a = (Ok tt, a') -> device_list_refreshed a a'.
Proof. intros H. apply (get_device_details_spec a a' H). Qed.

(** A client that learns of a second device. *)
Definition two_devices : API :=
  Scenarios.home (Some 800)
    [JList [JDict [("serialNumber", JStr "SN1")]; JDict [("serialNumber", JStr "SN2")]];
     JDict [("weaning", JBool true)]; Scenarios.session_blob;
     JDict [("weaning", JBool false)]; Scenarios.session_blob].

Lemma listed_devices_are_registered_witness :
  device_list_refreshed two_devices (snd (_get_device_details two_devices)).
Proof.
  apply (listed_devices_are_registered two_devices (snd (_get_device_details two_devices))).
  vm_compute. reflexivity.
Defined.

(** On [two_devices] the second device is new: it is stored with the
    client's account and baby, the second configuration and the session. *)
Example second_device_is_stored :
  devices_find (devices (snd (_get_device_details two_devices))) (KStr "SN2")
  = Some {| dev_account := account two_devices; dev_baby := baby two_devices;
            device := JDict [("serialNumber", JStr "SN2")];
            config := JDict [("weaning", JBool false)];
            session := Scenarios.session_blob;
            device_state_update := Some 1001 |}.
Proof. vm_compute. reflexivity. Qed.

End DeviceListFacts.


(** ** The throttle of the device registry *)

Module ThrottleFacts.
Import Transport Gate Registry RegistryFacts RegistryInvariants DeviceListFacts.

(** [dev'] is [dev], but for its session blob. *)
Definition only_session_differs (dev dev' : SnooDevice) : Prop :=
  dev_account dev' = dev_account dev /\ dev_baby dev' = dev_baby dev /\
  device dev' = device dev /\ config dev' = config dev /\
  device_state_update dev' = device_state_update dev.

(** The steps of the full branch before the device list: the account and
    the baby are fetched when the client has none. *)
Lemma account_step a r a' :
  match account a with
  | JNull => acc <- get_account ;; modify (set_account acc)
  | _ => ret tt
  end a = (r, a') ->
  devices a' = devices a /\ baby a' = baby a /\
  last_state_update a' = last_state_update a /\ api_grows a a' /\
  (account a <> JNull -> account a' = account a).
Proof.
  intros H.
  assert (Hno : a' = a -> devices a' = devices a /\ baby a' = baby a /\
            last_state_update a' = last_state_update a /\ api_grows a a' /\
            (account a <> JNull -> account a' = account a)).
  { intros ->. split; [reflexivity|]. split; [reflexivity|]. split; [reflexivity|].
    split; [apply grows_refl|auto]. }
  destruct (account a) eqn:Hacc; try (apply Hno; inversion H; reflexivity).
  clear Hno. unfold bind in H.
  destruct (AccountFacts.get_account_through a) as (r1 & g & Hrun & _).
  pose proof (get_account_grows a) as Hg. rewrite Hrun in *. cbn [snd] in Hg.
  destruct r1 as [acc|e]; inversion H; subst; cbn;
    (split; [reflexivity|]); (split; [reflexivity|]); (split; [reflexivity|]);
    (split; [exact Hg|]); intros E; contradiction.
Qed.

Lemma get_baby_through a :
  snd (get_baby_for_account a) = set_gateway (gateway (snd (get_baby_for_account a))) a.
Proof.
  set (R := fun x y : API => y = set_gateway (gateway y) x).
  assert (Hrefl : forall x, R x x) by (intros []; reflexivity).
  assert (Htrans : forall x y z, R x y -> R y z -> R x z).
  { unfold R. intros [] [] [] H1 H2. unfold set_gateway in *. cbn in *. congruence. }
  change (R a (snd (get_baby_for_account a))). generalize a.
  change (steps R get_baby_for_account).
  apply (steps_get_baby_for_account (fun _ _ => True)) with
    (good_url := fun _ => True) (Rg := fun _ _ => True); auto.
  intros x g _. reflexivity.
Qed.

Lemma baby_step a r a' :
  match baby a with
  | JNull => b <- get_baby_for_account ;; modify (set_baby b)
  | _ => ret tt
  end a = (r, a') ->
  devices a' = devices a /\ account a' = account a /\
  last_state_update a' = last_state_update a /\ api_grows a a' /\
  (baby a <> JNull -> baby a' = baby a).
Proof.
  intros H.
  assert (Hno : a' = a -> devices a' = devices a /\ account a' = account a /\
            last_state_update a' = last_state_update a /\ api_grows a a' /\
            (baby a <> JNull -> baby a' = baby a)).
  { intros ->. split; [reflexivity|]. split; [reflexivity|]. split; [reflexivity|].
    split; [apply grows_refl|auto]. }
  destruct (baby a) eqn:Hb; try (apply Hno; inversion H; reflexivity).
  clear Hno. unfold bind in H.
  pose proof (get_baby_through a) as Hthrough.
  pose proof (get_baby_for_account_grows a) as Hg.
  destruct (get_baby_for_account a) as [r1 a1]. cbn [snd] in *.
  rewrite Hthrough in H.
  destruct r1 as [b|e]; inversion H; subst; cbn;
    (split; [reflexivity|]); (split; [reflexivity|]); (split; [reflexivity|]);
    (split; [exact Hg|]); intros E; contradiction.
Qed.

(** The full branch, when it returns. *)
Lemma full_refresh_spec a a' :
  full_refresh a = (Ok tt, a') ->
  last_state_update a' = Some (api_now a') /\
  api_grows a a' /\
  (account a <> JNull -> account a' = account a) /\
  (baby a <> JNull -> baby a' = baby a) /\
  device_list_refreshed a a'.
Proof.
  unfold full_refresh. intros H.
  destruct (bind_ok_inv _ _ _ _ _ H) as (acc & a1 & H1 & H2). clear H.
  inversion H1; subst a1 acc. clear H1.
  destruct (bind_ok_inv _ _ _ _ _ H2) as ([] & a2 & Hacc & H3). clear H2.
  destruct (account_step _ _ _ Hacc) as (D2 & B2 & L2 & G2 & A2).
  destruct (bind_ok_inv _ _ _ _ _ H3) as (b & a3 & Hb & H4). clear H3.
  inversion Hb; subst a3 b. clear Hb.
  destruct (bind_ok_inv _ _ _ _ _ H4) as ([] & a4 & Hbaby & H5). clear H4.
  destruct (baby_step _ _ _ Hbaby) as (D4 & A4 & L4 & G4 & B4).
  destruct (bind_ok_inv _ _ _ _ _ H5) as ([] & a5 & Hdet & H6). clear H5.
  destruct (get_device_details_spec _ _ Hdet) as ((A5 & B5 & L5) & G5 & Hlist).
  destruct (bind_ok_inv _ _ _ _ _ H6) as (t & a6 & Ht & H7). clear H6.
  inversion Ht; subst a6 t. clear Ht.
  inversion H7; subst a'. clear H7.
  split; [reflexivity|]. split.
  { eapply api_grows_trans; [exact G2|]. eapply api_grows_trans; [exact G4|exact G5]. }
  cbn [account baby set_last_state_update].
  split; [intros E; rewrite A5, A4; exact (A2 E)|].
  split; [intros E; rewrite B5, B4, B2; [reflexivity|rewrite B2; exact E]|].
  apply (device_list_refreshed_widen a a4 a5); try reflexivity; try exact Hlist.
  - rewrite D4. exact D2.
  - eapply api_grows_trans; [exact G2|exact G4].
  - unfold api_grows. apply grows_refl.
Qed.

(** C5: a call to [update_device_info] made less than 120 seconds after
    the last full refresh leaves the last-full-update timestamp, the account
    and the baby unchanged and sends only requests for the session blob, and
    whatever authentication needs: no device list and no device
    configuration is fetched; the known devices stay, each as it was but for
    its session; and when the call returns, the session of each is the
    answer to a request for the session made during the call.  A call made
    120 seconds or more after the last full refresh (or the first call ever)
    is a full refresh.  When it returns, the timestamp is the time it
    completed, later than the one it found; the account and the baby are
    those the client had, if it had them; and the device list was fetched
    and every listed device created or updated, with its configuration and
    the session fetched ([device_list_refreshed]).  When it raises, the
    timestamp is not advanced (the first call ever leaves the time of the
    call less 120 seconds), the next call is a full refresh again, and no
    known device is lost. *)
Theorem device_refresh_is_throttled (a : API) :
  let r := fst (update_device_info a) in
  let a' := snd (update_device_info a) in
  (within_throttle_window a ->
   last_state_update a' = last_state_update a /\
   account a' = account a /\ baby a' = baby a /\
   (exists evs,
      trace (api_world a') = trace (api_world a) ++ evs /\
      forall rq, In (Sent rq) evs ->
        session_or_authentication rq /\
        ~ device_list_url (url rq) /\
        forall serial_number,
          url rq <> (BASE_ENDPOINT ++ DEVICE_CONFIGS_URI serial_number)%string) /\
   map fst (devices a') = map fst (devices a) /\
   (forall k dev,
      devices_find (devices a) k = Some dev ->
      exists dev',
        devices_find (devices a') k = Some dev' /\ only_session_differs dev dev' /\
        (r = Ok tt ->
         exists token,
           was_answered (authorized token session_request) (session dev')
             (api_world a) (api_world a'))))
  /\
  (after_throttle_window a ->
   (r = Ok tt ->
    last_state_update a' = Some (api_now a') /\
    (forall t, last_state_update a = Some t -> t < api_now a') /\
    (account a <> JNull -> account a' = account a) /\
    (baby a <> JNull -> baby a' = baby a) /\
    device_list_refreshed a a') /\
   (forall e, r = Raise e ->
    last_state_update a'
      = Some (match last_state_update a with
              | Some t => t
              | None => api_now a - DEFAULT_DEVICE_UPDATE_INTERVAL
              end) /\
    after_throttle_window a' /\
    exists new, map fst (devices a') = map fst (devices a) ++ new)).
Proof.
  cbv zeta. split.
  - intros Hin. rewrite (update_device_info_throttled a Hin).
    pose proof (refresh_sessions_emits a) as Hemits.
    assert (Hrun : refresh_sessions a = for_each (devices a) attach_session a)
      by reflexivity.
    rewrite Hrun in *.
    destruct (for_each (devices a) attach_session a) as [r a'] eqn:Hloop.
    cbn [fst snd] in *.
    destruct (refresh_loop _ _ _ _ Hloop)
      as (_ & (Hacc & Hbaby & Hlast) & Hkeys & Hany & _ & Hall).
    split; [exact Hlast|]. split; [exact Hacc|]. split; [exact Hbaby|].
    split; [|split; [exact Hkeys|]].
    + destruct Hemits as (evs & Htr & Hev).
      exists evs. split; [exact Htr|].
      intros rq Hrq. rewrite Forall_forall in Hev.
      pose proof (Hev _ Hrq) as Hok. cbn in Hok.
      split; [exact Hok|]. apply session_or_authentication_only, Hok.
    + intros k dev Hd.
      destruct (Hany k dev Hd) as (j & Hj).
      exists (set_session j dev). split; [exact Hj|].
      split; [unfold only_session_differs; cbn; auto|].
      intros Hr.
      destruct (Hall Hr k dev (devices_find_in _ _ _ Hd) Hd) as (token & j' & Hj' & Hans).
      rewrite Hj in Hj'. inversion Hj' as [E].
      assert (Ej : j' = j).
      { change j with (session (set_session j dev)). rewrite E. reflexivity. }
      subst j'. exists token. exact Hans.
  - intros Hafter. rewrite (update_device_info_full a Hafter) in *.
    pose proof (keeps_devices_update a) as Hkeep.
    rewrite (update_device_info_full a Hafter) in Hkeep.
    set (a0 := match last_state_update a with
               | None => set_last_state_update
                           (Some (api_now a - DEFAULT_DEVICE_UPDATE_INTERVAL)) a
               | Some _ => a
               end) in *.
    assert (H0 : api_world a0 = api_world a /\ devices a0 = devices a /\
                 account a0 = account a /\ baby a0 = baby a /\
                 last_state_update a0
                   = Some (match last_state_update a with
                           | Some t => t
                           | None => api_now a - DEFAULT_DEVICE_UPDATE_INTERVAL
                           end))
      by (subst a0; destruct (last_state_update a) eqn:E; cbn; rewrite ?E; auto).
    destruct H0 as (Hw0 & Hd0 & Ha0 & Hb0 & Hl0).
    destruct (full_refresh a0) as [r a'] eqn:Hfull. cbn [fst snd] in *.
    split.
    + intros ->.
      destruct (full_refresh_spec _ _ Hfull) as (Hlast & Hg & Hacc & Hbaby & Hlist).
      unfold api_grows in Hg. fold (api_world a0) (api_world a') in Hg.
      rewrite Hw0 in Hg.
      split; [exact Hlast|]. split; [|split; [|split]].
      * intros t Ht. unfold after_throttle_window in Hafter. rewrite Ht in Hafter.
        destruct Hg as (_ & _ & Hnow & _). unfold api_now in *.
        unfold DEFAULT_DEVICE_UPDATE_INTERVAL in Hafter. lia.
      * rewrite <- Ha0. exact Hacc.
      * rewrite <- Hb0. exact Hbaby.
      * apply (device_list_refreshed_widen a a0 a' a'); try reflexivity; try exact Hlist.
        -- exact Hd0.
        -- unfold api_grows. fold (api_world a) (api_world a0). rewrite Hw0. apply grows_refl.
        -- apply api_grows_refl.
    + intros e ->.
      destruct (full_refresh_on_raise _ _ _ Hfull) as [Hlast Hgrow].
      rewrite Hlast, Hl0. split; [reflexivity|]. split; [|exact Hkeep].
      unfold after_throttle_window. rewrite Hlast, Hl0.
      destruct Hgrow as (_ & _ & Hnow & _).
      fold (api_world a0) (api_world a') in Hnow. rewrite Hw0 in Hnow.
      unfold after_throttle_window in Hafter. unfold api_now in *.
      destruct (last_state_update a) as [t|];
        unfold DEFAULT_DEVICE_UPDATE_INTERVAL in *; lia.
Qed.

End ThrottleFacts.
